(** * The PromptDj playback engine of [index.tsx]

    A shallow embedding of the session and playback engine of the
    [PromptDj] element: the [throttle] helper, the connection life cycle
    ([connectToSession]), the inbound message dispatch ([onmessage],
    [onerror], [onclose]), the audio scheduling on the device clock, the
    playback state machine and the two throttled control channels
    ([setSessionPrompts], [updateSettings]).

    Modelling conventions.
    - The fields of the element are the fields of the record [PromptDj].
      The private variable [lastCall] captured by each of the two closures
      built by [throttle] is a field of that record too.
    - JavaScript numbers that carry times and weights are rationals ([Q]);
      [Date.now()] is an integer number of milliseconds ([Z]).
    - A handler is a computation in the monad [M]: it threads the element,
      appends to a log of the calls made on the external collaborators
      (session, audio graph, toast, console, timers) and may throw.
    - Every handler runs to completion before the next event is handled:
      an awaited call is answered where it is made. What the outside world
      answers (does the call throw, which session is returned, how long the
      decoded buffer lasts) is read from an [Env] supplied with the event.
    - The JavaScript [Map] of prompts is an association list in insertion
      order, the [Set] of filtered texts is a [gset string]. *)

From Stdlib Require Import QArith Qround Qminmax ZArith String List Lqa.
From stdpp Require Import base strings gmap list pretty.

Local Open Scope Z_scope.

(** ** Data model *)

Record Prompt := mkPrompt {
  promptId : string;
  color : string;
  text : string;
  weight : Q
}.

Inductive PlaybackState := stopped | playing | loading | paused.

Global Instance PlaybackState_eq_dec : EqDecision PlaybackState.
Proof. solve_decision. Defined.

(** [AudioContext.state] *)
Inductive AudioContextState := suspended | running | closed.

Global Instance AudioContextState_eq_dec : EqDecision AudioContextState.
Proof. solve_decision. Defined.

(** The optional fields of [LiveMusicGenerationConfig]; [None] is a field
    that is absent (or [undefined]). *)
Record LiveMusicGenerationConfig := mkConfig {
  temperature : option Q;
  topK : option Q;
  guidance : option Q;
  seed : option Q;
  bpm : option Q;
  density : option Q;
  brightness : option Q;
  scale : option string;
  muteBass : option bool;
  muteDrums : option bool;
  onlyBassAndDrums : option bool
}.

(** The object literal [{}]. *)
Definition emptyConfig : LiveMusicGenerationConfig :=
  mkConfig None None None None None None None None None None None.

(** [SettingsController.defaultConfig] *)
Definition defaultConfig : LiveMusicGenerationConfig :=
  mkConfig (Some (12 # 10)%Q) (Some (50 # 1)%Q) (Some (35 # 10)%Q)
           None None None None None None None None.

(** A handle on a live connection, named by the number of the connection. *)
Record LiveMusicSession := mkSession { sessionId : nat }.

Record FilteredPrompt := mkFilteredPrompt {
  fpText : string;
  filteredReason : option string
}.

Record AudioChunk := mkAudioChunk { data : string }.

(** [LiveMusicServerMessage]; [audioChunks] is [serverContent?.audioChunks]. *)
Record LiveMusicServerMessage := mkMessage {
  setupComplete : bool;
  filteredPrompt : option FilteredPrompt;
  audioChunks : option (list AudioChunk)
}.

(** The callbacks handed to [setTimeout]. *)
Inductive TimerCallback :=
  | PromoteToPlaying    (* armed with the first buffer of a timeline *)
  | ResetToast.         (* armed by [handleReset] *)

Inductive ConsoleLevel := Log | Warn | Error.

(** The calls a handler makes on its collaborators, in program order. *)
Inductive Effect :=
  | Console (level : ConsoleLevel) (msg : string)
  | ToastShow (message : string)
  | NewAudioContext
  | AudioContextResume
  | Connect
  | SessionClose (s : LiveMusicSession)
  | SessionSetWeightedPrompts (s : LiveMusicSession) (weightedPrompts : list Prompt)
  | SessionSetMusicGenerationConfig (s : LiveMusicSession) (cfg : LiveMusicGenerationConfig)
  | SessionPlay (s : LiveMusicSession)
  | SessionPause (s : LiveMusicSession)
  | SessionResetContext (s : LiveMusicSession)
  | DecodeAudioData (chunk : string)
  | SourceStart (when duration : Q)
  | GainHoldAt (t : Q)                       (* setValueAtTime(gain.value, t) *)
  | GainSetValueAtTime (value t : Q)
  | GainLinearRampToValueAtTime (value t : Q)
  | SetTimeout (cb : TimerCallback) (ms : Z)
  | PromptsChanged (prompts : list (string * Prompt)).

(** The element. *)
Record PromptDj := mkPromptDj {
  prompts : list (string * Prompt);
  nextPromptId : nat;
  session : option LiveMusicSession;
  audioContext : option AudioContextState;
  nextStartTime : Q;
  playbackState : PlaybackState;
  filteredPrompts : gset string;
  connectionError : bool;
  settingsController : option LiveMusicGenerationConfig;
  setSessionPrompts_lastCall : Z;
  updateSettings_lastCall : Z
}.

Definition sampleRate : Z := 48000.
Definition bufferTime : Q := 2%Q.

(** The answers of the outside world during one handler. *)
Record Env := mkEnv {
  dateNow : Z;                                  (* Date.now() *)
  currentTime : Q;                              (* audioContext.currentTime *)
  audioContextGlobal : option AudioContextState; (* constructor, state of a new context *)
  resumeRejects : bool;
  connectResult : option LiveMusicSession;       (* None: connect throws *)
  probeThrows : bool;
  closeThrows : bool;
  setWeightedPromptsThrows : option string;      (* Some m: throws, e.message = m *)
  setMusicGenerationConfigThrows : option string;
  playThrows : option string;
  pauseThrows : bool;
  resetContextThrows : option string;
  decodedDuration : option Q;                    (* None: decoding throws *)
  random : Q                                     (* Math.random() *)
}.

(** ** Field updates *)

Definition set_prompts v (st : PromptDj) : PromptDj :=
  mkPromptDj v (nextPromptId st) (session st) (audioContext st)
    (nextStartTime st) (playbackState st) (filteredPrompts st)
    (connectionError st) (settingsController st)
    (setSessionPrompts_lastCall st) (updateSettings_lastCall st).
Definition set_nextPromptId v (st : PromptDj) : PromptDj :=
  mkPromptDj (prompts st) v (session st) (audioContext st)
    (nextStartTime st) (playbackState st) (filteredPrompts st)
    (connectionError st) (settingsController st)
    (setSessionPrompts_lastCall st) (updateSettings_lastCall st).
Definition set_session v (st : PromptDj) : PromptDj :=
  mkPromptDj (prompts st) (nextPromptId st) v (audioContext st)
    (nextStartTime st) (playbackState st) (filteredPrompts st)
    (connectionError st) (settingsController st)
    (setSessionPrompts_lastCall st) (updateSettings_lastCall st).
Definition set_audioContext v (st : PromptDj) : PromptDj :=
  mkPromptDj (prompts st) (nextPromptId st) (session st) v
    (nextStartTime st) (playbackState st) (filteredPrompts st)
    (connectionError st) (settingsController st)
    (setSessionPrompts_lastCall st) (updateSettings_lastCall st).
Definition set_nextStartTime v (st : PromptDj) : PromptDj :=
  mkPromptDj (prompts st) (nextPromptId st) (session st) (audioContext st)
    v (playbackState st) (filteredPrompts st)
    (connectionError st) (settingsController st)
    (setSessionPrompts_lastCall st) (updateSettings_lastCall st).
Definition set_playbackState v (st : PromptDj) : PromptDj :=
  mkPromptDj (prompts st) (nextPromptId st) (session st) (audioContext st)
    (nextStartTime st) v (filteredPrompts st)
    (connectionError st) (settingsController st)
    (setSessionPrompts_lastCall st) (updateSettings_lastCall st).
Definition set_filteredPrompts v (st : PromptDj) : PromptDj :=
  mkPromptDj (prompts st) (nextPromptId st) (session st) (audioContext st)
    (nextStartTime st) (playbackState st) v
    (connectionError st) (settingsController st)
    (setSessionPrompts_lastCall st) (updateSettings_lastCall st).
Definition set_connectionError v (st : PromptDj) : PromptDj :=
  mkPromptDj (prompts st) (nextPromptId st) (session st) (audioContext st)
    (nextStartTime st) (playbackState st) (filteredPrompts st)
    v (settingsController st)
    (setSessionPrompts_lastCall st) (updateSettings_lastCall st).
Definition set_settingsController v (st : PromptDj) : PromptDj :=
  mkPromptDj (prompts st) (nextPromptId st) (session st) (audioContext st)
    (nextStartTime st) (playbackState st) (filteredPrompts st)
    (connectionError st) v
    (setSessionPrompts_lastCall st) (updateSettings_lastCall st).

(** The two closures made by [throttle] each own one [lastCall]. *)
Inductive ThrottleSlot := SetSessionPromptsSlot | UpdateSettingsSlot.

Definition readLastCall (slot : ThrottleSlot) (st : PromptDj) : Z :=
  match slot with
  | SetSessionPromptsSlot => setSessionPrompts_lastCall st
  | UpdateSettingsSlot => updateSettings_lastCall st
  end.

Definition writeLastCall (slot : ThrottleSlot) (v : Z) (st : PromptDj) : PromptDj :=
  match slot with
  | SetSessionPromptsSlot =>
      mkPromptDj (prompts st) (nextPromptId st) (session st) (audioContext st)
        (nextStartTime st) (playbackState st) (filteredPrompts st)
        (connectionError st) (settingsController st)
        v (updateSettings_lastCall st)
  | UpdateSettingsSlot =>
      mkPromptDj (prompts st) (nextPromptId st) (session st) (audioContext st)
        (nextStartTime st) (playbackState st) (filteredPrompts st)
        (connectionError st) (settingsController st)
        (setSessionPrompts_lastCall st) v
  end.

(** ** The handler monad: state, log of effects, exceptions *)

Inductive Outcome (A : Type) :=
  | Done (a : A)
  | Thrown (msg : string).
Arguments Done {A} a.
Arguments Thrown {A} msg.

Definition M (A : Type) : Type := PromptDj → Outcome A * PromptDj * list Effect.

Definition ret {A} (a : A) : M A := λ st, (Done a, st, []).

Definition bind {A B} (m : M A) (f : A → M B) : M B := λ st,
  match m st with
  | (Done a, st1, l1) =>
      match f a st1 with (r, st2, l2) => (r, st2, l1 ++ l2) end
  | (Thrown msg, st1, l1) => (Thrown msg, st1, l1)
  end.

Global Instance M_ret : MRet M := @ret.
Global Instance M_bind : MBind M := λ A B f m, bind m f.

Definition throw {A} (msg : string) : M A := λ st, (Thrown msg, st, []).

(** [try { m } catch (e) { h e.message }] *)
Definition try_catch {A} (m : M A) (h : string → M A) : M A := λ st,
  match m st with
  | (Done a, st1, l1) => (Done a, st1, l1)
  | (Thrown msg, st1, l1) =>
      match h msg st1 with (r, st2, l2) => (r, st2, l1 ++ l2) end
  end.

Definition gets {A} (f : PromptDj → A) : M A := λ st, (Done (f st), st, []).
Definition modify (f : PromptDj → PromptDj) : M unit := λ st, (Done tt, f st, []).
Definition emit (e : Effect) : M unit := λ st, (Done tt, st, [e]).

(** A call that throws when the outside world says so. *)
Definition call (e : Effect) (throws : option string) : M unit :=
  emit e ;;
  match throws with
  | Some msg => throw msg
  | None => ret tt
  end.

Definition when (b : bool) (m : M unit) : M unit := if b then m else ret tt.

Definition stateOf {A} (r : Outcome A * PromptDj * list Effect) : PromptDj := r.1.2.
Definition effectsOf {A} (r : Outcome A * PromptDj * list Effect) : list Effect := r.2.
Definition outcomeOf {A} (r : Outcome A * PromptDj * list Effect) : Outcome A := r.1.1.

(** ** Numbers *)

Definition Qltb (x y : Q) : bool := negb (Qle_bool y x).
Definition Qis (x y : Q) : bool := Qeq_bool x y.          (* x === y *)

(** ** [throttle] *)

(** [throttle(func, delay)]: the closure it returns, called at [Date.now() =
    now] with argument [args]. [slot] names the [lastCall] it captured.
    Both functions wrapped in this file are [async] and catch what their
    awaited call throws, so [func] returns and [lastCall] is stored. *)
Definition throttle {A} (slot : ThrottleSlot) (func : A → M unit) (delay : Z)
    (now : Z) (args : A) : M unit :=
  lastCall ← gets (readLastCall slot);
  let timeSinceLastCall := now - lastCall in
  if (delay <=? timeSinceLastCall) then
    func args ;;
    modify (writeLastCall slot now)
  else ret tt.

(** ** ToastMessage *)

Definition toastShow (message : string) : M unit := emit (ToastShow message).

(** ** Playback *)

(** [this.session && !this.connectionError]: the session, when there is one
    and no error is flagged. The guards [!this.session ||
    this.connectionError] are [healthy st = None]. *)
Definition healthy (st : PromptDj) : option LiveMusicSession :=
  match session st with
  | Some s => if connectionError st then None else Some s
  | None => None
  end.

(** [outputNode] is created together with [audioContext], so the test on
    both before a gain ramp is a test on the state of the context. *)
Definition pauseAudio (env : Env) : M unit :=
  h ← gets healthy;
  match h with
  | Some s =>
      emit (SessionPause s) ;;
      when (pauseThrows env) (emit (Console Warn "Error pausing session:"))
  | None => ret tt
  end ;;
  modify (set_playbackState paused) ;;
  ctx ← gets audioContext;
  match ctx with
  | Some running =>
      emit (GainHoldAt (currentTime env)) ;;
      emit (GainLinearRampToValueAtTime 0 (currentTime env + (1 # 10))%Q)
  | _ => ret tt
  end ;;
  modify (set_nextStartTime 0%Q).

(** ** Inbound messages *)

Definition dquote : string := String (Ascii.ascii_of_nat 34) EmptyString.

Definition filteredToast (fp : FilteredPrompt) : string :=
  dquote +:+ substring 0 30 (fpText fp) +:+ "..." +:+ dquote
    +:+ " idea is a bit tricky! "
    +:+ match filteredReason fp with Some r => r | None => "" end.

Definition underrunWarning : string :=
  "Audio under-run detected! Resetting playback.".

(** The part of [onmessage] that follows the test on [audioChunks]. *)
Definition onAudioChunks (chunks : list AudioChunk) (env : Env) : M unit :=
  ps ← gets playbackState;
  if bool_decide (ps = paused) || bool_decide (ps = stopped) then ret tt
  else
    ctx ← gets audioContext;
    match ctx with
    | None | Some closed =>
        emit (Console Warn "AudioContext closed or not available, cannot play audio.") ;;
        pauseAudio env
    | Some _ =>
        match chunks with
        | [] => throw "TypeError"                       (* audioChunks[0].data *)
        | chunk :: _ =>
            emit (DecodeAudioData (data chunk)) ;;
            match decodedDuration env with
            | None => throw "decodeAudioData"
            | Some duration =>
                t ← gets nextStartTime;
                when (Qis t 0)
                  (modify (set_nextStartTime (currentTime env + bufferTime)%Q) ;;
                   emit (SetTimeout PromoteToPlaying
                           (Qfloor (bufferTime * 1000)))) ;;
                t ← gets nextStartTime;
                when (Qltb t (currentTime env))
                  (emit (Console Warn underrunWarning) ;;
                   modify (set_playbackState loading) ;;
                   modify (set_nextStartTime (currentTime env + bufferTime)%Q)) ;;
                t ← gets nextStartTime;
                emit (SourceStart t duration) ;;
                modify (set_nextStartTime (t + duration)%Q)
            end
        end
    end.

Definition onmessage (e : LiveMusicServerMessage) (env : Env) : M unit :=
  emit (Console Log "Received message from the server:") ;;
  when (setupComplete e) (modify (set_connectionError false)) ;;
  match filteredPrompt e with
  | Some fp =>
      modify (λ st, set_filteredPrompts (filteredPrompts st ∪ {[ fpText fp ]}) st) ;;
      toastShow (filteredToast fp)
  | None => ret tt
  end ;;
  match audioChunks e with
  | Some chunks => onAudioChunks chunks env
  | None => ret tt
  end.

(** The callback of the look-ahead timer. *)
Definition promoteToPlaying : M unit :=
  ps ← gets playbackState;
  when (bool_decide (ps = loading)) (modify (set_playbackState playing)).

Definition onerror (env : Env) : M unit :=
  emit (Console Error "Connection error:") ;;
  modify (set_connectionError true) ;;
  pauseAudio env ;;
  modify (set_playbackState paused) ;;
  toastShow "Oh no! Lost connection to the music magic. Try playing again.".

Definition onclose (wasClean : bool) (env : Env) : M unit :=
  emit (Console Log "Connection closed.") ;;
  when (negb wasClean)
    (modify (set_connectionError true) ;;
     pauseAudio env ;;
     modify (set_playbackState paused) ;;
     toastShow "Music magic connection closed. Please try playing again.").

(** ** The prompt map *)

(** [Map.prototype.set]: an existing key keeps its place. *)
Fixpoint map_set (k : string) (v : Prompt) (m : list (string * Prompt))
    : list (string * Prompt) :=
  match m with
  | [] => [(k, v)]
  | (k', v') :: m' =>
      if String.eqb k k' then (k, v) :: m' else (k', v') :: map_set k v m'
  end.

Fixpoint map_get (k : string) (m : list (string * Prompt)) : option Prompt :=
  match m with
  | [] => None
  | (k', v') :: m' => if String.eqb k k' then Some v' else map_get k m'
  end.

Fixpoint map_delete (k : string) (m : list (string * Prompt))
    : list (string * Prompt) :=
  match m with
  | [] => []
  | (k', v') :: m' =>
      if String.eqb k k' then m' else (k', v') :: map_delete k m'
  end.

Definition map_values (m : list (string * Prompt)) : list Prompt := map snd m.

(** The [prompts-changed] event and the write to local storage. *)
Definition dispatchPromptsChange : M unit :=
  ps ← gets prompts;
  emit (PromptsChanged ps).

(** ** The weighted-prompts channel *)

Definition childFriendlyInstruction : string := "Music for a 5-year-old: ".

Definition wrapText (t : string) : string :=
  childFriendlyInstruction +:+ t +:+ ". Make it simple, happy, and playful.".

Definition wrapPrompt (p : Prompt) : Prompt :=
  mkPrompt (promptId p) (color p) (wrapText (text p)) (weight p).

(** The predicate of the [filter] in [setSessionPrompts]. *)
Definition isActive (filtered : gset string) (p : Prompt) : bool :=
  negb (bool_decide (text p ∈ filtered)) && Qltb (1 # 100) (weight p).

Definition promptsToSend (st : PromptDj) : list Prompt :=
  map wrapPrompt
    (List.filter (isActive (filteredPrompts st)) (map_values (prompts st))).

(** The function wrapped by [throttle] in [setSessionPrompts]. *)
Definition setSessionPromptsBody (env : Env) (_ : unit) : M unit :=
  h ← gets healthy;
  match h with
  | None => emit (Console Warn "Session not ready for setSessionPrompts")
  | Some s =>
      ps ← gets promptsToSend;
      try_catch
        (call (SessionSetWeightedPrompts s ps) (setWeightedPromptsThrows env))
        (λ msg,
           toastShow ("Oops! Had trouble with song ideas: " +:+ msg) ;;
           pauseAudio env)
  end.

Definition setSessionPrompts (env : Env) : M unit :=
  throttle SetSessionPromptsSlot (setSessionPromptsBody env) 250 (dateNow env) tt.

(** ** The generation-config channel *)

(** The function wrapped by [throttle] in [updateSettings]. *)
Definition updateSettingsBody (env : Env) (detail : LiveMusicGenerationConfig)
    : M unit :=
  h ← gets healthy;
  match h with
  | None => emit (Console Warn "Session not ready for updateSettings")
  | Some s =>
      try_catch
        (call (SessionSetMusicGenerationConfig s detail)
           (setMusicGenerationConfigThrows env))
        (λ msg, toastShow ("Setting change failed: " +:+ msg))
  end.

Definition updateSettings (env : Env) (detail : LiveMusicGenerationConfig)
    : M unit :=
  throttle UpdateSettingsSlot (updateSettingsBody env) 250 (dateNow env) detail.

(** A [settings-changed] event: the controller has stored its new config
    and hands it over as the detail of the event. *)
Definition onSettingsChanged (cfg : LiveMusicGenerationConfig) (env : Env)
    : M unit :=
  modify (set_settingsController (Some cfg)) ;;
  updateSettings env cfg.

(** The config left by [SettingsController.resetToDefaults]. *)
Definition resetConfig : LiveMusicGenerationConfig :=
  mkConfig (temperature defaultConfig) (topK defaultConfig)
    (guidance defaultConfig) (seed defaultConfig) (bpm defaultConfig)
    None None (scale defaultConfig) (muteBass defaultConfig)
    (muteDrums defaultConfig) (onlyBassAndDrums defaultConfig).

(** ** The connection *)

Definition initializeAudioContext (env : Env) : M unit :=
  ctx ← gets audioContext;
  match ctx with
  | Some suspended | Some running => ret tt
  | Some closed | None =>
      match audioContextGlobal env with
      | Some s0 => emit NewAudioContext ;; modify (set_audioContext (Some s0))
      | None =>
          emit (Console Error "AudioContext is not supported in this browser.") ;;
          toastShow "Oops! Your browser doesn't support the magic sound maker (AudioContext)."
      end
  end.

(** [if (audioContext.state === 'suspended') await audioContext.resume()] *)
Definition resumeIfSuspended (env : Env) : M unit :=
  ctx ← gets audioContext;
  match ctx with
  | Some suspended =>
      emit AudioContextResume ;;
      if resumeRejects env then throw "resume"
      else modify (set_audioContext (Some running))
  | _ => ret tt
  end.

Definition connectToSession (env : Env) : M unit :=
  ctx ← gets audioContext;
  match ctx with
  | None =>
      toastShow "Cannot connect: Audio system not ready." ;;
      modify (set_playbackState stopped)
  | Some _ =>
      h ← gets healthy;
      alive ← match h with
              | Some s =>
                  try_catch
                    (call (SessionSetMusicGenerationConfig s emptyConfig)
                       (if probeThrows env then Some "probe" else None) ;;
                     ret true)
                    (λ _,
                       emit (Console Warn "Session check failed, reconnecting.") ;;
                       ret false)
              | None => ret false
              end;
      if alive : bool then ret tt
      else
        old ← gets session;
        match old with
        | Some s =>
            emit (SessionClose s) ;;
            when (closeThrows env)
              (emit (Console Warn "Error closing existing session:"))
        | None => ret tt
        end ;;
        modify (set_playbackState loading) ;;
        try_catch
          (emit Connect ;;
           match connectResult env with
           | None => throw "connect"
           | Some s =>
               modify (set_session (Some s)) ;;
               modify (set_connectionError false) ;;
               setSessionPrompts env ;;
               sc ← gets settingsController;
               match sc with
               | Some currentSettings =>
                   call (SessionSetMusicGenerationConfig s currentSettings)
                     (setMusicGenerationConfigThrows env)
               | None => ret tt
               end
           end)
          (λ _,
             emit (Console Error "Failed to connect to session:") ;;
             modify (set_connectionError true) ;;
             modify (set_playbackState stopped) ;;
             toastShow "Couldn't start the music magic. Is your internet okay?")
  end.

Definition fadeIn (env : Env) : M unit :=
  ctx ← gets audioContext;
  match ctx with
  | Some running =>
      emit (GainSetValueAtTime 0 (currentTime env)) ;;
      emit (GainLinearRampToValueAtTime 1 (currentTime env + (2 # 10))%Q)
  | _ => ret tt
  end.

Definition loadAudio (env : Env) : M unit :=
  ctx ← gets audioContext;
  match ctx with
  | Some running =>
      h ← gets healthy;
      match h with
      | None =>
          toastShow "Trying to reconnect the music magic..." ;;
          (* connectToSession().then(...): what the callback throws is lost *)
          try_catch
            (connectToSession env ;;
             h2 ← gets healthy;
             match h2 with
             | Some s =>
                 call (SessionPlay s) (playThrows env) ;;
                 modify (set_playbackState loading) ;;
                 fadeIn env
             | None => ret tt
             end)
            (λ _, ret tt)
      | Some s =>
          try_catch
            (call (SessionPlay s) (playThrows env) ;;
             modify (set_playbackState loading) ;;
             fadeIn env)
            (λ msg,
               toastShow ("Couldn't play: " +:+ msg) ;;
               modify (set_playbackState paused))
      end
  | _ =>
      toastShow "Audio system not ready to play." ;;
      modify (set_playbackState paused)
  end.

Definition handlePlayPause (env : Env) : M unit :=
  initializeAudioContext env ;;
  ctx ← gets audioContext;
  match ctx with
  | None => toastShow "Cannot play: Audio system not ready."
  | Some _ =>
      resumeIfSuspended env ;;
      ps ← gets playbackState;
      match ps with
      | playing => pauseAudio env
      | paused | stopped =>
          h ← gets healthy;
          match h with
          | None =>
              connectToSession env ;;
              failed ← gets connectionError;
              if failed : bool then ret tt else loadAudio env
          | Some _ => loadAudio env
          end
      | loading => pauseAudio env
      end
  end.

(** ** Editing the prompt set *)

Definition COLORS : list string :=
  ["#FF6384"; "#FFCD56"; "#4BC0C0"; "#36A2EB";
   "#9966FF"; "#FF9F40"; "#83F28F"; "#F06292"].

(** [arr[Math.floor(r * arr.length)]] *)
Definition pick (r : Q) (arr : list string) : string :=
  nth (Z.to_nat (Qfloor (r * inject_Z (Z.of_nat (length arr))))) arr "".

Definition getUnusedRandomColor (usedColors : list string) (r : Q) : string :=
  let availableColors :=
    List.filter (λ c, negb (bool_decide (c ∈ usedColors))) COLORS in
  if (length availableColors =? 0)%nat then pick r COLORS
  else pick r availableColors.

(** The scrolling and focusing of the new controller, after
    [updateComplete], touch the page only and are left out. *)
Definition handleAddPrompt (env : Env) : M unit :=
  ps ← gets prompts;
  if (8 <=? length ps)%nat then
    toastShow "That's a lot of song ideas! Maybe remove one first?"
  else
    n ← gets nextPromptId;
    modify (set_nextPromptId (S n)) ;;
    let newPromptId := "prompt-" +:+ pretty n in
    let usedColors := map color (map_values ps) in
    let newPrompt :=
      mkPrompt newPromptId (getUnusedRandomColor usedColors (random env))
        "New Song Idea!" 0%Q in
    modify (set_prompts (map_set newPromptId newPrompt ps)) ;;
    dispatchPromptsChange.

Definition handlePromptChanged (detail : Prompt) (env : Env) : M unit :=
  ps ← gets prompts;
  match map_get (promptId detail) ps with
  | None => emit (Console Error "Prompt not found:")
  | Some prompt =>
      let prompt' :=
        mkPrompt (promptId prompt) (color prompt) (text detail) (weight detail) in
      modify (set_prompts (map_set (promptId detail) prompt' ps)) ;;
      setSessionPrompts env ;;
      dispatchPromptsChange
  end.

Definition handlePromptRemoved (promptIdToRemove : string) (env : Env) : M unit :=
  ps ← gets prompts;
  match map_get promptIdToRemove ps with
  | Some _ =>
      modify (set_prompts (map_delete promptIdToRemove ps)) ;;
      setSessionPrompts env ;;
      dispatchPromptsChange
  | None => emit (Console Warn "Attempted to remove non-existent prompt ID")
  end.

(** ** Reset and start-up *)

Definition handleReset (env : Env) : M unit :=
  initializeAudioContext env ;;
  ctx ← gets audioContext;
  match ctx with
  | None => toastShow "Cannot reset: Audio system not ready."
  | Some _ =>
      resumeIfSuspended env ;;
      h ← gets healthy;
      connected ← match h with
                  | None =>
                      connectToSession env ;;
                      failed ← gets connectionError;
                      ret (negb failed)
                  | Some _ => ret true
                  end;
      if connected : bool then
        pauseAudio env ;;
        s ← gets session;
        match s with
        | Some s =>
            try_catch
              (call (SessionResetContext s) (resetContextThrows env))
              (λ msg, toastShow ("Could not reset music context: " +:+ msg))
        | None => ret tt
        end ;;
        sc ← gets settingsController;
        match sc with
        | Some _ => onSettingsChanged resetConfig env
        | None => throw "TypeError"        (* settingsController.resetToDefaults *)
        end ;;
        modify (set_filteredPrompts ∅) ;;
        emit (SetTimeout ResetToast 500)
      else ret tt
  end.

Definition resetToast : M unit := toastShow "Music all fresh and new!".

(** [firstUpdated]. The config of a settings controller always has own keys,
    so the branch on [Object.keys(initialSettings).length] takes its first
    arm. [later] is [Date.now()] at the second call of [setSessionPrompts]. *)
Definition firstUpdated (later : Z) (env : Env) : M unit :=
  initializeAudioContext env ;;
  ctx ← gets audioContext;
  match ctx with
  | None => ret tt
  | Some _ =>
      connectToSession env ;;
      throttle SetSessionPromptsSlot (setSessionPromptsBody env) 250 later tt ;;
      sc ← gets settingsController;
      s ← gets session;
      match sc, s with
      | Some initialSettings, Some s =>
          call (SessionSetMusicGenerationConfig s initialSettings)
            (setMusicGenerationConfigThrows env)
      | _, _ => ret tt
      end
  end.

(** ** Events *)

Inductive Event :=
  | FirstUpdated (later : Z)
  | ServerMessage (e : LiveMusicServerMessage)
  | ConnectionError
  | ConnectionClosed (wasClean : bool)
  | TimerFired (cb : TimerCallback)
  | PlayPauseClick
  | AddPromptClick
  | PromptChanged (detail : Prompt)
  | PromptRemoved (promptIdToRemove : string)
  | SettingsChanged (cfg : LiveMusicGenerationConfig)
  | ResetClick.

Definition handler (ev : Event) (env : Env) : M unit :=
  match ev with
  | FirstUpdated later => firstUpdated later env
  | ServerMessage e => onmessage e env
  | ConnectionError => onerror env
  | ConnectionClosed wasClean => onclose wasClean env
  | TimerFired PromoteToPlaying => promoteToPlaying
  | TimerFired ResetToast => resetToast
  | PlayPauseClick => handlePlayPause env
  | AddPromptClick => handleAddPrompt env
  | PromptChanged detail => handlePromptChanged detail env
  | PromptRemoved i => handlePromptRemoved i env
  | SettingsChanged cfg => onSettingsChanged cfg env
  | ResetClick => handleReset env
  end.

(** The event loop: the handlers of a list of events, one after the other.
    An exception that escapes a handler ends that handler only. *)
Fixpoint run (evs : list (Event * Env)) (st : PromptDj) : PromptDj * list Effect :=
  match evs with
  | [] => (st, [])
  | (ev, env) :: rest =>
      let r := handler ev env st in
      let r' := run rest (stateOf r) in
      (r'.1, effectsOf r ++ r'.2)
  end.

(** ** Reading a log *)

(** The buffers handed to [source.start], as (start time, duration). *)
Fixpoint scheduled (l : list Effect) : list (Q * Q) :=
  match l with
  | [] => []
  | SourceStart t d :: l' => (t, d) :: scheduled l'
  | _ :: l' => scheduled l'
  end.

(** The prompt lists pushed with [setWeightedPrompts]. *)
Fixpoint pushes (l : list Effect) : list (list Prompt) :=
  match l with
  | [] => []
  | SessionSetWeightedPrompts _ ps :: l' => ps :: pushes l'
  | _ :: l' => pushes l'
  end.

Definition isDecode (e : Effect) : bool :=
  match e with DecodeAudioData _ => true | _ => false end.

Definition isProbe (e : Effect) : bool :=
  match e with
  | SessionSetMusicGenerationConfig _ cfg =>
      match cfg with
      | mkConfig None None None None None None None None None None None => true
      | _ => false
      end
  | _ => false
  end.

Definition isReconnect (e : Effect) : bool :=
  match e with Connect | SessionClose _ => true | _ => false end.

Definition isToast (e : Effect) : bool :=
  match e with ToastShow _ => true | _ => false end.

Definition isUnderrun (e : Effect) : bool :=
  match e with
  | Console Warn msg => String.eqb msg underrunWarning
  | _ => false
  end.

(** What [onmessage] has done to the element, and logged, when it reaches
    the test on [audioChunks]. *)
Definition dispatched (e : LiveMusicServerMessage) (st : PromptDj) : PromptDj :=
  let st1 := if setupComplete e then set_connectionError false st else st in
  match filteredPrompt e with
  | Some fp => set_filteredPrompts (filteredPrompts st1 ∪ {[ fpText fp ]}) st1
  | None => st1
  end.

Definition dispatchedLog (e : LiveMusicServerMessage) : list Effect :=
  Console Log "Received message from the server:" ::
  match filteredPrompt e with
  | Some fp => [ToastShow (filteredToast fp)]
  | None => []
  end.

(** A message that carries a chunk which decodes to a buffer of positive
    duration, handled at a non-negative device time. *)
Definition carriesBuffer (m : LiveMusicServerMessage * Env) : Prop :=
  ∃ chunk rest d,
    audioChunks m.1 = Some (chunk :: rest) ∧
    decodedDuration m.2 = Some d ∧
    (0 < d)%Q ∧ (0 <= currentTime m.2)%Q.

Definition asEvents (msgs : list (LiveMusicServerMessage * Env))
    : list (Event * Env) :=
  map (λ m, (ServerMessage m.1, m.2)) msgs.

(** A timeline: every buffer starts where the one before it ends. *)
Fixpoint timeline (t : Q) (sched : list (Q * Q)) : Prop :=
  match sched with
  | [] => True
  | (t', d) :: rest => t' = t ∧ (0 < t)%Q ∧ (0 < d)%Q ∧ timeline (t + d)%Q rest
  end.

(** A pushed list holds no prompt whose text is the wrapped [T]. *)
Definition excludes (T : string) (ps : list Prompt) : Prop :=
  ∀ p, text p = T → wrapPrompt p ∉ ps.

(** [m] keeps [T] in the filtered set and pushes only lists without it. *)
Definition keeps {A} (T : string) (m : M A) : Prop :=
  ∀ st, T ∈ filteredPrompts st →
    T ∈ filteredPrompts (stateOf (m st)) ∧
    Forall (excludes T) (pushes (effectsOf (m st))).

Definition notReset (x : Event * Env) : Prop := x.1 ≠ ResetClick.

(** ** Calls on a throttled channel, one after the other *)

(** The closure returned by [throttle], called once per element of [calls]
    (wall-clock time, argument). *)
Fixpoint throttleAll {A} (slot : ThrottleSlot) (func : A → M unit) (delay : Z)
    (calls : list (Z * A)) : M unit :=
  match calls with
  | [] => ret tt
  | (now, args) :: rest =>
      throttle slot func delay now args ;;
      throttleAll slot func delay rest
  end.

(** The wrapped function called on each element of [calls], each call
    followed by the store of its time in [lastCall]. *)
Fixpoint acceptAll {A} (slot : ThrottleSlot) (func : A → M unit)
    (calls : list (Z * A)) : M unit :=
  match calls with
  | [] => ret tt
  | (now, args) :: rest =>
      func args ;;
      modify (writeLastCall slot now) ;;
      acceptAll slot func rest
  end.

(** The calls that pass the test [now - lastCall >= delay]. *)
Fixpoint acceptedCalls {A} (delay lastCall : Z) (calls : list (Z * A))
    : list (Z * A) :=
  match calls with
  | [] => []
  | (now, args) :: rest =>
      if delay <=? now - lastCall
      then (now, args) :: acceptedCalls delay now rest
      else acceptedCalls delay lastCall rest
  end.

(** Times at least [delay] after [lastCall] and after one another. *)
Fixpoint spaced (delay lastCall : Z) (times : list Z) : Prop :=
  match times with
  | [] => True
  | t :: rest => delay ≤ t - lastCall ∧ spaced delay t rest
  end.

(** ** WeightSlider *)

(** The part of a [DOMRect] the slider reads. *)
Record DOMRect := mkDOMRect { rectTop : Q; rectHeight : Q }.

Record WeightSlider := mkWeightSlider {
  sliderValue : Q;                      (* value *)
  dragStartPos : Q;
  dragStartValue : Q;
  containerBounds : option DOMRect
}.

(** A handler of the slider returns the slider and the details of the
    [input] events it has dispatched. *)
Definition updateValueFromPosition (clientY : Q) (w : WeightSlider)
    : WeightSlider * list Q :=
  match containerBounds w with
  | None => (w, [])
  | Some bounds =>
      let trackHeight := rectHeight bounds in
      let relativeY := (clientY - rectTop bounds)%Q in
      let normalizedValue :=
        (1 - Qmax 0 (Qmin trackHeight relativeY) / trackHeight)%Q in
      let value := (normalizedValue * 2)%Q in
      (mkWeightSlider value (dragStartPos w) (dragStartValue w)
         (containerBounds w),
       [value])
  end.

(** [rect] is what [getBoundingClientRect] returns. *)
Definition handlePointerDown (clientY : Q) (rect : DOMRect) (w : WeightSlider)
    : WeightSlider * list Q :=
  updateValueFromPosition clientY
    (mkWeightSlider (sliderValue w) clientY (sliderValue w) (Some rect)).

Definition handlePointerMove (clientY : Q) (w : WeightSlider)
    : WeightSlider * list Q :=
  updateValueFromPosition clientY w.

(** [touches] holds the [clientY] of [e.touches]; with no touch the read of
    [e.touches[0].clientY] throws and the slider is left as it is. *)
Definition handleTouchMove (touches : list Q) (w : WeightSlider)
    : WeightSlider * list Q :=
  match touches with
  | [] => (w, [])
  | clientY :: _ => updateValueFromPosition clientY w
  end.

Definition handlePointerUp (w : WeightSlider) : WeightSlider * list Q :=
  (mkWeightSlider (sliderValue w) (dragStartPos w) (dragStartValue w) None, []).

Definition handleWheel (deltaY : Q) (w : WeightSlider) : WeightSlider * list Q :=
  let value := (sliderValue w + deltaY * - (5 # 1000))%Q in
  let value := Qmax 0 (Qmin 2 value) in
  (mkWeightSlider value (dragStartPos w) (dragStartValue w) (containerBounds w),
   [value]).

Inductive SliderEvent :=
  | PointerDown (clientY : Q) (rect : DOMRect)
  | PointerMove (clientY : Q)
  | TouchMove (touches : list Q)
  | PointerUp
  | Wheel (deltaY : Q).

Definition sliderHandler (ev : SliderEvent) (w : WeightSlider)
    : WeightSlider * list Q :=
  match ev with
  | PointerDown clientY rect => handlePointerDown clientY rect w
  | PointerMove clientY => handlePointerMove clientY w
  | TouchMove touches => handleTouchMove touches w
  | PointerUp => handlePointerUp w
  | Wheel deltaY => handleWheel deltaY w
  end.

Fixpoint sliderRun (evs : list SliderEvent) (w : WeightSlider)
    : WeightSlider * list Q :=
  match evs with
  | [] => (w, [])
  | ev :: rest =>
      let r := sliderHandler ev w in
      let r' := sliderRun rest r.1 in
      (r'.1, r.2 ++ r'.2)
  end.

(** The track measured at a pointer-down has a positive height. *)
Definition tallTrack (ev : SliderEvent) : Prop :=
  match ev with
  | PointerDown _ rect => (0 < rectHeight rect)%Q
  | _ => True
  end.

Definition inRange (v : Q) : Prop := (0 <= v)%Q ∧ (v <= 2)%Q.

(** The bounds kept during a drag, if any, have a positive height. *)
Definition measured (w : WeightSlider) : Prop :=
  match containerBounds w with
  | Some bounds => (0 < rectHeight bounds)%Q
  | None => True
  end.

(** ** PromptController *)

(** The properties of a controller and the text of its [#text] span. *)
Record PromptController := mkPromptController {
  ctlPromptId : string;                 (* promptId *)
  ctlText : string;                     (* text *)
  ctlWeight : Q;                        (* weight *)
  ctlColor : string;                    (* color *)
  textContent : string                  (* textInput.textContent *)
}.

(** A handler of the controller returns the controller and the events it
    has dispatched, as the element listens to them in [render] and
    [renderPrompts]. *)
Definition dispatchPromptChange (pc : PromptController) : list Event :=
  [PromptChanged
     (mkPrompt (ctlPromptId pc) (ctlColor pc) (ctlText pc) (ctlWeight pc))].

(** [trim] is [String.prototype.trim]. The [textContent] of an element is
    a string, so the test for [undefined] never holds. *)
Definition updateText (trim : string → string) (pc : PromptController)
    : PromptController * list Event :=
  let newText := trim (textContent pc) in
  if String.eqb newText "" then
    (mkPromptController (ctlPromptId pc) (ctlText pc) (ctlWeight pc)
       (ctlColor pc) (ctlText pc),
     [])
  else
    let pc' :=
      mkPromptController (ctlPromptId pc) newText (ctlWeight pc) (ctlColor pc)
        (textContent pc) in
    (pc', dispatchPromptChange pc').

(** [blur()] on the span that has the focus fires its [blur] event, and so
    the listener [updateText], before it returns; [focused] tells whether
    the span has the focus. *)
Definition handleTextKeyDown (trim : string → string) (key : string)
    (focused : bool) (pc : PromptController) : PromptController * list Event :=
  if String.eqb key "Enter" then
    let r := updateText trim pc in
    if focused then
      let r' := updateText trim r.1 in
      (r'.1, r.2 ++ r'.2)
    else r
  else (pc, []).

Definition updateWeight (weightInput : WeightSlider) (pc : PromptController)
    : PromptController * list Event :=
  let pc' :=
    mkPromptController (ctlPromptId pc) (ctlText pc) (sliderValue weightInput)
      (ctlColor pc) (textContent pc) in
  (pc', dispatchPromptChange pc').

Definition dispatchPromptRemoved (pc : PromptController)
    : PromptController * list Event :=
  (pc, [PromptRemoved (ctlPromptId pc)]).

(** The events of a controller; [content] is what the span holds when the
    event arrives. *)
Inductive ControllerEvent :=
  | TextKeyDown (key content : string) (focused : bool)
  | TextBlur (content : string)
  | WeightInput (weightInput : WeightSlider)
  | RemoveClick.

Definition withTextContent (content : string) (pc : PromptController)
    : PromptController :=
  mkPromptController (ctlPromptId pc) (ctlText pc) (ctlWeight pc) (ctlColor pc)
    content.

Definition controllerHandler (trim : string → string) (ev : ControllerEvent)
    (pc : PromptController) : PromptController * list Event :=
  match ev with
  | TextKeyDown key content focused =>
      handleTextKeyDown trim key focused (withTextContent content pc)
  | TextBlur content => updateText trim (withTextContent content pc)
  | WeightInput weightInput => updateWeight weightInput pc
  | RemoveClick => dispatchPromptRemoved pc
  end.

Fixpoint controllerRun (trim : string → string) (evs : list ControllerEvent)
    (pc : PromptController) : PromptController * list Event :=
  match evs with
  | [] => (pc, [])
  | ev :: rest =>
      let r := controllerHandler trim ev pc in
      let r' := controllerRun trim rest r.1 in
      (r'.1, r.2 ++ r'.2)
  end.

(** [ev] is an event of the prompt of [pc], and carries a text if it
    carries one at all. *)
Definition fromController (pc : PromptController) (ev : Event) : Prop :=
  match ev with
  | PromptChanged detail =>
      promptId detail = ctlPromptId pc ∧ color detail = ctlColor pc ∧
      text detail ≠ ""
  | PromptRemoved i => i = ctlPromptId pc
  | _ => False
  end.

(** What the controller keeps: its id, its color, and a text. *)
Definition sameController (pc pc' : PromptController) : Prop :=
  ctlPromptId pc' = ctlPromptId pc ∧ ctlColor pc' = ctlColor pc ∧
  ctlText pc' ≠ "".

(** ** SettingsController *)

Record SettingsController := mkSettingsController {
  config : LiveMusicGenerationConfig;
  autoDensity : bool;
  lastDefinedDensity : option Q;
  autoBrightness : bool;
  lastDefinedBrightness : option Q
}.

(** The field initialisers of the controller. *)
Definition newSettingsController : SettingsController :=
  mkSettingsController defaultConfig true (Some (1 # 2)%Q) true (Some (1 # 2)%Q).

(** The inputs of [render], by type: the [id] of the element and what
    [handleInputChange] reads from it. *)
Inductive RangeId := IdTemperature | IdGuidance | IdTopK | IdDensity | IdBrightness.
Inductive NumberId := IdSeed | IdBpm.
Inductive CheckboxId :=
  | IdAutoDensity | IdAutoBrightness | IdMuteBass | IdMuteDrums | IdOnlyBassAndDrums.

Inductive InputTarget :=
  | RangeTarget (id : RangeId) (value : Q)              (* Number(target.value) *)
  | NumberTarget (id : NumberId) (value : option Q)     (* None: the empty string *)
  | CheckboxTarget (id : CheckboxId) (checked : bool)
  | ScaleTarget (disabled : bool) (value : string).     (* the select, id scale *)

Definition withDensity (v : option Q) (c : LiveMusicGenerationConfig)
    : LiveMusicGenerationConfig :=
  mkConfig (temperature c) (topK c) (guidance c) (seed c) (bpm c) v
    (brightness c) (scale c) (muteBass c) (muteDrums c) (onlyBassAndDrums c).

Definition withBrightness (v : option Q) (c : LiveMusicGenerationConfig)
    : LiveMusicGenerationConfig :=
  mkConfig (temperature c) (topK c) (guidance c) (seed c) (bpm c) (density c)
    v (scale c) (muteBass c) (muteDrums c) (onlyBassAndDrums c).

(** [x ?? 0.5] *)
Definition orHalf (x : option Q) : Q :=
  match x with Some v => v | None => (1 # 2)%Q end.

(** [handleInputChange]: the controller after the event and the detail of
    the [settings-changed] event it dispatches. *)
Definition handleInputChange (target : InputTarget) (c : SettingsController)
    : SettingsController * LiveMusicGenerationConfig :=
  let cfg := config c in
  let c' :=
    match target with
    | CheckboxTarget IdAutoDensity checked =>
        mkSettingsController
          (withDensity (if checked then None
                        else Some (orHalf (lastDefinedDensity c))) cfg)
          checked (lastDefinedDensity c)
          (autoBrightness c) (lastDefinedBrightness c)
    | CheckboxTarget IdAutoBrightness checked =>
        mkSettingsController
          (withBrightness (if checked then None
                           else Some (orHalf (lastDefinedBrightness c))) cfg)
          (autoDensity c) (lastDefinedDensity c)
          checked (lastDefinedBrightness c)
    | CheckboxTarget IdMuteBass checked =>
        mkSettingsController
          (mkConfig (temperature cfg) (topK cfg) (guidance cfg) (seed cfg)
             (bpm cfg) (density cfg) (brightness cfg) (scale cfg)
             (Some checked) (muteDrums cfg) (onlyBassAndDrums cfg))
          (autoDensity c) (lastDefinedDensity c)
          (autoBrightness c) (lastDefinedBrightness c)
    | CheckboxTarget IdMuteDrums checked =>
        mkSettingsController
          (mkConfig (temperature cfg) (topK cfg) (guidance cfg) (seed cfg)
             (bpm cfg) (density cfg) (brightness cfg) (scale cfg)
             (muteBass cfg) (Some checked) (onlyBassAndDrums cfg))
          (autoDensity c) (lastDefinedDensity c)
          (autoBrightness c) (lastDefinedBrightness c)
    | CheckboxTarget IdOnlyBassAndDrums checked =>
        mkSettingsController
          (mkConfig (temperature cfg) (topK cfg) (guidance cfg) (seed cfg)
             (bpm cfg) (density cfg) (brightness cfg) (scale cfg)
             (muteBass cfg) (muteDrums cfg) (Some checked))
          (autoDensity c) (lastDefinedDensity c)
          (autoBrightness c) (lastDefinedBrightness c)
    | RangeTarget IdTemperature value =>
        mkSettingsController
          (mkConfig (Some value) (topK cfg) (guidance cfg) (seed cfg)
             (bpm cfg) (density cfg) (brightness cfg) (scale cfg)
             (muteBass cfg) (muteDrums cfg) (onlyBassAndDrums cfg))
          (autoDensity c) (lastDefinedDensity c)
          (autoBrightness c) (lastDefinedBrightness c)
    | RangeTarget IdGuidance value =>
        mkSettingsController
          (mkConfig (temperature cfg) (topK cfg) (Some value) (seed cfg)
             (bpm cfg) (density cfg) (brightness cfg) (scale cfg)
             (muteBass cfg) (muteDrums cfg) (onlyBassAndDrums cfg))
          (autoDensity c) (lastDefinedDensity c)
          (autoBrightness c) (lastDefinedBrightness c)
    | RangeTarget IdTopK value =>
        mkSettingsController
          (mkConfig (temperature cfg) (Some value) (guidance cfg) (seed cfg)
             (bpm cfg) (density cfg) (brightness cfg) (scale cfg)
             (muteBass cfg) (muteDrums cfg) (onlyBassAndDrums cfg))
          (autoDensity c) (lastDefinedDensity c)
          (autoBrightness c) (lastDefinedBrightness c)
    | RangeTarget IdDensity value =>
        mkSettingsController (withDensity (Some value) cfg)
          (autoDensity c) (Some value)
          (autoBrightness c) (lastDefinedBrightness c)
    | RangeTarget IdBrightness value =>
        mkSettingsController (withBrightness (Some value) cfg)
          (autoDensity c) (lastDefinedDensity c)
          (autoBrightness c) (Some value)
    | NumberTarget IdSeed value =>
        mkSettingsController
          (mkConfig (temperature cfg) (topK cfg) (guidance cfg) value
             (bpm cfg) (density cfg) (brightness cfg) (scale cfg)
             (muteBass cfg) (muteDrums cfg) (onlyBassAndDrums cfg))
          (autoDensity c) (lastDefinedDensity c)
          (autoBrightness c) (lastDefinedBrightness c)
    | NumberTarget IdBpm value =>
        mkSettingsController
          (mkConfig (temperature cfg) (topK cfg) (guidance cfg) (seed cfg)
             value (density cfg) (brightness cfg) (scale cfg)
             (muteBass cfg) (muteDrums cfg) (onlyBassAndDrums cfg))
          (autoDensity c) (lastDefinedDensity c)
          (autoBrightness c) (lastDefinedBrightness c)
    | ScaleTarget disabled value =>
        mkSettingsController
          (mkConfig (temperature cfg) (topK cfg) (guidance cfg) (seed cfg)
             (bpm cfg) (density cfg) (brightness cfg)
             (if disabled then None else Some value)
             (muteBass cfg) (muteDrums cfg) (onlyBassAndDrums cfg))
          (autoDensity c) (lastDefinedDensity c)
          (autoBrightness c) (lastDefinedBrightness c)
    end in
  (c', config c').

(** [resetToDefaults] *)
Definition resetToDefaults (c : SettingsController)
    : SettingsController * LiveMusicGenerationConfig :=
  let cfg := withBrightness None (withDensity None defaultConfig) in
  (mkSettingsController cfg true (Some (1 # 2)%Q) true (Some (1 # 2)%Q), cfg).

(** [SettingsController.firstUpdated] *)
Definition settingsFirstUpdated (c : SettingsController)
    : SettingsController * LiveMusicGenerationConfig :=
  let cfg :=
    withBrightness
      (if autoBrightness c then None
       else Some (orHalf (lastDefinedBrightness c)))
      (withDensity
         (if autoDensity c then None else Some (orHalf (lastDefinedDensity c)))
         (config c)) in
  (mkSettingsController cfg (autoDensity c) (lastDefinedDensity c)
     (autoBrightness c) (lastDefinedBrightness c),
   cfg).

Definition settingsRun (targets : list InputTarget) (c : SettingsController)
    : SettingsController :=
  fold_left (λ c target, (handleInputChange target c).1) targets c.

Definition notDensityInput (target : InputTarget) : Prop :=
  match target with
  | RangeTarget IdDensity _ => False
  | _ => True
  end.

(** ** ToastMessage *)

Record ToastMessage := mkToastMessage { message : string; showing : bool }.

Definition hide (t : ToastMessage) : ToastMessage :=
  mkToastMessage (message t) false.

(** [show]: the toast, and the message captured by the callback it hands to
    [setTimeout] with a delay of 6000 ms. *)
Definition show (m : string) (t : ToastMessage) : ToastMessage * (string * Z) :=
  (mkToastMessage m true, (m, 6000)).

(** The callback of that timer. *)
Definition hideIfStill (m : string) (t : ToastMessage) : ToastMessage :=
  if showing t && String.eqb (message t) m then hide t else t.

(** ** The reconnection *)

(** The part of [connectToSession] that follows the liveness probe, from the
    close of the session there is to the end of the function. *)
Definition reconnect (env : Env) : M unit :=
  old ← gets session;
  match old with
  | Some s =>
      emit (SessionClose s) ;;
      when (closeThrows env)
        (emit (Console Warn "Error closing existing session:"))
  | None => ret tt
  end ;;
  modify (set_playbackState loading) ;;
  try_catch
    (emit Connect ;;
     match connectResult env with
     | None => throw "connect"
     | Some s =>
         modify (set_session (Some s)) ;;
         modify (set_connectionError false) ;;
         setSessionPrompts env ;;
         sc ← gets settingsController;
         match sc with
         | Some currentSettings =>
             call (SessionSetMusicGenerationConfig s currentSettings)
               (setMusicGenerationConfigThrows env)
         | None => ret tt
         end
     end)
    (λ _,
       emit (Console Error "Failed to connect to session:") ;;
       modify (set_connectionError true) ;;
       modify (set_playbackState stopped) ;;
       toastShow "Couldn't start the music magic. Is your internet okay?").

(** What [reconnect] logs for the close of the session there is. *)
Definition closeLog (env : Env) (st : PromptDj) : list Effect :=
  match session st with
  | Some s =>
      SessionClose s ::
      (if closeThrows env
       then [Console Warn "Error closing existing session:"] else [])
  | None => []
  end.

(** What the [catch] block of [connectToSession] logs. *)
Definition connectFailureLog : list Effect :=
  [Console Error "Failed to connect to session:";
   ToastShow "Couldn't start the music magic. Is your internet okay?"].

(** ** Invariants of the element *)





(** Keys are distinct and each entry is filed under its own [promptId]. *)
Definition wellKeyed (m : list (string * Prompt)) : Prop :=
  NoDup (map fst m) ∧ Forall (λ kv, promptId kv.2 = kv.1) m.

(** [Math.random()] lies in [0, 1). *)
Definition unitRandom (x : Event * Env) : Prop :=
  (0 <= random x.2)%Q ∧ (random x.2 < 1)%Q.

(** [m] leaves a property [I] of the element in place. *)
Definition preserves {A} (I : PromptDj → Prop) (m : M A) : Prop :=
  ∀ st, I st → I (stateOf (m st)).

(** The element once constructed on the prompts [ps]: the field
    initialisers, [nextPromptId = prompts.size], and the audio context that
    [initializeAudioContext] has or has not created. [sc] is the config of
    the settings controller of the page. *)
Definition newPromptDj (ps : list (string * Prompt))
    (ctx : option AudioContextState) (sc : option LiveMusicGenerationConfig)
    : PromptDj :=
  mkPromptDj ps (length ps) None ctx 0%Q stopped ∅ true sc 0 0.

(** The ids of the map are of the form [prompt-n] with [n] below the
    counter, as in the map that [getStoredPrompts] builds when nothing is
    stored; the map is well keyed and holds at most 8 prompts. *)
Definition tidy (st : PromptDj) : Prop :=
  wellKeyed (prompts st) ∧
  (length (prompts st) ≤ 8)%nat ∧
  Forall (λ k, ∃ n, (n < nextPromptId st)%nat ∧ k = "prompt-" +:+ pretty n)
    (map fst (prompts st)).

(** The prompt map and the id counter of [st] are those of [st0]. *)
Definition sameMap (st0 st : PromptDj) : Prop :=
  prompts st = prompts st0 ∧ nextPromptId st = nextPromptId st0.

(** The events of the add button and of the prompt controllers. *)
Definition isEdit (ev : Event) : bool :=
  match ev with
  | AddPromptClick | PromptChanged _ | PromptRemoved _ => true
  | _ => false
  end.

Definition notEdit (x : Event * Env) : Prop := isEdit x.1 = false.

(** The keys of a map of [n] prompts built as in [getStoredPrompts]. *)
Definition defaultKeys (n : nat) : list string :=
  map (λ i : nat, "prompt-" +:+ pretty i) (seq 0 n).

Definition isSessionCall (e : Effect) : bool :=
  match e with
  | Connect | SessionClose _ | SessionSetWeightedPrompts _ _
  | SessionSetMusicGenerationConfig _ _ | SessionPlay _ | SessionPause _
  | SessionResetContext _ => true
  | _ => false
  end.

Definition toasts (l : list Effect) : list string :=
  omap (λ e, match e with ToastShow m => Some m | _ => None end) l.

(** ** Sample elements and environments *)

Definition samplePrompts : list (string * Prompt) :=
  [("prompt-0", mkPrompt "prompt-0" "#FF6384" "Sleepy Lullaby" 1%Q);
   ("prompt-1", mkPrompt "prompt-1" "#FFCD56" "Dancing Robots" 0%Q);
   ("prompt-2", mkPrompt "prompt-2" "#4BC0C0" "Bouncing Bunnies" (3 # 2)%Q)].

(** Playing on a healthy session, horizon at 5 s. *)
Definition samplePlaying : PromptDj :=
  mkPromptDj samplePrompts 3 (Some (mkSession 1)) (Some running) 5%Q playing
    ∅ false (Some defaultConfig) 0 0.

(** Paused after a connection error. *)
Definition samplePausedBroken : PromptDj :=
  mkPromptDj samplePrompts 3 (Some (mkSession 1)) (Some running) 0%Q paused
    ∅ true (Some defaultConfig) 0 0.

(** Device time 7 s, wall clock 1000 ms, every call succeeds, buffers of
    half a second. *)
Definition sampleEnv : Env :=
  mkEnv 1000 7%Q (Some running) false (Some (mkSession 2)) false false
    None None None false None (Some (1 # 2)%Q) (1 # 4)%Q.

Definition envAt (now : Q) : Env :=
  mkEnv 1000 now (Some running) false (Some (mkSession 2)) false false
    None None None false None (Some (1 # 2)%Q) (1 # 4)%Q.

(** The connection attempt throws. *)
Definition sampleEnvOffline : Env :=
  mkEnv 1000 7%Q (Some running) false None false false
    None None None false None (Some (1 # 2)%Q) (1 # 4)%Q.

(** Both control pushes throw. *)
Definition sampleEnvSendFails : Env :=
  mkEnv 1000 7%Q (Some running) false (Some (mkSession 2)) false false
    (Some "closed") (Some "closed") None false None (Some (1 # 2)%Q) (1 # 4)%Q.

Definition audioMessage : LiveMusicServerMessage :=
  mkMessage false None (Some [mkAudioChunk "UklGRg=="]).

Definition filteredMessage (T : string) : LiveMusicServerMessage :=
  mkMessage false (Some (mkFilteredPrompt T (Some "unsafe"))) None.

(** The weight of the first prompt is raised to 2, then that of the third
    lowered to 1, half a second apart. *)
Definition sampleEdits : list (Event * Env) :=
  [(PromptChanged (mkPrompt "prompt-0" "#FF6384" "Sleepy Lullaby" 2%Q), envAt 1);
   (PromptChanged (mkPrompt "prompt-2" "#4BC0C0" "Bouncing Bunnies" 1%Q),
    mkEnv 1500 (3 # 2)%Q (Some running) false (Some (mkSession 2)) false false
      None None None false None (Some (1 # 2)%Q) (1 # 4)%Q)].

Definition sampleController : PromptController :=
  mkPromptController "prompt-0" "Sleepy Lullaby" 1%Q "#FF6384" "Sleepy Lullaby".


Definition eightPrompts : list (string * Prompt) :=
  map (λ n : nat, let k := "prompt-" +:+ pretty n in
                  (k, mkPrompt k "#FF6384" "New Song Idea!" 0%Q))
      (seq 0 8).

Definition sampleFull : PromptDj := set_prompts eightPrompts samplePlaying.

(** ** Tactics and basic facts *)

Ltac run_monad :=
  repeat (unfold mbind, M_bind, bind, ret, gets, modify, emit, when, call,
            throw, try_catch, toastShow, stateOf, effectsOf, outcomeOf in *;
          simpl in * ).

Lemma Qltb_lt x y : Qltb x y = true ↔ (x < y)%Q.
Proof.
  unfold Qltb. rewrite negb_true_iff. split.
  - intros H. apply Qnot_le_lt. intros Hle.
    apply Qle_bool_iff in Hle. congruence.
  - intros H. destruct (Qle_bool y x) eqn:E; [|reflexivity].
    apply Qle_bool_iff in E. lra.
Qed.

Lemma Qltb_ge x y : Qltb x y = false ↔ (y <= x)%Q.
Proof.
  destruct (Qltb x y) eqn:E.
  - apply Qltb_lt in E. split; [discriminate | lra].
  - split; [|reflexivity]. intros _.
    destruct (Qlt_le_dec x y) as [H|H]; [|exact H].
    apply Qltb_lt in H. congruence.
Qed.

Lemma Qis_eq x y : Qis x y = true ↔ (x == y)%Q.
Proof. unfold Qis. apply Qeq_bool_iff. Qed.

Lemma Qis_neq x y : Qis x y = false ↔ ¬ (x == y)%Q.
Proof.
  rewrite <- Qis_eq. destruct (Qis x y); split; congruence.
Qed.

Lemma scheduled_app l1 l2 : scheduled (l1 ++ l2) = scheduled l1 ++ scheduled l2.
Proof.
  induction l1 as [|e l1 IH]; [reflexivity|].
  destruct e; simpl; rewrite ?IH; reflexivity.
Qed.

Lemma pushes_app l1 l2 : pushes (l1 ++ l2) = pushes l1 ++ pushes l2.
Proof.
  induction l1 as [|e l1 IH]; [reflexivity|].
  destruct e; simpl; rewrite ?IH; reflexivity.
Qed.

Lemma scheduled_dispatchedLog e : scheduled (dispatchedLog e) = [].
Proof. unfold dispatchedLog. destruct (filteredPrompt e); reflexivity. Qed.

Lemma dispatched_playbackState e st :
  playbackState (dispatched e st) = playbackState st.
Proof. unfold dispatched. destruct (setupComplete e), (filteredPrompt e); reflexivity. Qed.

Lemma dispatched_nextStartTime e st :
  nextStartTime (dispatched e st) = nextStartTime st.
Proof. unfold dispatched. destruct (setupComplete e), (filteredPrompt e); reflexivity. Qed.

Lemma dispatched_audioContext e st :
  audioContext (dispatched e st) = audioContext st.
Proof. unfold dispatched. destruct (setupComplete e), (filteredPrompt e); reflexivity. Qed.

(** [onmessage] is its dispatch of the first two signals followed by the
    audio part. *)
Lemma onmessage_audio e env st chunks :
  audioChunks e = Some chunks →
  onmessage e env st =
    let r := onAudioChunks chunks env (dispatched e st) in
    (outcomeOf r, stateOf r, dispatchedLog e ++ effectsOf r).
Proof.
  intros Hc. unfold onmessage, dispatched, dispatchedLog. rewrite Hc.
  run_monad.
  destruct (setupComplete e), (filteredPrompt e); simpl;
    match goal with
    | |- context [onAudioChunks chunks env ?s] =>
        destruct (onAudioChunks chunks env s) as [[[]]]; reflexivity
    end.
Qed.

(** ** The audio scheduler *)

Section Accepted.
Variables (chunk : AudioChunk) (rest : list AudioChunk).
Variables (env : Env) (st : PromptDj) (ctx : AudioContextState) (d : Q).
Hypothesis Hwanted : playbackState st = loading ∨ playbackState st = playing.
Hypothesis Hctx : audioContext st = Some ctx.
Hypothesis Hopen : ctx ≠ closed.
Hypothesis Hdecoded : decodedDuration env = Some d.

Ltac enter :=
  unfold onAudioChunks; run_monad;
  destruct Hwanted as [-> | ->]; simpl; rewrite Hctx;
  destruct ctx; try done; simpl; rewrite Hdecoded; simpl.

(** First buffer of a timeline. *)
Lemma onAudioChunks_first :
  (nextStartTime st == 0)%Q →
  onAudioChunks (chunk :: rest) env st =
    (Done tt,
     set_nextStartTime (currentTime env + bufferTime + d)%Q st,
     [DecodeAudioData (data chunk);
      SetTimeout PromoteToPlaying 2000;
      SourceStart (currentTime env + bufferTime)%Q d]).
Proof.
  intros Hz. apply Qis_eq in Hz.
  assert (Hge : Qltb (currentTime env + bufferTime) (currentTime env) = false).
  { apply Qltb_ge. unfold bufferTime. lra. }
  enter; rewrite Hz; simpl; rewrite Hge; reflexivity.
Qed.

(** Under-run. *)
Lemma onAudioChunks_underrun :
  ¬ (nextStartTime st == 0)%Q →
  (nextStartTime st < currentTime env)%Q →
  onAudioChunks (chunk :: rest) env st =
    (Done tt,
     set_nextStartTime (currentTime env + bufferTime + d)%Q
       (set_playbackState loading st),
     [DecodeAudioData (data chunk);
      Console Warn underrunWarning;
      SourceStart (currentTime env + bufferTime)%Q d]).
Proof.
  intros Hz Hlt. apply Qis_neq in Hz. apply Qltb_lt in Hlt.
  enter; rewrite Hz; simpl; rewrite Hlt; reflexivity.
Qed.

(** The normal rule. *)
Lemma onAudioChunks_normal :
  ¬ (nextStartTime st == 0)%Q →
  (currentTime env <= nextStartTime st)%Q →
  onAudioChunks (chunk :: rest) env st =
    (Done tt,
     set_nextStartTime (nextStartTime st + d)%Q st,
     [DecodeAudioData (data chunk);
      SourceStart (nextStartTime st) d]).
Proof.
  intros Hz Hge. apply Qis_neq in Hz. apply Qltb_ge in Hge.
  enter; rewrite Hz; simpl; rewrite Hge; reflexivity.
Qed.
End Accepted.

Lemma onAudioChunks_dropped chunks env st :
  playbackState st = paused ∨ playbackState st = stopped →
  onAudioChunks chunks env st = (Done tt, st, []).
Proof.
  intros [H | H]; unfold onAudioChunks; run_monad; rewrite H; reflexivity.
Qed.

(** C1. Under-run: a chunk accepted while [loading] or [playing], with a
    horizon [nextStartTime] that is not zero and lies strictly before the
    device time, puts the element in [loading], logs the under-run, hands
    the decoded buffer to [source.start] at device time plus [bufferTime]
    (and at no other time), and leaves the horizon at that start plus the
    duration of the buffer. *)
Theorem underrun_rearms_horizon
    (e : LiveMusicServerMessage) (env : Env) (st : PromptDj)
    (chunk : AudioChunk) (rest : list AudioChunk)
    (ctx : AudioContextState) (d : Q) :
  playbackState st = loading ∨ playbackState st = playing →
  audioContext st = Some ctx → ctx ≠ closed →
  audioChunks e = Some (chunk :: rest) →
  decodedDuration env = Some d →
  ¬ (nextStartTime st == 0)%Q →
  (nextStartTime st < currentTime env)%Q →
  let r := onmessage e env st in
  playbackState (stateOf r) = loading ∧
  scheduled (effectsOf r) = [((currentTime env + bufferTime)%Q, d)] ∧
  nextStartTime (stateOf r) = (currentTime env + bufferTime + d)%Q ∧
  existsb isUnderrun (effectsOf r) = true.
Proof.
  intros Hw Hctx Hopen Hc Hd Hz Hlt r. subst r.
  rewrite (onmessage_audio _ _ _ _ Hc).
  rewrite (onAudioChunks_underrun chunk rest env (dispatched e st) ctx d).
  - cbn [stateOf effectsOf outcomeOf fst snd].
    rewrite scheduled_app, scheduled_dispatchedLog, existsb_app.
    repeat split; try reflexivity.
    apply orb_true_iff. right. reflexivity.
  - rewrite dispatched_playbackState. exact Hw.
  - rewrite dispatched_audioContext. exact Hctx.
  - exact Hopen.
  - exact Hd.
  - rewrite dispatched_nextStartTime. exact Hz.
  - rewrite dispatched_nextStartTime. exact Hlt.
Qed.

Lemma underrun_rearms_horizon_witness :
  let r := onmessage audioMessage sampleEnv samplePlaying in
  playbackState (stateOf r) = loading ∧
  scheduled (effectsOf r) = [((7 + bufferTime)%Q, (1 # 2)%Q)] ∧
  nextStartTime (stateOf r) = (7 + bufferTime + (1 # 2))%Q ∧
  existsb isUnderrun (effectsOf r) = true.
Proof.
  apply (underrun_rearms_horizon audioMessage sampleEnv samplePlaying
           (mkAudioChunk "UklGRg==") [] running (1 # 2)%Q).
  - right. reflexivity.
  - reflexivity.
  - discriminate.
  - reflexivity.
  - reflexivity.
  - intros H. vm_compute in H. discriminate H.
  - reflexivity.
Defined.

(** C3. First buffer of a timeline: a chunk accepted with [nextStartTime]
    equal to zero is handed to [source.start] at device time plus
    [bufferTime], and one timer of [bufferTime] seconds (2000 ms) is armed;
    when that timer fires, the element goes to [playing] if it is
    [loading] at that moment and is left as it is otherwise. *)
Theorem first_buffer_lookahead
    (e : LiveMusicServerMessage) (env : Env) (st : PromptDj)
    (chunk : AudioChunk) (rest : list AudioChunk)
    (ctx : AudioContextState) (d : Q) :
  playbackState st = loading ∨ playbackState st = playing →
  audioContext st = Some ctx → ctx ≠ closed →
  audioChunks e = Some (chunk :: rest) →
  decodedDuration env = Some d →
  (nextStartTime st == 0)%Q →
  let r := onmessage e env st in
  scheduled (effectsOf r) = [((currentTime env + bufferTime)%Q, d)] ∧
  (∀ cb ms, SetTimeout cb ms ∈ effectsOf r ↔
            cb = PromoteToPlaying ∧ ms = 2000 ∧ inject_Z ms == bufferTime * 1000) ∧
  playbackState (stateOf r) = playbackState st ∧
  nextStartTime (stateOf r) = (currentTime env + bufferTime + d)%Q ∧
  ∀ env' st',
    let r' := handler (TimerFired PromoteToPlaying) env' st' in
    effectsOf r' = [] ∧
    (playbackState st' = loading → stateOf r' = set_playbackState playing st') ∧
    (playbackState st' ≠ loading → stateOf r' = st').
Proof.
  intros Hw Hctx Hopen Hc Hd Hz r. subst r.
  rewrite (onmessage_audio _ _ _ _ Hc).
  rewrite (onAudioChunks_first chunk rest env (dispatched e st) ctx d);
    rewrite ?dispatched_playbackState, ?dispatched_audioContext,
      ?dispatched_nextStartTime; try assumption.
  cbn [stateOf effectsOf outcomeOf fst snd].
  rewrite scheduled_app, scheduled_dispatchedLog.
  split; [reflexivity|]. split; [|split; [|split]].
  - intros cb ms. rewrite elem_of_app, !list_elem_of_In. unfold dispatchedLog.
    split.
    + intros [H | H].
      * destruct (filteredPrompt e); simpl in H; intuition discriminate.
      * simpl in H. destruct H as [H | [H | [H | []]]]; try discriminate H.
        injection H as <- <-. repeat split; reflexivity.
    + intros (-> & -> & _). right. simpl. tauto.
  - simpl. apply dispatched_playbackState.
  - reflexivity.
  - intros env' st'. simpl. unfold promoteToPlaying. run_monad.
    destruct (playbackState st') eqn:E; simpl; repeat split; try done;
      intros _; destruct st'; simpl in *; subst; reflexivity.
Qed.

Lemma first_buffer_lookahead_witness :
  let st := set_nextStartTime 0%Q (set_playbackState loading samplePlaying) in
  let r := onmessage audioMessage sampleEnv st in
  scheduled (effectsOf r) = [((7 + bufferTime)%Q, (1 # 2)%Q)] ∧
  playbackState (stateOf r) = loading ∧
  playbackState
    (stateOf (handler (TimerFired PromoteToPlaying) sampleEnv (stateOf r)))
    = playing.
Proof.
  intros st r.
  destruct (first_buffer_lookahead audioMessage sampleEnv st
              (mkAudioChunk "UklGRg==") [] running (1 # 2)%Q)
    as (Hs & _ & Hp & _ & Ht).
  - left. reflexivity.
  - reflexivity.
  - discriminate.
  - reflexivity.
  - reflexivity.
  - reflexivity.
  - split; [exact Hs|]. split; [exact Hp|].
    destruct (Ht sampleEnv (stateOf r)) as (_ & Hl & _).
    rewrite Hl; [reflexivity | exact Hp].
Defined.

(** C4. A message that carries audio chunks while the element is [paused]
    or [stopped]: nothing is decoded, nothing is handed to [source.start],
    and [nextStartTime] and [playbackState] are as before. Conversely a
    message makes [onmessage] decode or schedule only if the element is
    [loading] or [playing]. *)
Theorem chunks_dropped_unless_wanted
    (e : LiveMusicServerMessage) (env : Env) (st : PromptDj)
    (chunks : list AudioChunk) :
  audioChunks e = Some chunks →
  let r := onmessage e env st in
  (playbackState st = paused ∨ playbackState st = stopped →
     existsb isDecode (effectsOf r) = false ∧
     scheduled (effectsOf r) = [] ∧
     nextStartTime (stateOf r) = nextStartTime st ∧
     playbackState (stateOf r) = playbackState st ∧
     outcomeOf r = Done tt) ∧
  (existsb isDecode (effectsOf r) = true ∨ scheduled (effectsOf r) ≠ [] →
     playbackState st = loading ∨ playbackState st = playing).
Proof.
  intros Hc r.
  assert (Hdrop : playbackState st = paused ∨ playbackState st = stopped →
     existsb isDecode (effectsOf r) = false ∧
     scheduled (effectsOf r) = [] ∧
     nextStartTime (stateOf r) = nextStartTime st ∧
     playbackState (stateOf r) = playbackState st ∧
     outcomeOf r = Done tt).
  { intros Hps. subst r. rewrite (onmessage_audio _ _ _ _ Hc).
    rewrite onAudioChunks_dropped by (rewrite dispatched_playbackState; exact Hps).
    cbn [stateOf effectsOf outcomeOf fst snd].
    rewrite app_nil_r, scheduled_dispatchedLog, dispatched_nextStartTime,
      dispatched_playbackState.
    repeat split. unfold dispatchedLog. destruct (filteredPrompt e); reflexivity. }
  split; [exact Hdrop|].
  intros Hused.
  destruct (playbackState st) eqn:Eps; [|right; reflexivity|left; reflexivity|].
  - destruct Hdrop as (Hd & Hs & _); [right; reflexivity|].
    destruct Hused as [Hu | Hu]; congruence.
  - destruct Hdrop as (Hd & Hs & _); [left; reflexivity|].
    destruct Hused as [Hu | Hu]; congruence.
Qed.

Lemma chunks_dropped_unless_wanted_witness :
  let st := set_nextStartTime 0%Q (set_playbackState paused samplePlaying) in
  let r := onmessage audioMessage sampleEnv st in
  existsb isDecode (effectsOf r) = false ∧
  scheduled (effectsOf r) = [] ∧
  nextStartTime (stateOf r) = 0%Q ∧
  playbackState (stateOf r) = paused.
Proof.
  intros st r.
  destruct (chunks_dropped_unless_wanted audioMessage sampleEnv st
              [mkAudioChunk "UklGRg=="]) as [H _].
  - reflexivity.
  - destruct H as (H1 & H2 & H3 & H4 & _); [left; reflexivity|].
    repeat split; assumption.
Defined.

(** ** A run of accepted chunks *)

Lemma underrun_dispatchedLog e : existsb isUnderrun (dispatchedLog e) = false.
Proof. unfold dispatchedLog. destruct (filteredPrompt e); reflexivity. Qed.

(** One accepted chunk while [playing], without under-run. *)
Lemma playing_step e env st ctx :
  playbackState st = playing →
  audioContext st = Some ctx → ctx ≠ closed →
  carriesBuffer (e, env) →
  existsb isUnderrun (effectsOf (onmessage e env st)) = false →
  ∃ t d,
    scheduled (effectsOf (onmessage e env st)) = [(t, d)] ∧
    (0 < t)%Q ∧ (0 < d)%Q ∧
    nextStartTime (stateOf (onmessage e env st)) = (t + d)%Q ∧
    playbackState (stateOf (onmessage e env st)) = playing ∧
    audioContext (stateOf (onmessage e env st)) = Some ctx ∧
    (¬ (nextStartTime st == 0)%Q → t = nextStartTime st).
Proof.
  intros Hp Hctx Hopen (chunk & rest & d & Hc & Hd & Hpos & Hnow) Hno.
  simpl in Hc, Hd, Hnow.
  rewrite (onmessage_audio _ _ _ _ Hc) in *.
  pose proof (dispatched_playbackState e st) as Ep.
  pose proof (dispatched_audioContext e st) as Ec.
  pose proof (dispatched_nextStartTime e st) as Et.
  assert (Hw : playbackState (dispatched e st) = loading ∨
               playbackState (dispatched e st) = playing)
    by (right; congruence).
  assert (Hctx' : audioContext (dispatched e st) = Some ctx) by congruence.
  destruct (Qeq_dec (nextStartTime st) 0) as [Hz | Hz].
  - rewrite (onAudioChunks_first chunk rest env _ ctx d Hw Hctx' Hopen Hd)
      in * by (rewrite Et; exact Hz).
    cbn [stateOf effectsOf outcomeOf fst snd] in *.
    rewrite scheduled_app, scheduled_dispatchedLog.
    exists (currentTime env + bufferTime)%Q, d.
    split; [reflexivity|]. split; [unfold bufferTime; lra|].
    split; [exact Hpos|]. split; [reflexivity|].
    split; [cbn; congruence|]. split; [cbn; congruence|].
    intros Hnz. contradiction.
  - destruct (Qlt_le_dec (nextStartTime st) (currentTime env)) as [Hlt | Hge].
    + rewrite (onAudioChunks_underrun chunk rest env _ ctx d Hw Hctx' Hopen Hd)
        in Hno by (rewrite Et; assumption).
      cbn [stateOf effectsOf outcomeOf fst snd] in Hno.
      rewrite existsb_app, underrun_dispatchedLog in Hno. discriminate Hno.
    + rewrite (onAudioChunks_normal chunk rest env _ ctx d Hw Hctx' Hopen Hd)
        in * by (rewrite Et; assumption).
      cbn [stateOf effectsOf outcomeOf fst snd] in *.
      rewrite scheduled_app, scheduled_dispatchedLog.
      exists (nextStartTime st), d. rewrite Et.
      split; [reflexivity|]. split.
      { destruct (Qlt_le_dec 0 (nextStartTime st)) as [H0 | H0]; [exact H0|].
        exfalso. apply Hz. lra. }
      split; [exact Hpos|]. split; [reflexivity|].
      split; [cbn; congruence|]. split; [cbn; congruence|].
      intros _. reflexivity.
Qed.

Lemma playing_run msgs : ∀ st ctx,
  playbackState st = playing →
  audioContext st = Some ctx → ctx ≠ closed →
  Forall carriesBuffer msgs →
  existsb isUnderrun (run (asEvents msgs) st).2 = false →
  ∃ t0,
    timeline t0 (scheduled (run (asEvents msgs) st).2) ∧
    (¬ (nextStartTime st == 0)%Q → t0 = nextStartTime st) ∧
    length (scheduled (run (asEvents msgs) st).2) = length msgs ∧
    playbackState (run (asEvents msgs) st).1 = playing ∧
    nextStartTime (run (asEvents msgs) st).1 =
      match last (scheduled (run (asEvents msgs) st).2) with
      | Some (t, d) => (t + d)%Q
      | None => nextStartTime st
      end.
Proof.
  induction msgs as [|[e env] msgs IH]; intros st ctx Hp Hctx Hopen Hall Hno.
  - exists (nextStartTime st). simpl. repeat split; auto.
  - apply Forall_cons in Hall as [Hm Hall].
    simpl in Hno |- *. rewrite existsb_app in Hno.
    apply orb_false_iff in Hno as [Hno1 Hno2].
    destruct (playing_step e env st ctx Hp Hctx Hopen Hm Hno1)
      as (t & d & Hs & Ht & Hd & Hn & Hp' & Hc' & Hfirst).
    destruct (IH _ ctx Hp' Hc' Hopen Hall Hno2)
      as (t0 & Htl & Ht0 & Hlen & Hpl & Hend).
    assert (Hnz : ¬ (nextStartTime (stateOf (onmessage e env st)) == 0)%Q)
      by (rewrite Hn; lra).
    specialize (Ht0 Hnz). subst t0. rewrite Hn in Htl.
    exists t. rewrite scheduled_app, Hs. simpl.
    repeat split; auto.
    rewrite Hend.
    destruct (scheduled (run (asEvents msgs) (stateOf (onmessage e env st))).2)
      as [|[t' d'] sched'] eqn:E.
    + simpl. exact Hn.
    + rewrite last_cons_cons.
      destruct (last ((t', d') :: sched')) as [[]|] eqn:El; [reflexivity|].
      apply last_None in El. discriminate El.
Qed.

Lemma timeline_consecutive sched : ∀ t n t1 d1 t2 d2,
  timeline t sched →
  sched !! n = Some (t1, d1) → sched !! S n = Some (t2, d2) →
  t2 = (t1 + d1)%Q ∧ (t1 < t2)%Q.
Proof.
  induction sched as [|[t' d'] sched IH]; intros t n t1 d1 t2 d2 Htl H1 H2.
  - discriminate H1.
  - destruct Htl as (-> & Hpos & Hd & Htl).
    destruct n as [|n].
    + simpl in H1. injection H1 as -> ->.
      destruct sched as [|[t'' d''] sched]; [discriminate H2|].
      simpl in H2. injection H2 as -> ->.
      destruct Htl as (-> & _). split; [reflexivity | lra].
    + simpl in H1, H2. exact (IH _ _ _ _ _ _ Htl H1 H2).
Qed.

(** C2. Chunks accepted one after the other while [playing], none of them
    logged as an under-run: every chunk is scheduled, the element stays
    [playing], the first buffer starts at the horizon the element had (when
    that horizon is not zero), every later buffer starts exactly where the
    one before it ends, [start (n+1) = start n + duration n], start times
    strictly increase, and the horizon left at the end is the end of the
    last buffer. *)
Theorem playing_schedule_contiguous
    (msgs : list (LiveMusicServerMessage * Env)) (st : PromptDj)
    (ctx : AudioContextState) :
  playbackState st = playing →
  audioContext st = Some ctx → ctx ≠ closed →
  Forall carriesBuffer msgs →
  existsb isUnderrun (run (asEvents msgs) st).2 = false →
  let sched := scheduled (run (asEvents msgs) st).2 in
  length sched = length msgs ∧
  playbackState (run (asEvents msgs) st).1 = playing ∧
  (∀ t0 d0, ¬ (nextStartTime st == 0)%Q →
            sched !! 0%nat = Some (t0, d0) → t0 = nextStartTime st) ∧
  (∀ n t1 d1 t2 d2,
     sched !! n = Some (t1, d1) → sched !! S n = Some (t2, d2) →
     t2 = (t1 + d1)%Q ∧ (t1 < t2)%Q) ∧
  (∀ t d, last sched = Some (t, d) →
          nextStartTime (run (asEvents msgs) st).1 = (t + d)%Q).
Proof.
  intros Hp Hctx Hopen Hall Hno sched.
  destruct (playing_run msgs st ctx Hp Hctx Hopen Hall Hno)
    as (t0 & Htl & Ht0 & Hlen & Hpl & Hend).
  fold sched in Htl, Hlen, Hend.
  split; [exact Hlen|]. split; [exact Hpl|]. split; [|split].
  - intros t0' d0 Hnz H0. rewrite <- (Ht0 Hnz).
    destruct sched as [|[t' d'] sched']; [discriminate H0|].
    simpl in H0. injection H0 as -> ->. destruct Htl as (-> & _). reflexivity.
  - intros n t1 d1 t2 d2. apply (timeline_consecutive sched t0); exact Htl.
  - intros t d Hl. rewrite Hend, Hl. reflexivity.
Qed.

Lemma playing_schedule_contiguous_witness :
  let msgs := [(audioMessage, envAt 3); (audioMessage, envAt (7 # 2));
               (audioMessage, envAt 4)] in
  let sched := scheduled (run (asEvents msgs) samplePlaying).2 in
  length sched = 3%nat ∧
  playbackState (run (asEvents msgs) samplePlaying).1 = playing ∧
  sched !! 1%nat = Some ((5 + (1 # 2))%Q, (1 # 2)%Q).
Proof.
  intros msgs sched.
  assert (Hb : ∀ now, (0 <= now)%Q → carriesBuffer (audioMessage, envAt now)).
  { intros now Hnow. exists (mkAudioChunk "UklGRg=="), [], (1 # 2)%Q.
    repeat split; try reflexivity. exact Hnow. }
  destruct (playing_schedule_contiguous msgs samplePlaying running)
    as (Hlen & Hpl & _ & _ & _).
  - reflexivity.
  - reflexivity.
  - discriminate.
  - repeat apply Forall_cons_2; try apply Forall_nil_2; apply Hb; discriminate.
  - reflexivity.
  - split; [exact Hlen|]. split; [exact Hpl|]. reflexivity.
Defined.

(** ** [throttle] *)

Lemma read_write_lastCall slot v st :
  readLastCall slot (writeLastCall slot v st) = v.
Proof. destruct slot; reflexivity. Qed.

Lemma throttle_accepts {A} slot (func : A → M unit) delay now args st :
  delay ≤ now - readLastCall slot st →
  throttle slot func delay now args st =
    (func args ;; modify (writeLastCall slot now)) st.
Proof.
  intros H. apply Z.leb_le in H. unfold throttle. run_monad.
  rewrite H. destruct (func args st) as [[[[] | msg] st1] l]; reflexivity.
Qed.

Lemma throttle_drops {A} slot (func : A → M unit) delay now args st :
  now - readLastCall slot st < delay →
  throttle slot func delay now args st = (Done tt, st, []).
Proof.
  intros H. apply Z.leb_gt in H. unfold throttle. run_monad.
  rewrite H. reflexivity.
Qed.

(** C6. Two updates [U1] at [t1] and [U2] at [t2] on one throttled channel,
    the interval having elapsed before [U1] and not between [U1] and [U2]:
    the pair of calls is one call of the wrapped function, on [U1], followed
    by the store of [t1] in [lastCall]; the call for [U2] does nothing at
    all (no call of the wrapped function, no change of the element, no
    timer and no other effect), so nothing is left to deliver [U2] later. *)
Theorem throttle_drops_second {A : Type}
    (slot : ThrottleSlot) (func : A → M unit) (delay t1 t2 : Z)
    (U1 U2 : A) (st : PromptDj) :
  delay ≤ t1 - readLastCall slot st →
  t2 - t1 < delay →
  (throttle slot func delay t1 U1 ;; throttle slot func delay t2 U2) st
    = (func U1 ;; modify (writeLastCall slot t1)) st ∧
  (∀ st1 l, func U1 st = (Done tt, st1, l) →
     throttle slot func delay t1 U1 st = (Done tt, writeLastCall slot t1 st1, l) ∧
     readLastCall slot (writeLastCall slot t1 st1) = t1 ∧
     throttle slot func delay t2 U2 (writeLastCall slot t1 st1)
       = (Done tt, writeLastCall slot t1 st1, [])).
Proof.
  intros H1 H2. split.
  - change ((throttle slot func delay t1 U1 ;; throttle slot func delay t2 U2) st)
      with (bind (throttle slot func delay t1 U1)
                 (λ _, throttle slot func delay t2 U2) st).
    unfold bind at 1. rewrite (throttle_accepts _ _ _ _ _ _ H1).
    run_monad. destruct (func U1 st) as [[[[] | msg] st1] l]; simpl; [|reflexivity].
    rewrite throttle_drops by (rewrite read_write_lastCall; lia).
    rewrite !app_nil_r. reflexivity.
  - intros st1 l Hf. split; [|split].
    + rewrite (throttle_accepts _ _ _ _ _ _ H1). run_monad. rewrite Hf.
      simpl. rewrite app_nil_r. reflexivity.
    + apply read_write_lastCall.
    + apply throttle_drops. rewrite read_write_lastCall. lia.
Qed.

Lemma throttle_drops_second_witness :
  (updateSettings (envAt 0) defaultConfig ;;
   throttle UpdateSettingsSlot (updateSettingsBody (envAt 0)) 250 1100 resetConfig)
    samplePlaying
  = (Done tt, writeLastCall UpdateSettingsSlot 1000 samplePlaying,
     [SessionSetMusicGenerationConfig (mkSession 1) defaultConfig]).
Proof.
  destruct (throttle_drops_second UpdateSettingsSlot (updateSettingsBody (envAt 0))
              250 1000 1100 defaultConfig resetConfig samplePlaying) as [H _].
  - vm_compute. discriminate.
  - reflexivity.
  - unfold updateSettings. change (dateNow (envAt 0)) with 1000.
    rewrite H. reflexivity.
Defined.

(** ** The pause path and the two control channels *)

Lemma pauseAudio_result env st :
  ∃ l, pauseAudio env st =
         (Done tt, set_nextStartTime 0%Q (set_playbackState paused st), l) ∧
       pushes l = [] ∧ existsb isReconnect l = false.
Proof.
  unfold pauseAudio, healthy. run_monad.
  destruct (session st) as [s|], (connectionError st), (pauseThrows env),
    (audioContext st) as [[]|]; simpl; eexists; repeat split; reflexivity.
Qed.

(** A failed push of the weighted prompts. *)
Lemma setSessionPrompts_fails st env s msg :
  healthy st = Some s →
  setWeightedPromptsThrows env = Some msg →
  250 ≤ dateNow env - setSessionPrompts_lastCall st →
  ∃ l, setSessionPrompts env st =
         (Done tt,
          writeLastCall SetSessionPromptsSlot (dateNow env)
            (set_nextStartTime 0%Q (set_playbackState paused st)),
          SessionSetWeightedPrompts s (promptsToSend st) ::
          ToastShow ("Oops! Had trouble with song ideas: " +:+ msg) :: l) ∧
       pushes l = [].
Proof.
  intros Hh Ht Hd. unfold setSessionPrompts.
  rewrite throttle_accepts by exact Hd.
  destruct (pauseAudio_result env st) as (l & Hp & Hl & _).
  exists l. split; [|exact Hl].
  unfold setSessionPromptsBody. run_monad. rewrite Hh. simpl. rewrite Ht. simpl.
  rewrite Hp. simpl. rewrite app_nil_r. reflexivity.
Qed.

(** A failed push of the generation config. *)
Lemma updateSettings_fails st env s msg cfg :
  healthy st = Some s →
  setMusicGenerationConfigThrows env = Some msg →
  250 ≤ dateNow env - updateSettings_lastCall st →
  updateSettings env cfg st =
    (Done tt, writeLastCall UpdateSettingsSlot (dateNow env) st,
     [SessionSetMusicGenerationConfig s cfg;
      ToastShow ("Setting change failed: " +:+ msg)]).
Proof.
  intros Hh Ht Hd. unfold updateSettings.
  rewrite throttle_accepts by exact Hd.
  unfold updateSettingsBody. run_monad. rewrite Hh. simpl. rewrite Ht.
  reflexivity.
Qed.

(** C7, as the claim states it, fails on the generation-config channel:
    the push of a config from [updateSettings] throws while the element is
    [playing] with its horizon at 5 s; a notice is shown, and the element
    is still [playing] with the same horizon. *)
Lemma failed_config_push_keeps_playing :
  setMusicGenerationConfigThrows sampleEnvSendFails = Some "closed" ∧
  effectsOf (updateSettings sampleEnvSendFails defaultConfig samplePlaying) =
    [SessionSetMusicGenerationConfig (mkSession 1) defaultConfig;
     ToastShow "Setting change failed: closed"] ∧
  playbackState
    (stateOf (updateSettings sampleEnvSendFails defaultConfig samplePlaying))
    = playing ∧
  playbackState
    (stateOf (updateSettings sampleEnvSendFails defaultConfig samplePlaying))
    ≠ paused ∧
  nextStartTime
    (stateOf (updateSettings sampleEnvSendFails defaultConfig samplePlaying))
    = 5%Q.
Proof. repeat split. discriminate. Qed.

(** C7, amended. On a healthy session, with the throttle interval elapsed:
    a push of the weighted prompts that throws shows a notice and takes the
    pause path ([playbackState] is [paused], [nextStartTime] is 0); a push
    of a generation config from [updateSettings] that throws shows a notice
    and leaves [playbackState] and [nextStartTime] as they were. *)
Theorem failed_send_handling
    (st : PromptDj) (env : Env) (s : LiveMusicSession) (msg : string) :
  healthy st = Some s →
  (setWeightedPromptsThrows env = Some msg →
   250 ≤ dateNow env - setSessionPrompts_lastCall st →
   pushes (effectsOf (setSessionPrompts env st)) = [promptsToSend st] ∧
   ToastShow ("Oops! Had trouble with song ideas: " +:+ msg)
     ∈ effectsOf (setSessionPrompts env st) ∧
   playbackState (stateOf (setSessionPrompts env st)) = paused ∧
   nextStartTime (stateOf (setSessionPrompts env st)) = 0%Q) ∧
  (∀ cfg,
   setMusicGenerationConfigThrows env = Some msg →
   250 ≤ dateNow env - updateSettings_lastCall st →
   effectsOf (updateSettings env cfg st) =
     [SessionSetMusicGenerationConfig s cfg;
      ToastShow ("Setting change failed: " +:+ msg)] ∧
   playbackState (stateOf (updateSettings env cfg st)) = playbackState st ∧
   nextStartTime (stateOf (updateSettings env cfg st)) = nextStartTime st).
Proof.
  intros Hh. split.
  - intros Ht Hd.
    destruct (setSessionPrompts_fails st env s msg Hh Ht Hd) as (l & -> & Hl).
    cbn [stateOf effectsOf fst snd]. simpl pushes. rewrite Hl.
    repeat split; try reflexivity.
    apply list_elem_of_In. simpl. tauto.
  - intros cfg Ht Hd. rewrite (updateSettings_fails st env s msg cfg Hh Ht Hd).
    repeat split.
Qed.

Lemma failed_send_handling_witness :
  playbackState (stateOf (setSessionPrompts sampleEnvSendFails samplePlaying))
    = paused ∧
  nextStartTime (stateOf (setSessionPrompts sampleEnvSendFails samplePlaying))
    = 0%Q ∧
  playbackState
    (stateOf (updateSettings sampleEnvSendFails defaultConfig samplePlaying))
    = playing.
Proof.
  destruct (failed_send_handling samplePlaying sampleEnvSendFails
              (mkSession 1) "closed") as [HA HB].
  - reflexivity.
  - destruct HA as (_ & _ & Hp & Hn); [reflexivity | vm_compute; discriminate |].
    destruct (HB defaultConfig) as (_ & Hq & _);
      [reflexivity | vm_compute; discriminate |].
    split; [exact Hp|]. split; [exact Hn|]. exact Hq.
Defined.

(** ** The connection *)

Lemma bind_done {A B} (m : M A) (f : A → M B) st a st1 l1 :
  m st = (Done a, st1, l1) →
  (m ≫= f) st =
    (outcomeOf (f a st1), stateOf (f a st1), l1 ++ effectsOf (f a st1)).
Proof.
  intros H. unfold mbind, M_bind, bind. rewrite H.
  destruct (f a st1) as [[r st2] l2]. reflexivity.
Qed.

(** What a call of [setSessionPrompts] leaves alone. *)
Lemma setSessionPrompts_frame env now st :
  ∃ st' l,
    throttle SetSessionPromptsSlot (setSessionPromptsBody env) 250 now tt st
      = (Done tt, st', l) ∧
    session st' = session st ∧
    connectionError st' = connectionError st ∧
    audioContext st' = audioContext st ∧
    settingsController st' = settingsController st ∧
    filteredPrompts st' = filteredPrompts st ∧
    existsb isReconnect l = false ∧ existsb isProbe l = false.
Proof.
  destruct (pauseAudio_result env st) as (lp & Hp & _ & Hlp).
  assert (Hpp : existsb isProbe lp = false).
  { revert Hp. unfold pauseAudio, healthy. run_monad.
    destruct (session st), (connectionError st), (pauseThrows env),
      (audioContext st) as [[]|]; simpl; intros [= <-]; reflexivity. }
  unfold throttle, setSessionPromptsBody. run_monad.
  destruct (250 <=? now - setSessionPrompts_lastCall st); simpl;
    [|eexists _, _; repeat split; reflexivity].
  destruct (healthy st) as [s|]; simpl;
    [|eexists _, _; repeat split; reflexivity].
  destruct (setWeightedPromptsThrows env) as [msg|]; simpl;
    [|eexists _, _; repeat split; reflexivity].
  rewrite Hp. simpl. eexists _, _. split; [reflexivity|].
  repeat split; try reflexivity; rewrite app_nil_r; assumption.
Qed.

Lemma setSessionPrompts_frame' env st :
  ∃ st' l,
    setSessionPrompts env st = (Done tt, st', l) ∧
    session st' = session st ∧
    connectionError st' = connectionError st ∧
    audioContext st' = audioContext st ∧
    settingsController st' = settingsController st ∧
    filteredPrompts st' = filteredPrompts st ∧
    existsb isReconnect l = false ∧ existsb isProbe l = false.
Proof. apply setSessionPrompts_frame. Qed.

(** [connectToSession] on a session that exists and is believed healthy,
    when the probe goes through: the probe and nothing else. *)
Lemma connectToSession_probe env st s ctx :
  healthy st = Some s →
  audioContext st = Some ctx →
  probeThrows env = false →
  connectToSession env st =
    (Done tt, st, [SessionSetMusicGenerationConfig s emptyConfig]).
Proof.
  intros Hh Hctx Hp. unfold connectToSession. run_monad.
  rewrite Hctx, Hh. simpl. rewrite Hp. reflexivity.
Qed.

(** [connectToSession] without a healthy session: a connection is attempted;
    it either leaves a new healthy session, or the element [stopped] with
    the error flag set. *)
Lemma connectToSession_reconnects env st ctx :
  healthy st = None →
  audioContext st = Some ctx →
  outcomeOf (connectToSession env st) = Done tt ∧
  Connect ∈ effectsOf (connectToSession env st) ∧
  audioContext (stateOf (connectToSession env st)) = Some ctx ∧
  (∀ s, connectResult env = Some s →
        settingsController st = None ∨ setMusicGenerationConfigThrows env = None →
        healthy (stateOf (connectToSession env st)) = Some s) ∧
  (connectResult env = None ∨
   (settingsController st ≠ None ∧ setMusicGenerationConfigThrows env ≠ None) →
   playbackState (stateOf (connectToSession env st)) = stopped ∧
   connectionError (stateOf (connectToSession env st)) = true).
Proof.
  intros Hh Hctx. unfold connectToSession. run_monad. rewrite Hctx, Hh. simpl.
  assert (HinC : ∀ l1 l2 : list Effect, Connect ∈ l1 ++ Connect :: l2).
  { intros l1 l2. rewrite list_elem_of_In, in_app_iff. simpl. tauto. }
  destruct (session st) as [s0|] eqn:Es; [destruct (closeThrows env)|]; simpl.
  all: destruct (connectResult env) as [s|] eqn:Ec; simpl.
  all: try (split; [reflexivity|]; split; [apply (HinC [_]) || apply (HinC [_; _]) || apply (HinC [])|];
            split; [exact Hctx|]; split;
            [intros s' Hn; discriminate Hn | intros _; split; reflexivity]).
  all: match goal with
       | |- context [setSessionPrompts ?e ?s1] =>
           destruct (setSessionPrompts_frame' e s1)
             as (st' & l & Heq & Hs & Hce & Hac & Hsc & _)
       end;
       rewrite Heq; simpl in Hs, Hce, Hac, Hsc |- *;
       destruct (settingsController st') as [cfg|] eqn:Esc; simpl;
       [destruct (setMusicGenerationConfigThrows env) as [msg|] eqn:Et; simpl|].
  all: split; [reflexivity|].
  all: split; [apply (HinC [_]) || apply (HinC [_; _]) || apply (HinC [])|].
  all: split; [congruence|].
  all: split;
       [intros s' Hr Hn; injection Hr as <-;
        try (destruct Hn as [Hn | Hn]; congruence);
        unfold healthy; simpl; rewrite Hs, Hce; reflexivity
       |intros Hn; try (split; reflexivity);
        destruct Hn as [Hn | [Hn1 Hn2]]; congruence].
Qed.

Lemma loadAudio_healthy env st s :
  healthy st = Some s →
  audioContext st = Some running →
  playThrows env = None →
  outcomeOf (loadAudio env st) = Done tt ∧
  playbackState (stateOf (loadAudio env st)) = loading ∧
  healthy (stateOf (loadAudio env st)) = Some s ∧
  SessionPlay s ∈ effectsOf (loadAudio env st) ∧
  Connect ∉ effectsOf (loadAudio env st).
Proof.
  intros Hh Hctx Hp. unfold loadAudio, fadeIn. run_monad.
  rewrite Hctx, Hh. simpl. rewrite Hp. simpl. rewrite Hctx. simpl.
  repeat split; try assumption.
  - rewrite list_elem_of_In. simpl. tauto.
  - rewrite list_elem_of_In. simpl. intuition discriminate.
Qed.

(** C8, as the claim states it, fails when the element is [paused]: play
    is pressed on a paused element whose connection is flagged in error,
    the connection attempt throws, and the element ends [stopped]. *)
Lemma failed_reconnect_from_paused_stops :
  playbackState samplePausedBroken = paused ∧
  connectionError samplePausedBroken = true ∧
  connectResult sampleEnvOffline = None ∧
  Connect ∈ effectsOf (handlePlayPause sampleEnvOffline samplePausedBroken) ∧
  playbackState (stateOf (handlePlayPause sampleEnvOffline samplePausedBroken))
    = stopped ∧
  playbackState (stateOf (handlePlayPause sampleEnvOffline samplePausedBroken))
    ≠ playbackState samplePausedBroken.
Proof.
  repeat split; try discriminate.
  rewrite list_elem_of_In. vm_compute. tauto.
Qed.

(** C8, amended. Play pressed while [stopped] or [paused] without a healthy
    session (error flagged, or no session), the audio context being usable:
    a connection is attempted. When it succeeds (the connection opens and
    the current config is re-sent) and the play command goes through, the
    element is [loading] on the new session. When it fails, the element is
    [stopped] with the error flag set, whether it was [stopped] or [paused]
    before. *)
Theorem play_while_unhealthy
    (st : PromptDj) (env : Env) (ctx : AudioContextState) :
  playbackState st = stopped ∨ playbackState st = paused →
  healthy st = None →
  audioContext st = Some ctx → ctx ≠ closed →
  (ctx = suspended → resumeRejects env = false) →
  let r := handlePlayPause env st in
  Connect ∈ effectsOf r ∧
  (∀ s, connectResult env = Some s →
        settingsController st = None ∨ setMusicGenerationConfigThrows env = None →
        playThrows env = None →
        playbackState (stateOf r) = loading ∧
        healthy (stateOf r) = Some s ∧
        SessionPlay s ∈ effectsOf r) ∧
  (connectResult env = None ∨
   (settingsController st ≠ None ∧ setMusicGenerationConfigThrows env ≠ None) →
   playbackState (stateOf r) = stopped ∧
   connectionError (stateOf r) = true).
Proof.
  intros Hps Hh Hctx Hopen Hres r.
  (* the element once the audio context is running *)
  set (st0 := match ctx with
              | suspended => set_audioContext (Some running) st
              | _ => st
              end).
  set (l0 := match ctx with suspended => [AudioContextResume] | _ => [] end).
  assert (Hh0 : healthy st0 = None) by (subst st0; destruct ctx; exact Hh).
  assert (Hctx0 : audioContext st0 = Some running)
    by (subst st0; destruct ctx; try done).
  assert (Hsc0 : settingsController st0 = settingsController st)
    by (subst st0; destruct ctx; reflexivity).
  assert (Hps0 : playbackState st0 = playbackState st)
    by (subst st0; destruct ctx; reflexivity).
  destruct (connectToSession_reconnects env st0 running Hh0 Hctx0)
    as (Hdone & Hconn & Hctx1 & Hok & Hko).
  rewrite Hsc0 in Hok, Hko.
  destruct (connectToSession env st0) as [[o1 st1] l1] eqn:E1.
  cbn [stateOf effectsOf outcomeOf fst snd] in Hdone, Hconn, Hctx1, Hok, Hko.
  subst o1.
  assert (Hr : r = if connectionError st1
                   then (Done tt, st1, l0 ++ l1)
                   else (outcomeOf (loadAudio env st1),
                         stateOf (loadAudio env st1),
                         l0 ++ l1 ++ effectsOf (loadAudio env st1))).
  { subst r st0 l0. unfold handlePlayPause, initializeAudioContext,
      resumeIfSuspended. run_monad. rewrite Hctx.
    destruct ctx; try done; simpl.
    - rewrite Hctx. simpl. rewrite Hctx. simpl. rewrite (Hres eq_refl). simpl.
      destruct Hps as [-> | ->]; simpl; unfold healthy in Hh |- *; simpl;
        rewrite Hh; simpl; rewrite E1; simpl;
        destruct (connectionError st1); simpl; rewrite ?app_nil_r;
        try reflexivity;
        destruct (loadAudio env st1) as [[o2 st2] l2]; reflexivity.
    - rewrite Hctx. simpl. rewrite Hctx. simpl.
      destruct Hps as [-> | ->]; simpl; rewrite Hh; simpl; rewrite E1; simpl;
        destruct (connectionError st1); simpl; rewrite ?app_nil_r;
        try reflexivity;
        destruct (loadAudio env st1) as [[o2 st2] l2]; reflexivity. }
  clearbody r. subst r.
  assert (Hin : ∀ l2 : list Effect, Connect ∈ l0 ++ l1 ++ l2).
  { intros l2. rewrite !elem_of_app. tauto. }
  split; [|split].
  - destruct (connectionError st1); [|apply Hin].
    rewrite <- (app_nil_r l1). apply Hin.
  - intros s Hc Hcfg Hplay. specialize (Hok s Hc Hcfg).
    assert (Hce : connectionError st1 = false).
    { unfold healthy in Hok. destruct (session st1), (connectionError st1);
        congruence. }
    rewrite Hce.
    destruct (loadAudio_healthy env st1 s Hok Hctx1 Hplay)
      as (_ & Hl & Hh2 & Hp2 & _).
    cbn [stateOf effectsOf outcomeOf fst snd].
    split; [exact Hl|]. split; [exact Hh2|].
    rewrite !elem_of_app. tauto.
  - intros Hfail. destruct (Hko Hfail) as [Hst Hce]. rewrite Hce.
    cbn [stateOf effectsOf outcomeOf fst snd].
    split; [exact Hst | exact Hce].
Qed.

Lemma play_while_unhealthy_witness :
  Connect ∈ effectsOf (handlePlayPause sampleEnv samplePausedBroken) ∧
  playbackState (stateOf (handlePlayPause sampleEnv samplePausedBroken))
    = loading ∧
  playbackState (stateOf (handlePlayPause sampleEnvOffline samplePausedBroken))
    = stopped.
Proof.
  assert (Hp : playbackState samplePausedBroken = stopped ∨
               playbackState samplePausedBroken = paused)
    by (right; reflexivity).
  assert (Hr : running = suspended → resumeRejects sampleEnv = false)
    by (intros _; reflexivity).
  assert (Ho : running ≠ closed) by discriminate.
  pose proof (play_while_unhealthy samplePausedBroken sampleEnv running
                Hp eq_refl eq_refl Ho Hr) as (Hc & Hok & _).
  pose proof (play_while_unhealthy samplePausedBroken sampleEnvOffline running
                Hp eq_refl eq_refl Ho Hr) as (_ & _ & Hko).
  split; [exact Hc|]. split.
  - apply (Hok (mkSession 2) eq_refl (or_intror eq_refl) eq_refl).
  - apply (Hko (or_introl eq_refl)).
Defined.

(** C9, as the claim states it, fails on the number of probes: two calls
    of [connectToSession] in a row on a healthy session, both probes going
    through, send the empty config twice. *)
Lemma connect_twice_sends_two_probes :
  healthy samplePlaying = Some (mkSession 1) ∧
  probeThrows sampleEnv = false ∧
  effectsOf ((connectToSession sampleEnv ;; connectToSession sampleEnv)
               samplePlaying)
    = [SessionSetMusicGenerationConfig (mkSession 1) emptyConfig;
       SessionSetMusicGenerationConfig (mkSession 1) emptyConfig] ∧
  length (List.filter isProbe
            (effectsOf ((connectToSession sampleEnv ;; connectToSession sampleEnv)
                          samplePlaying))) ≠ 1%nat.
Proof. repeat split. discriminate. Qed.

(** C9, amended. With a session that exists and is believed healthy, and
    an audio context, two calls of [connectToSession] in a row whose probes
    go through perform one probe each, two in all, close nothing, open
    nothing and leave the element as it was. *)
Theorem connect_twice_probes_each_time
    (st : PromptDj) (env1 env2 : Env) (s : LiveMusicSession)
    (ctx : AudioContextState) :
  healthy st = Some s →
  audioContext st = Some ctx →
  probeThrows env1 = false →
  probeThrows env2 = false →
  let r := (connectToSession env1 ;; connectToSession env2) st in
  r = (Done tt, st,
       [SessionSetMusicGenerationConfig s emptyConfig;
        SessionSetMusicGenerationConfig s emptyConfig]) ∧
  effectsOf (connectToSession env1 st)
    = [SessionSetMusicGenerationConfig s emptyConfig] ∧
  length (List.filter isProbe (effectsOf r)) = 2%nat ∧
  existsb isReconnect (effectsOf r) = false.
Proof.
  intros Hh Hctx Hp1 Hp2 r.
  assert (Hr : r = (Done tt, st,
       [SessionSetMusicGenerationConfig s emptyConfig;
        SessionSetMusicGenerationConfig s emptyConfig])).
  { subst r.
    rewrite (bind_done _ _ _ _ _ _ (connectToSession_probe env1 st s ctx Hh Hctx Hp1)).
    rewrite (connectToSession_probe env2 st s ctx Hh Hctx Hp2). reflexivity. }
  rewrite Hr, (connectToSession_probe env1 st s ctx Hh Hctx Hp1).
  repeat split.
Qed.

Lemma connect_twice_probes_each_time_witness :
  (connectToSession sampleEnv ;; connectToSession sampleEnv) samplePlaying
    = (Done tt, samplePlaying,
       [SessionSetMusicGenerationConfig (mkSession 1) emptyConfig;
        SessionSetMusicGenerationConfig (mkSession 1) emptyConfig]).
Proof.
  destruct (connect_twice_probes_each_time samplePlaying sampleEnv sampleEnv
              (mkSession 1) running) as (H & _).
  - reflexivity.
  - reflexivity.
  - reflexivity.
  - reflexivity.
  - exact H.
Defined.

(** ** The limit on the number of prompts *)

(** C10. Add-prompt on a prompt map of 8 entries or more: the handler shows
    one notice and does nothing else; the element, and with it the prompt
    map, is unchanged, and nothing is pushed to the session. *)
Theorem add_prompt_at_limit (st : PromptDj) (env : Env) :
  (8 ≤ length (prompts st))%nat →
  handleAddPrompt env st =
    (Done tt, st,
     [ToastShow "That's a lot of song ideas! Maybe remove one first?"]) ∧
  prompts (stateOf (handleAddPrompt env st)) = prompts st ∧
  pushes (effectsOf (handleAddPrompt env st)) = [] ∧
  List.filter (λ e, negb (isToast e)) (effectsOf (handleAddPrompt env st)) = [].
Proof.
  intros H. apply Nat.leb_le in H.
  assert (E : handleAddPrompt env st =
    (Done tt, st,
     [ToastShow "That's a lot of song ideas! Maybe remove one first?"])).
  { unfold handleAddPrompt. run_monad. rewrite H. reflexivity. }
  rewrite E. repeat split.
Qed.

Lemma add_prompt_at_limit_witness :
  length (prompts sampleFull) = 8%nat ∧
  handleAddPrompt sampleEnv sampleFull =
    (Done tt, sampleFull,
     [ToastShow "That's a lot of song ideas! Maybe remove one first?"]).
Proof.
  split; [reflexivity|].
  destruct (add_prompt_at_limit sampleFull sampleEnv) as (H & _).
  - vm_compute. lia.
  - exact H.
Defined.

(** ** What is pushed to the session *)

Lemma string_length_app (s1 s2 : string) :
  String.length (s1 +:+ s2) = (String.length s1 + String.length s2)%nat.
Proof. induction s1 as [|a s1 IH]; simpl; [reflexivity | rewrite IH; reflexivity]. Qed.

Lemma string_app_inv_tail (s1 s2 suffix : string) :
  s1 +:+ suffix = s2 +:+ suffix → s1 = s2.
Proof.
  revert s2. induction s1 as [|a s1 IH]; intros [|b s2] H.
  - reflexivity.
  - apply (f_equal String.length) in H.
    rewrite !string_length_app in H. simpl in H. lia.
  - apply (f_equal String.length) in H.
    rewrite !string_length_app in H. simpl in H. lia.
  - cbn in H. injection H as -> H. f_equal. apply IH. exact H.
Qed.

Lemma wrapText_inj (t1 t2 : string) : wrapText t1 = wrapText t2 → t1 = t2.
Proof.
  unfold wrapText. intros H.
  apply (inj (String.append childFriendlyInstruction)) in H.
  exact (string_app_inv_tail _ _ _ H).
Qed.

Lemma isActive_spec filtered p :
  isActive filtered p = true ↔ (text p ∉ filtered) ∧ (1 # 100 < weight p)%Q.
Proof.
  unfold isActive. rewrite andb_true_iff, negb_true_iff, bool_decide_eq_false,
    Qltb_lt. reflexivity.
Qed.

(** The list pushed holds exactly the wrapped active prompts. *)
Lemma promptsToSend_spec st q :
  q ∈ promptsToSend st ↔
  ∃ p, p ∈ map_values (prompts st) ∧
       (1 # 100 < weight p)%Q ∧
       (text p ∉ filteredPrompts st) ∧
       q = wrapPrompt p.
Proof.
  unfold promptsToSend. rewrite list_elem_of_In, in_map_iff. split.
  - intros (p & <- & Hin). apply filter_In in Hin as [Hin Hact].
    apply isActive_spec in Hact as [Hf Hw].
    exists p. rewrite list_elem_of_In. auto.
  - intros (p & Hin & Hw & Hf & ->). exists p. split; [reflexivity|].
    apply filter_In. split; [apply list_elem_of_In; exact Hin|].
    apply isActive_spec. auto.
Qed.

Lemma promptsToSend_excludes T st :
  T ∈ filteredPrompts st → excludes T (promptsToSend st).
Proof.
  intros HT p Hp Hin. apply promptsToSend_spec in Hin as (p' & _ & _ & Hf & Heq).
  apply (f_equal text) in Heq. simpl in Heq. apply wrapText_inj in Heq.
  congruence.
Qed.

Section Keeps.
Variable T : string.

Lemma keeps_ret {A} (a : A) : keeps T (ret a).
Proof. intros st H. split; [exact H | constructor]. Qed.

Lemma keeps_throw {A} msg : keeps T (@throw A msg).
Proof. intros st H. split; [exact H | constructor]. Qed.

Lemma keeps_gets {A} (f : PromptDj → A) : keeps T (gets f).
Proof. intros st H. split; [exact H | constructor]. Qed.

Lemma keeps_emit e : pushes [e] = [] → keeps T (emit e).
Proof. intros He st H. split; [exact H|]. simpl effectsOf. rewrite He. constructor. Qed.

Lemma keeps_toastShow message : keeps T (toastShow message).
Proof. apply keeps_emit. reflexivity. Qed.

Lemma keeps_modify f :
  (∀ st, T ∈ filteredPrompts st → T ∈ filteredPrompts (f st)) →
  keeps T (modify f).
Proof. intros Hf st H. split; [apply Hf; exact H | constructor]. Qed.

Lemma keeps_bind {A B} (m : M A) (f : A → M B) :
  keeps T m → (∀ a, keeps T (f a)) → keeps T (m ≫= f).
Proof.
  intros Hm Hf st H. destruct (Hm st H) as [H1 H2].
  unfold mbind, M_bind, bind.
  destruct (m st) as [[[a | msg] st1] l1]; [|split; assumption].
  cbn [stateOf effectsOf fst snd] in H1, H2.
  destruct (Hf a st1 H1) as [H3 H4].
  destruct (f a st1) as [[r st2] l2].
  cbn [stateOf effectsOf fst snd] in *.
  split; [exact H3|]. rewrite pushes_app. apply Forall_app. split; assumption.
Qed.

Lemma keeps_try_catch {A} (m : M A) (h : string → M A) :
  keeps T m → (∀ msg, keeps T (h msg)) → keeps T (try_catch m h).
Proof.
  intros Hm Hh st H. destruct (Hm st H) as [H1 H2].
  unfold try_catch.
  destruct (m st) as [[[a | msg] st1] l1]; [split; assumption|].
  cbn [stateOf effectsOf fst snd] in H1, H2.
  destruct (Hh msg st1 H1) as [H3 H4].
  destruct (h msg st1) as [[r st2] l2].
  cbn [stateOf effectsOf fst snd] in *.
  split; [exact H3|]. rewrite pushes_app. apply Forall_app. split; assumption.
Qed.

Lemma keeps_when b m : keeps T m → keeps T (when b m).
Proof. intros Hm. destruct b; [exact Hm | apply keeps_ret]. Qed.

Lemma keeps_call e throws : pushes [e] = [] → keeps T (call e throws).
Proof.
  intros He. unfold call. apply keeps_bind; [apply keeps_emit; exact He|].
  intros _. destruct throws; [apply keeps_throw | apply keeps_ret].
Qed.

Lemma keeps_throttle {A} slot (func : A → M unit) delay now args :
  (∀ a, keeps T (func a)) → keeps T (throttle slot func delay now args).
Proof.
  intros Hf. unfold throttle. apply keeps_bind; [apply keeps_gets|].
  intros lastCall. destruct (delay <=? now - lastCall); [|apply keeps_ret].
  apply keeps_bind; [apply Hf|]. intros _. apply keeps_modify.
  intros st H. destruct slot; exact H.
Qed.

Lemma keeps_setSessionPromptsBody env u :
  keeps T (setSessionPromptsBody env u).
Proof.
  intros st H. unfold setSessionPromptsBody. run_monad.
  destruct (healthy st) as [s|]; simpl; [|split; [exact H | constructor]].
  destruct (setWeightedPromptsThrows env) as [msg|]; simpl.
  - destruct (pauseAudio_result env st) as (l & -> & Hl & _). simpl.
    split; [exact H|]. rewrite Hl.
    repeat constructor. apply promptsToSend_excludes. exact H.
  - split; [exact H|].
    repeat constructor. apply promptsToSend_excludes. exact H.
Qed.

Lemma keeps_setSessionPrompts env : keeps T (setSessionPrompts env).
Proof. apply keeps_throttle. apply keeps_setSessionPromptsBody. Qed.

Lemma keeps_pauseAudio env : keeps T (pauseAudio env).
Proof.
  intros st H. destruct (pauseAudio_result env st) as (l & -> & Hl & _).
  cbn [stateOf effectsOf fst snd]. rewrite Hl. split; [exact H | constructor].
Qed.

End Keeps.

Create HintDb keeps_db.

#[export] Hint Resolve keeps_ret keeps_throw keeps_gets keeps_toastShow
  keeps_setSessionPrompts keeps_pauseAudio keeps_setSessionPromptsBody
  : keeps_db.

(** One step of the proof that a handler keeps a filtered text out. *)
Ltac keeps_step :=
  first
    [ solve [auto 1 with keeps_db]
    | apply keeps_emit; reflexivity
    | apply keeps_call; reflexivity
    | apply keeps_modify; intros ? ?; simpl;
      solve [assumption | apply elem_of_union; left; assumption]
    | apply keeps_when
    | apply keeps_throttle; intros ?
    | apply keeps_try_catch; [|intros ?]
    | apply keeps_bind; [|intros ?]
    | match goal with
      | |- keeps _ (match ?x with _ => _ end) => destruct x
      end ].

Ltac keeps_auto := repeat keeps_step.

Section KeepsHandlers.
Variable T : string.

Lemma keeps_updateSettings env cfg : keeps T (updateSettings env cfg).
Proof. unfold updateSettings, updateSettingsBody. keeps_auto. Qed.

Lemma keeps_onSettingsChanged cfg env : keeps T (onSettingsChanged cfg env).
Proof.
  unfold onSettingsChanged. keeps_auto.
Qed.

Lemma keeps_initializeAudioContext env : keeps T (initializeAudioContext env).
Proof. unfold initializeAudioContext. keeps_auto. Qed.

Lemma keeps_resumeIfSuspended env : keeps T (resumeIfSuspended env).
Proof. unfold resumeIfSuspended. keeps_auto. Qed.

Lemma keeps_connectToSession env : keeps T (connectToSession env).
Proof. unfold connectToSession. keeps_auto. Qed.

Lemma keeps_fadeIn env : keeps T (fadeIn env).
Proof. unfold fadeIn. keeps_auto. Qed.

Lemma keeps_loadAudio env : keeps T (loadAudio env).
Proof.
  pose proof keeps_connectToSession. pose proof keeps_fadeIn.
  unfold loadAudio. keeps_auto.
Qed.

Lemma keeps_handlePlayPause env : keeps T (handlePlayPause env).
Proof.
  pose proof keeps_connectToSession. pose proof keeps_loadAudio.
  pose proof keeps_initializeAudioContext. pose proof keeps_resumeIfSuspended.
  unfold handlePlayPause. keeps_auto.
Qed.

Lemma keeps_dispatchPromptsChange : keeps T dispatchPromptsChange.
Proof. unfold dispatchPromptsChange. keeps_auto. Qed.

Lemma keeps_handleAddPrompt env : keeps T (handleAddPrompt env).
Proof.
  pose proof keeps_dispatchPromptsChange.
  unfold handleAddPrompt. keeps_auto.
Qed.

Lemma keeps_handlePromptChanged detail env :
  keeps T (handlePromptChanged detail env).
Proof.
  pose proof keeps_dispatchPromptsChange.
  unfold handlePromptChanged. keeps_auto.
Qed.

Lemma keeps_handlePromptRemoved i env : keeps T (handlePromptRemoved i env).
Proof.
  pose proof keeps_dispatchPromptsChange.
  unfold handlePromptRemoved. keeps_auto.
Qed.

Lemma keeps_onAudioChunks chunks env : keeps T (onAudioChunks chunks env).
Proof. unfold onAudioChunks. keeps_auto. Qed.

Lemma keeps_onmessage e env : keeps T (onmessage e env).
Proof.
  pose proof keeps_onAudioChunks.
  unfold onmessage. keeps_auto.
Qed.

Lemma keeps_promoteToPlaying : keeps T promoteToPlaying.
Proof. unfold promoteToPlaying. keeps_auto. Qed.

Lemma keeps_onerror env : keeps T (onerror env).
Proof. unfold onerror. keeps_auto. Qed.

Lemma keeps_onclose wasClean env : keeps T (onclose wasClean env).
Proof. unfold onclose. keeps_auto. Qed.

Lemma keeps_firstUpdated later env : keeps T (firstUpdated later env).
Proof.
  pose proof keeps_connectToSession. pose proof keeps_initializeAudioContext.
  unfold firstUpdated. keeps_auto.
Qed.

(** Every handler but that of the reset button. *)
Lemma keeps_handler ev env : ev ≠ ResetClick → keeps T (handler ev env).
Proof.
  intros Hev. destruct ev as [| | | |[]| | | | | |]; simpl.
  - apply keeps_firstUpdated.
  - apply keeps_onmessage.
  - apply keeps_onerror.
  - apply keeps_onclose.
  - apply keeps_promoteToPlaying.
  - apply keeps_toastShow.
  - apply keeps_handlePlayPause.
  - apply keeps_handleAddPrompt.
  - apply keeps_handlePromptChanged.
  - apply keeps_handlePromptRemoved.
  - apply keeps_onSettingsChanged.
  - contradiction.
Qed.

Lemma keeps_run evs : ∀ st,
  Forall notReset evs →
  T ∈ filteredPrompts st →
  T ∈ filteredPrompts (run evs st).1 ∧
  Forall (excludes T) (pushes (run evs st).2).
Proof.
  induction evs as [|[ev env] evs IH]; intros st Hall HT.
  - split; [exact HT | constructor].
  - apply Forall_cons in Hall as [Hev Hall].
    destruct (keeps_handler ev env Hev st HT) as [H1 H2].
    destruct (IH _ Hall H1) as [H3 H4].
    simpl. split; [exact H3|].
    rewrite pushes_app. apply Forall_app. split; assumption.
Qed.
End KeepsHandlers.

Lemma onmessage_records_filtered e env st fp :
  filteredPrompt e = Some fp →
  fpText fp ∈ filteredPrompts (stateOf (onmessage e env st)).
Proof.
  intros Hfp.
  assert (Hd : fpText fp ∈ filteredPrompts (dispatched e st)).
  { unfold dispatched. rewrite Hfp. simpl.
    apply elem_of_union. right. apply elem_of_singleton. reflexivity. }
  destruct (audioChunks e) as [chunks|] eqn:Ec.
  - rewrite (onmessage_audio _ _ _ _ Ec). cbn [stateOf fst snd].
    apply (keeps_onAudioChunks (fpText fp) chunks env _ Hd).
  - revert Hd. unfold onmessage, dispatched. rewrite Hfp, Ec. run_monad.
    destruct (setupComplete e); simpl; intros Hd; exact Hd.
Qed.

(** C5. The list pushed with [setWeightedPrompts] holds exactly the prompts
    of the map whose weight is above 0.01 and whose text is not in the
    filtered set, each with its text between the fixed prefix and suffix
    and its weight as it is; a push that goes out sends that list. Once a
    filtered-prompt signal has put a text in the filtered set, no push of
    any later run of events without the reset button holds a prompt with
    that text, whatever its weight. *)
Theorem pushes_exclude_filtered :
  (∀ st q,
     q ∈ promptsToSend st ↔
     ∃ p, p ∈ map_values (prompts st) ∧
          (1 # 100 < weight p)%Q ∧
          (text p ∉ filteredPrompts st) ∧
          q = wrapPrompt p) ∧
  (∀ p,
     text (wrapPrompt p) =
       "Music for a 5-year-old: " +:+ text p +:+
       ". Make it simple, happy, and playful." ∧
     weight (wrapPrompt p) = weight p ∧
     promptId (wrapPrompt p) = promptId p) ∧
  (∀ st env s,
     healthy st = Some s →
     250 ≤ dateNow env - setSessionPrompts_lastCall st →
     pushes (effectsOf (setSessionPrompts env st)) = [promptsToSend st]) ∧
  (∀ e env st fp evs,
     filteredPrompt e = Some fp →
     Forall notReset evs →
     fpText fp ∈ filteredPrompts (stateOf (onmessage e env st)) ∧
     fpText fp ∈ filteredPrompts (run evs (stateOf (onmessage e env st))).1 ∧
     ∀ ps p,
       ps ∈ pushes (run evs (stateOf (onmessage e env st))).2 →
       text p = fpText fp →
       wrapPrompt p ∉ ps).
Proof.
  split; [exact promptsToSend_spec|]. split; [intros p; repeat split|]. split.
  - intros st env s Hh Hd. unfold setSessionPrompts.
    rewrite throttle_accepts by exact Hd.
    unfold setSessionPromptsBody. run_monad. rewrite Hh. simpl.
    destruct (setWeightedPromptsThrows env) as [msg|]; simpl; [|reflexivity].
    destruct (pauseAudio_result env st) as (l & -> & Hl & _). simpl.
    rewrite app_nil_r, Hl. reflexivity.
  - intros e env st fp evs Hfp Hall.
    pose proof (onmessage_records_filtered e env st fp Hfp) as H1.
    destruct (keeps_run (fpText fp) evs _ Hall H1) as [H2 H3].
    split; [exact H1|]. split; [exact H2|].
    intros ps p Hps Hp. rewrite Forall_forall in H3.
    exact (H3 ps Hps p Hp).
Qed.

Lemma pushes_exclude_filtered_witness :
  pushes (run sampleEdits
            (stateOf (onmessage (filteredMessage "Sleepy Lullaby") sampleEnv
                        samplePlaying))).2
    = [[wrapPrompt (mkPrompt "prompt-2" "#4BC0C0" "Bouncing Bunnies" (3 # 2)%Q)];
       [wrapPrompt (mkPrompt "prompt-2" "#4BC0C0" "Bouncing Bunnies" 1%Q)]] ∧
  ∀ ps,
    ps ∈ pushes (run sampleEdits
                   (stateOf (onmessage (filteredMessage "Sleepy Lullaby")
                               sampleEnv samplePlaying))).2 →
    wrapPrompt (mkPrompt "prompt-0" "#FF6384" "Sleepy Lullaby" 2%Q) ∉ ps.
Proof.
  split; [reflexivity|].
  intros ps Hps.
  destruct pushes_exclude_filtered as (_ & _ & _ & H).
  destruct (H (filteredMessage "Sleepy Lullaby") sampleEnv samplePlaying
              (mkFilteredPrompt "Sleepy Lullaby" (Some "unsafe")) sampleEdits)
    as (_ & _ & Hex).
  - reflexivity.
  - repeat constructor; discriminate.
  - apply (Hex ps _ Hps). reflexivity.
Defined.

(** The reset button ends the exclusion: after it, the same edits push the
    text that had been filtered. *)
Lemma reset_readmits_filtered_text :
  wrapPrompt (mkPrompt "prompt-0" "#FF6384" "Sleepy Lullaby" 2%Q)
  ∈ concat
      (pushes (run ((ResetClick, sampleEnv) :: sampleEdits)
                 (stateOf (onmessage (filteredMessage "Sleepy Lullaby")
                             sampleEnv samplePlaying))).2).
Proof. apply list_elem_of_In. vm_compute. tauto. Qed.

(** ** More on [throttle] *)

Lemma acceptedCalls_spaced {A} delay (calls : list (Z * A)) : ∀ lastCall,
  spaced delay lastCall (map fst (acceptedCalls delay lastCall calls)).
Proof.
  induction calls as [|[now args] calls IH]; intros lastCall; simpl; [exact I|].
  destruct (delay <=? now - lastCall) eqn:E; [|apply IH].
  simpl. split; [apply Z.leb_le; exact E | apply IH].
Qed.

Lemma acceptedCalls_sublist {A} delay (calls : list (Z * A)) : ∀ lastCall,
  sublist (acceptedCalls delay lastCall calls) calls.
Proof.
  induction calls as [|[now args] calls IH]; intros lastCall; simpl;
    [constructor|].
  destruct (delay <=? now - lastCall);
    [apply sublist_skip | apply sublist_cons]; apply IH.
Qed.

Lemma throttleAll_accepted {A} slot (func : A → M unit) delay
    (calls : list (Z * A)) : ∀ st,
  throttleAll slot func delay calls st =
    acceptAll slot func (acceptedCalls delay (readLastCall slot st) calls) st.
Proof.
  induction calls as [|[now args] calls IH]; intros st; [reflexivity|].
  cbn [throttleAll acceptedCalls].
  destruct (delay <=? now - readLastCall slot st) eqn:E.
  - cbn [acceptAll]. unfold mbind, M_bind, bind.
    rewrite throttle_accepts by (apply Z.leb_le; exact E).
    unfold mbind, M_bind, bind, modify.
    destruct (func args st) as [[[[] | msg] st1] l]; [|reflexivity].
    rewrite IH, read_write_lastCall.
    destruct (acceptAll slot func (acceptedCalls delay now calls)
                (writeLastCall slot now st1)) as [[r st2] l2].
    simpl. rewrite app_nil_r. reflexivity.
  - unfold mbind, M_bind, bind.
    rewrite throttle_drops by (apply Z.leb_gt; exact E).
    rewrite IH.
    destruct (acceptAll slot func
                (acceptedCalls delay (readLastCall slot st) calls) st)
      as [[r st2] l2].
    reflexivity.
Qed.

(** X1. Any number of calls on a throttled channel, at any times: the
    wrapped function runs on the calls that pass the test on [lastCall], in
    order, and on no other; the calls that run are at least [delay] after
    the [lastCall] found and at least [delay] after one another. *)
Theorem throttle_calls_spaced {A : Type}
    (slot : ThrottleSlot) (func : A → M unit) (delay : Z)
    (calls : list (Z * A)) (st : PromptDj) :
  throttleAll slot func delay calls st =
    acceptAll slot func (acceptedCalls delay (readLastCall slot st) calls) st ∧
  sublist (acceptedCalls delay (readLastCall slot st) calls) calls ∧
  spaced delay (readLastCall slot st)
    (map fst (acceptedCalls delay (readLastCall slot st) calls)).
Proof.
  split; [apply throttleAll_accepted|].
  split; [apply acceptedCalls_sublist | apply acceptedCalls_spaced].
Qed.

(** ** WeightSlider *)

Lemma clamp_inRange (v : Q) : inRange (Qmax 0 (Qmin 2 v)).
Proof.
  split; [apply Q.le_max_l|].
  apply Q.max_lub; [discriminate | apply Q.le_min_l].
Qed.

Lemma normalized_inRange (h y : Q) :
  (0 < h)%Q → inRange ((1 - Qmax 0 (Qmin h y) / h) * 2)%Q.
Proof.
  intros Hh. set (m := Qmax 0 (Qmin h y)).
  assert (H0 : (0 <= m)%Q) by apply Q.le_max_l.
  assert (H1 : (m <= h)%Q).
  { apply Q.max_lub; [apply Qlt_le_weak; exact Hh | apply Q.le_min_l]. }
  assert (Hd0 : (0 <= m / h)%Q).
  { apply Qle_shift_div_l; [exact Hh|]. lra. }
  assert (Hd1 : (m / h <= 1)%Q).
  { apply Qle_shift_div_r; [exact Hh|]. lra. }
  split; lra.
Qed.

Lemma updateValueFromPosition_inRange clientY w :
  measured w → inRange (sliderValue w) →
  measured (updateValueFromPosition clientY w).1 ∧
  inRange (sliderValue (updateValueFromPosition clientY w).1) ∧
  Forall inRange (updateValueFromPosition clientY w).2.
Proof.
  unfold measured, updateValueFromPosition. intros Hm Hv.
  destruct (containerBounds w) as [bounds|] eqn:E; simpl; rewrite ?E.
  - split; [exact Hm|].
    pose proof (normalized_inRange (rectHeight bounds)
                  (clientY - rectTop bounds) Hm) as Hn.
    split; [exact Hn | constructor; [exact Hn | constructor]].
  - split; [exact I|]. split; [exact Hv | constructor].
Qed.

Lemma sliderHandler_inRange ev w :
  tallTrack ev → measured w → inRange (sliderValue w) →
  measured (sliderHandler ev w).1 ∧
  inRange (sliderValue (sliderHandler ev w).1) ∧
  Forall inRange (sliderHandler ev w).2.
Proof.
  intros Hev Hm Hv. destruct ev as [clientY rect|clientY|touches| |deltaY];
    cbn [sliderHandler tallTrack] in *.
  - unfold handlePointerDown.
    apply updateValueFromPosition_inRange; [exact Hev | exact Hv].
  - unfold handlePointerMove.
    apply updateValueFromPosition_inRange; assumption.
  - unfold handleTouchMove. destruct touches as [|clientY touches].
    + split; [exact Hm|]. split; [exact Hv | constructor].
    + apply updateValueFromPosition_inRange; assumption.
  - unfold handlePointerUp. cbn [fst snd].
    split; [exact I|]. split; [exact Hv | constructor].
  - unfold handleWheel. cbn [fst snd].
    split; [exact Hm|]. split; [apply clamp_inRange|].
    constructor; [apply clamp_inRange | constructor].
Qed.

(** X2. The weight slider, through any pointer, touch and wheel events,
    the track measured at each pointer-down being of positive height:
    every [input] event carries a value between 0 and 2, and a value that
    was between 0 and 2 stays there. *)
Theorem slider_value_in_range (evs : list SliderEvent) (w : WeightSlider) :
  Forall tallTrack evs →
  measured w →
  inRange (sliderValue w) →
  inRange (sliderValue (sliderRun evs w).1) ∧
  Forall inRange (sliderRun evs w).2.
Proof.
  revert w. induction evs as [|ev evs IH]; intros w Hall Hm Hv; simpl.
  - split; [exact Hv | constructor].
  - apply Forall_cons in Hall as [Hev Hall].
    destruct (sliderHandler_inRange ev w Hev Hm Hv) as (Hm1 & Hv1 & Hd1).
    destruct (IH _ Hall Hm1 Hv1) as [Hv2 Hd2].
    split; [exact Hv2|]. apply Forall_app. split; assumption.
Qed.

Lemma slider_value_in_range_witness :
  inRange
    (sliderValue
       (sliderRun [PointerDown 130 (mkDOMRect 100 200); PointerMove 500;
                   PointerUp; TouchMove [40%Q]; Wheel (-1000)]
          (mkWeightSlider 1 0 0 None)).1).
Proof.
  apply slider_value_in_range.
  - repeat constructor.
  - exact I.
  - split; discriminate.
Defined.

(** X3. The ends of the track and a slider that is not being dragged: a
    pointer at or above the top of the measured track gives the value 2,
    at or below its bottom the value 0; without measured bounds (no drag
    in progress) a position changes nothing and dispatches nothing. *)
Theorem slider_track_ends (clientY : Q) (w : WeightSlider) (bounds : DOMRect) :
  (0 < rectHeight bounds)%Q →
  containerBounds w = Some bounds →
  ((clientY <= rectTop bounds)%Q →
   (sliderValue (updateValueFromPosition clientY w).1 == 2)%Q) ∧
  ((rectTop bounds + rectHeight bounds <= clientY)%Q →
   (sliderValue (updateValueFromPosition clientY w).1 == 0)%Q) ∧
  (updateValueFromPosition clientY w).2 =
    [sliderValue (updateValueFromPosition clientY w).1] ∧
  updateValueFromPosition clientY (handlePointerUp w).1
    = ((handlePointerUp w).1, []).
Proof.
  intros Hh Hb. unfold updateValueFromPosition. rewrite Hb. simpl.
  split; [|split; [|split; reflexivity]].
  - intros Htop.
    assert (Hm : (Qmin (rectHeight bounds) (clientY - rectTop bounds)
                  == clientY - rectTop bounds)%Q) by (apply Q.min_r; lra).
    assert (Hx : (Qmax 0 (Qmin (rectHeight bounds) (clientY - rectTop bounds))
                  == 0)%Q) by (apply Q.max_l; rewrite Hm; lra).
    rewrite Hx. field. lra.
  - intros Hbot.
    assert (Hm : (Qmin (rectHeight bounds) (clientY - rectTop bounds)
                  == rectHeight bounds)%Q) by (apply Q.min_l; lra).
    assert (Hx : (Qmax 0 (Qmin (rectHeight bounds) (clientY - rectTop bounds))
                  == rectHeight bounds)%Q).
    { transitivity (Qmin (rectHeight bounds) (clientY - rectTop bounds));
        [apply Q.max_r; rewrite Hm; lra | exact Hm]. }
    rewrite Hx. field. lra.
Qed.

Lemma slider_track_ends_witness :
  (sliderValue
     (updateValueFromPosition 90 (mkWeightSlider 1 0 0 (Some (mkDOMRect 100 200)))).1
   == 2)%Q.
Proof.
  destruct (slider_track_ends 90 (mkWeightSlider 1 0 0 (Some (mkDOMRect 100 200)))
              (mkDOMRect 100 200)) as (H & _).
  - reflexivity.
  - reflexivity.
  - apply H. discriminate.
Defined.

(** ** SettingsController *)

Lemma handleInputChange_lastDefinedDensity target c :
  notDensityInput target →
  lastDefinedDensity (handleInputChange target c).1 = lastDefinedDensity c.
Proof.
  intros H. destruct target as [[]|[]|[]|]; try reflexivity. destruct H.
Qed.

Lemma settingsRun_lastDefinedDensity targets : ∀ c,
  Forall notDensityInput targets →
  lastDefinedDensity (settingsRun targets c) = lastDefinedDensity c.
Proof.
  induction targets as [|target targets IH]; intros c Hall; [reflexivity|].
  apply Forall_cons in Hall as [H Hall]. unfold settingsRun in *. simpl.
  rewrite IH by exact Hall. apply handleInputChange_lastDefinedDensity. exact H.
Qed.

(** X4. The settings panel remembers a pinned density across the auto
    switch. After the density slider is set to [d], and whatever other
    controls are used next, switching auto-density on sends a config
    without density and switching it off sends density [d] again. On a
    panel whose density was never set, switching auto off sends 0.5. *)
Theorem density_pin_survives_auto
    (c : SettingsController) (d : Q) (others : list InputTarget) :
  Forall notDensityInput others →
  density (handleInputChange (RangeTarget IdDensity d) c).2 = Some d ∧
  density
    (handleInputChange (CheckboxTarget IdAutoDensity true)
       (settingsRun others (handleInputChange (RangeTarget IdDensity d) c).1)).2
    = None ∧
  density
    (handleInputChange (CheckboxTarget IdAutoDensity false)
       (settingsRun others (handleInputChange (RangeTarget IdDensity d) c).1)).2
    = Some d ∧
  density
    (handleInputChange (CheckboxTarget IdAutoDensity false)
       (settingsRun others newSettingsController)).2
    = Some (1 # 2)%Q.
Proof.
  intros Hall. split; [reflexivity|]. split; [reflexivity|]. split.
  - cbn [handleInputChange snd fst config withDensity density].
    rewrite settingsRun_lastDefinedDensity by exact Hall. reflexivity.
  - cbn [handleInputChange snd fst config withDensity density].
    rewrite settingsRun_lastDefinedDensity by exact Hall. reflexivity.
Qed.

Lemma density_pin_survives_auto_witness :
  density
    (handleInputChange (CheckboxTarget IdAutoDensity false)
       (settingsRun [RangeTarget IdTemperature 2%Q;
                     CheckboxTarget IdAutoDensity true;
                     CheckboxTarget IdMuteBass true]
          (handleInputChange (RangeTarget IdDensity (3 # 4)%Q)
             newSettingsController).1)).2
    = Some (3 # 4)%Q.
Proof.
  destruct (density_pin_survives_auto newSettingsController (3 # 4)%Q
              [RangeTarget IdTemperature 2%Q;
               CheckboxTarget IdAutoDensity true;
               CheckboxTarget IdMuteBass true]) as (_ & _ & H & _).
  - repeat constructor.
  - exact H.
Defined.

(** X5. [resetToDefaults] and the first update of the panel send a config
    in which density and brightness are absent whenever the matching auto
    switch is on; after [resetToDefaults] both switches are on, the other
    fields are the defaults, and the config sent is the one the element
    pushes on reset. *)
Theorem settings_auto_means_absent (c : SettingsController) :
  (resetToDefaults c).2 = resetConfig ∧
  config (resetToDefaults c).1 = resetConfig ∧
  autoDensity (resetToDefaults c).1 = true ∧
  autoBrightness (resetToDefaults c).1 = true ∧
  (autoDensity c = true → density (settingsFirstUpdated c).2 = None) ∧
  (autoBrightness c = true → brightness (settingsFirstUpdated c).2 = None) ∧
  (autoDensity c = false →
   density (settingsFirstUpdated c).2 = Some (orHalf (lastDefinedDensity c))) ∧
  temperature (settingsFirstUpdated c).2 = temperature (config c) ∧
  (settingsFirstUpdated newSettingsController).2 = resetConfig.
Proof.
  repeat split; unfold settingsFirstUpdated; simpl; intros H; rewrite H;
    reflexivity.
Qed.

Lemma settings_auto_means_absent_witness :
  density (settingsFirstUpdated newSettingsController).2 = None.
Proof.
  destruct (settings_auto_means_absent newSettingsController)
    as (_ & _ & _ & _ & H & _).
  apply H. reflexivity.
Defined.

(** ** ToastMessage *)

(** X6. Two toasts shown one after the other: the timer of the first
    leaves the second on screen when the messages differ, and hides it
    when they are equal; the timer of the second hides it; a timer that
    fires on a hidden toast changes nothing. *)
Theorem toast_timer_hides_own_message (t : ToastMessage) (m1 m2 : string) :
  (m1 ≠ m2 →
   hideIfStill m1 (show m2 (show m1 t).1).1 = (show m2 (show m1 t).1).1) ∧
  (m1 = m2 →
   showing (hideIfStill m1 (show m2 (show m1 t).1).1) = false) ∧
  hideIfStill m2 (show m2 (show m1 t).1).1 = mkToastMessage m2 false ∧
  (show m2 (show m1 t).1).2 = (m2, 6000) ∧
  (∀ m, hideIfStill m (hide t) = hide t).
Proof.
  unfold hideIfStill, show, hide. simpl. repeat split.
  - intros Hne. destruct (String.eqb m2 m1) eqn:E; [|reflexivity].
    apply String.eqb_eq in E. congruence.
  - intros ->. rewrite String.eqb_refl. reflexivity.
  - rewrite String.eqb_refl. reflexivity.
Qed.

Lemma toast_timer_hides_own_message_witness :
  showing
    (hideIfStill "Cannot play: Audio system not ready."
       (show "Music all fresh and new!"
          (show "Cannot play: Audio system not ready."
             (mkToastMessage "" false)).1).1)
  = true.
Proof.
  destruct (toast_timer_hides_own_message (mkToastMessage "" false)
              "Cannot play: Audio system not ready."
              "Music all fresh and new!") as (H & _).
  rewrite H; [reflexivity | discriminate].
Defined.

(** ** The palette *)

Lemma pick_in (r : Q) (arr : list string) :
  (0 <= r)%Q → (r < 1)%Q → arr ≠ [] → pick r arr ∈ arr.
Proof.
  intros H0 H1 Hne. unfold pick.
  set (n := Z.of_nat (length arr)).
  assert (Hn : 0 < n).
  { subst n. destruct arr; [contradiction | simpl; lia]. }
  assert (HnQ : (inject_Z 0 < inject_Z n)%Q) by (rewrite <- Zlt_Qlt; exact Hn).
  change (inject_Z 0) with 0%Q in HnQ.
  assert (Hlo : 0 ≤ Qfloor (r * inject_Z n)).
  { change 0 with (Qfloor 0). apply Qfloor_resp_le. nra. }
  assert (Hhi : Qfloor (r * inject_Z n) < n).
  { rewrite Zlt_Qlt. apply Qle_lt_trans with (r * inject_Z n)%Q;
      [apply Qfloor_le | nra]. }
  apply list_elem_of_In, nth_In. subst n. lia.
Qed.

(** X7. [getUnusedRandomColor], with [Math.random()] in [0, 1): the color
    returned is one of the palette, and as long as some color of the
    palette is not in use the color returned is not in use. *)
Theorem unused_color_is_unused (usedColors : list string) (r : Q) :
  (0 <= r)%Q → (r < 1)%Q →
  getUnusedRandomColor usedColors r ∈ COLORS ∧
  ((∃ c, c ∈ COLORS ∧ c ∉ usedColors) →
   getUnusedRandomColor usedColors r ∉ usedColors).
Proof.
  intros H0 H1. unfold getUnusedRandomColor.
  set (available := List.filter (λ c, negb (bool_decide (c ∈ usedColors))) COLORS).
  assert (Hav : ∀ c, c ∈ available ↔ c ∈ COLORS ∧ c ∉ usedColors).
  { intros c. subst available.
    rewrite !list_elem_of_In, filter_In, negb_true_iff, bool_decide_eq_false,
      <- !list_elem_of_In. reflexivity. }
  destruct (length available =? 0)%nat eqn:E.
  - apply Nat.eqb_eq in E. split; [apply pick_in; [assumption..|discriminate]|].
    intros (c & Hc). apply Hav in Hc.
    destruct available; [inversion Hc | discriminate E].
  - apply Nat.eqb_neq in E.
    assert (Hp : pick r available ∈ available).
    { apply pick_in; [assumption..|]. intros ->. apply E. reflexivity. }
    apply Hav in Hp. split; [apply Hp | intros _; apply Hp].
Qed.

Lemma unused_color_is_unused_witness :
  getUnusedRandomColor ["#FF6384"; "#FFCD56"] (1 # 4)%Q
    ∉ ["#FF6384"; "#FFCD56"].
Proof.
  destruct (unused_color_is_unused ["#FF6384"; "#FFCD56"] (1 # 4)%Q)
    as [_ H].
  - discriminate.
  - reflexivity.
  - apply H. exists "#4BC0C0". split.
    + apply list_elem_of_In. simpl. tauto.
    + rewrite list_elem_of_In. simpl. intuition discriminate.
Defined.

(** ** Loss of the connection *)

Ltac in_log := rewrite ?list_elem_of_In; simpl; intuition (discriminate || congruence).

(** X8. The error callback, and the close callback on an unclean close,
    in any state of the element: the error flag is set, the element is
    [paused] with its horizon at 0, exactly one notice is shown, the
    session is kept and no call is made on it (the flag is set before the
    pause path looks at it). A clean close changes nothing and shows
    nothing. *)
Theorem connection_loss_pauses (st : PromptDj) (env : Env) :
  (connectionError (stateOf (onerror env st)) = true ∧
   playbackState (stateOf (onerror env st)) = paused ∧
   nextStartTime (stateOf (onerror env st)) = 0%Q ∧
   session (stateOf (onerror env st)) = session st ∧
   toasts (effectsOf (onerror env st)) =
     ["Oh no! Lost connection to the music magic. Try playing again."] ∧
   existsb isSessionCall (effectsOf (onerror env st)) = false) ∧
  (connectionError (stateOf (onclose false env st)) = true ∧
   playbackState (stateOf (onclose false env st)) = paused ∧
   nextStartTime (stateOf (onclose false env st)) = 0%Q ∧
   session (stateOf (onclose false env st)) = session st ∧
   toasts (effectsOf (onclose false env st)) =
     ["Music magic connection closed. Please try playing again."] ∧
   existsb isSessionCall (effectsOf (onclose false env st)) = false) ∧
  onclose true env st = (Done tt, st, [Console Log "Connection closed."]).
Proof.
  unfold onerror, onclose, pauseAudio, healthy. run_monad.
  destruct (session st) eqn:Es; simpl;
    destruct (audioContext st) as [[]|]; simpl; repeat split; exact Es.
Qed.

(** ** The play button *)

Lemma pauseAudio_exact env st :
  pauseAudio env st =
    (Done tt, set_nextStartTime 0%Q (set_playbackState paused st),
     match healthy st with
     | Some s =>
         SessionPause s ::
         (if pauseThrows env then [Console Warn "Error pausing session:"] else [])
     | None => []
     end ++
     match audioContext st with
     | Some running =>
         [GainHoldAt (currentTime env);
          GainLinearRampToValueAtTime 0 (currentTime env + (1 # 10))%Q]
     | _ => []
     end).
Proof.
  unfold pauseAudio. run_monad.
  destruct (healthy st); simpl; [destruct (pauseThrows env); simpl|];
    destruct (audioContext st) as [[]|]; reflexivity.
Qed.

(** [handlePlayPause] once it has looked after the audio context. *)
Lemma handlePlayPause_ready st env ctx :
  audioContext st = Some ctx → ctx ≠ closed →
  (ctx = suspended → resumeRejects env = false) →
  handlePlayPause env st =
    (let st0 := match ctx with
                | suspended => set_audioContext (Some running) st
                | _ => st
                end in
     let r :=
       match playbackState st with
       | playing | loading => pauseAudio env st0
       | _ =>
           match healthy st with
           | Some _ => loadAudio env st0
           | None =>
               (connectToSession env ;;
                failed ← gets connectionError;
                if failed : bool then ret tt else loadAudio env) st0
           end
       end in
     (outcomeOf r, stateOf r,
      match ctx with suspended => [AudioContextResume] | _ => [] end
      ++ effectsOf r)).
Proof.
  intros Hctx Hopen Hres.
  unfold handlePlayPause, initializeAudioContext, resumeIfSuspended.
  run_monad. rewrite Hctx. destruct ctx; try done; simpl;
    repeat (rewrite Hctx; simpl);
    try (rewrite (Hres eq_refl); simpl).
  all: destruct (playbackState st); simpl.
  all: try (unfold healthy at 1; simpl; fold (healthy st);
            destruct (healthy st); simpl).
  all: repeat match goal with
       | |- context [pauseAudio ?e ?s] =>
           destruct (pauseAudio e s) as [[[[] | ?] ?] ?]; simpl
       | |- context [connectToSession ?e ?s] =>
           destruct (connectToSession e s) as [[[[] | ?] ?] ?]; simpl
       | |- context [if connectionError ?s then _ else _] =>
           destruct (connectionError s); simpl
       | |- context [loadAudio ?e ?s] =>
           destruct (loadAudio e s) as [[[[] | ?] ?] ?]; simpl
       end.
  all: reflexivity.
Qed.

Lemma loadAudio_exact env st s :
  healthy st = Some s →
  audioContext st = Some running →
  loadAudio env st =
    match playThrows env with
    | None =>
        (Done tt, set_playbackState loading st,
         [SessionPlay s;
          GainSetValueAtTime 0 (currentTime env);
          GainLinearRampToValueAtTime 1 (currentTime env + (2 # 10))%Q])
    | Some msg =>
        (Done tt, set_playbackState paused st,
         [SessionPlay s; ToastShow ("Couldn't play: " +:+ msg)])
    end.
Proof.
  intros Hh Hctx. unfold loadAudio, fadeIn. run_monad. rewrite Hctx, Hh. simpl.
  destruct (playThrows env); simpl; [reflexivity|]. rewrite Hctx. reflexivity.
Qed.

(** X9. The play button while the element is [playing] or [loading], the
    audio context being usable: the element takes the pause path. It ends
    [paused] with its horizon at 0; a pause command goes to the session
    when it is healthy and no call at all is made on it otherwise; no play
    command is sent and no connection is attempted. *)
Theorem play_button_pauses (st : PromptDj) (env : Env) (ctx : AudioContextState) :
  playbackState st = playing ∨ playbackState st = loading →
  audioContext st = Some ctx → ctx ≠ closed →
  (ctx = suspended → resumeRejects env = false) →
  playbackState (stateOf (handlePlayPause env st)) = paused ∧
  nextStartTime (stateOf (handlePlayPause env st)) = 0%Q ∧
  outcomeOf (handlePlayPause env st) = Done tt ∧
  (∀ s, healthy st = Some s →
        List.filter isSessionCall (effectsOf (handlePlayPause env st))
          = [SessionPause s]) ∧
  (healthy st = None →
   existsb isSessionCall (effectsOf (handlePlayPause env st)) = false) ∧
  toasts (effectsOf (handlePlayPause env st)) = [].
Proof.
  intros Hps Hctx Hopen Hres.
  rewrite (handlePlayPause_ready st env ctx Hctx Hopen Hres).
  assert (Hh : healthy (match ctx with
                        | suspended => set_audioContext (Some running) st
                        | _ => st
                        end) = healthy st) by (destruct ctx; reflexivity).
  assert (Hc : audioContext (match ctx with
                             | suspended => set_audioContext (Some running) st
                             | _ => st
                             end) = Some running)
    by (destruct ctx; try done).
  cbv zeta.
  destruct Hps as [-> | ->]; rewrite pauseAudio_exact, Hh, Hc;
    cbn [stateOf effectsOf outcomeOf fst snd];
    (split; [reflexivity|]); (split; [reflexivity|]); (split; [reflexivity|]);
    (split; [|split]).
  all: try (intros s ->); try (intros ->).
  all: destruct ctx; try done; simpl; try destruct (healthy st); simpl;
       try destruct (pauseThrows env); reflexivity.
Qed.

Lemma play_button_pauses_witness :
  playbackState (stateOf (handlePlayPause sampleEnv samplePlaying)) = paused ∧
  nextStartTime (stateOf (handlePlayPause sampleEnv samplePlaying)) = 0%Q ∧
  List.filter isSessionCall (effectsOf (handlePlayPause sampleEnv samplePlaying))
    = [SessionPause (mkSession 1)].
Proof.
  destruct (play_button_pauses samplePlaying sampleEnv running)
    as (Hp & Hn & _ & Hs & _).
  - left. reflexivity.
  - reflexivity.
  - discriminate.
  - intros _. reflexivity.
  - split; [exact Hp|]. split; [exact Hn|]. apply Hs. reflexivity.
Defined.

(** X10. The play button while the element is [stopped] or [paused] on a
    healthy session, the audio context being usable: the play command goes
    to the session without any probe, close or connection attempt. When
    the command goes through the element is [loading], with its horizon
    unchanged; when it throws the element is [paused] and a notice carries
    the message. *)
Theorem play_on_healthy_session
    (st : PromptDj) (env : Env) (s : LiveMusicSession) (ctx : AudioContextState) :
  playbackState st = stopped ∨ playbackState st = paused →
  healthy st = Some s →
  audioContext st = Some ctx → ctx ≠ closed →
  (ctx = suspended → resumeRejects env = false) →
  List.filter isSessionCall (effectsOf (handlePlayPause env st))
    = [SessionPlay s] ∧
  nextStartTime (stateOf (handlePlayPause env st)) = nextStartTime st ∧
  healthy (stateOf (handlePlayPause env st)) = Some s ∧
  (playThrows env = None →
   playbackState (stateOf (handlePlayPause env st)) = loading ∧
   toasts (effectsOf (handlePlayPause env st)) = []) ∧
  (∀ msg, playThrows env = Some msg →
   playbackState (stateOf (handlePlayPause env st)) = paused ∧
   toasts (effectsOf (handlePlayPause env st)) = ["Couldn't play: " +:+ msg]).
Proof.
  intros Hps Hh Hctx Hopen Hres.
  rewrite (handlePlayPause_ready st env ctx Hctx Hopen Hres).
  set (st0 := match ctx with
              | suspended => set_audioContext (Some running) st
              | _ => st
              end).
  assert (Hh0 : healthy st0 = Some s) by (subst st0; destruct ctx; exact Hh).
  assert (Hc0 : audioContext st0 = Some running)
    by (subst st0; destruct ctx; try done).
  assert (Hn0 : nextStartTime st0 = nextStartTime st)
    by (subst st0; destruct ctx; reflexivity).
  cbv zeta. rewrite Hh.
  destruct Hps as [-> | ->]; rewrite (loadAudio_exact env st0 s Hh0 Hc0);
    destruct (playThrows env) as [msg|];
    cbn [stateOf effectsOf outcomeOf fst snd].
  all: split; [destruct ctx; try done; reflexivity|].
  all: split; [exact Hn0|].
  all: split; [exact Hh0|].
  all: split; [intros H; try discriminate H | intros m H; try discriminate H].
  all: try (injection H as <-).
  all: split; [reflexivity|]; destruct ctx; try done; reflexivity.
Qed.

Lemma play_on_healthy_session_witness :
  playbackState
    (stateOf (handlePlayPause sampleEnv (set_playbackState paused samplePlaying)))
    = loading ∧
  List.filter isSessionCall
    (effectsOf (handlePlayPause sampleEnv (set_playbackState paused samplePlaying)))
    = [SessionPlay (mkSession 1)].
Proof.
  destruct (play_on_healthy_session (set_playbackState paused samplePlaying)
              sampleEnv (mkSession 1) running) as (Hs & _ & _ & Hok & _).
  - right. reflexivity.
  - reflexivity.
  - reflexivity.
  - discriminate.
  - intros _. reflexivity.
  - split; [apply Hok; reflexivity | exact Hs].
Defined.



(** ** More on the audio scheduler *)

Lemma onmessage_no_audio e env st :
  audioChunks e = None →
  onmessage e env st = (Done tt, dispatched e st, dispatchedLog e).
Proof.
  intros Hc. unfold onmessage, dispatched, dispatchedLog. rewrite Hc. run_monad.
  destruct (setupComplete e), (filteredPrompt e); reflexivity.
Qed.

Lemma scheduled_pauseAudio env st : scheduled (effectsOf (pauseAudio env st)) = [].
Proof.
  rewrite pauseAudio_exact. cbn [effectsOf snd]. rewrite scheduled_app.
  destruct (healthy st), (pauseThrows env), (audioContext st) as [[]|];
    reflexivity.
Qed.

Lemma onAudioChunks_scheduled chunks env st :
  scheduled (effectsOf (onAudioChunks chunks env st)) = [] ∨
  ∃ t d,
    scheduled (effectsOf (onAudioChunks chunks env st)) = [(t, d)] ∧
    (currentTime env <= t)%Q ∧
    decodedDuration env = Some d ∧
    (t = (currentTime env + bufferTime)%Q ∨ t = nextStartTime st).
Proof.
  pose proof (scheduled_pauseAudio env st) as Hp.
  unfold onAudioChunks. run_monad.
  destruct (playbackState st); simpl; try (left; reflexivity).
  all: destruct (audioContext st) as [[]|]; simpl.
  all: try (destruct (pauseAudio env st) as [[[[]|?] ?] ?]; simpl in *;
            left; exact Hp).
  all: destruct chunks as [|chunk rest]; simpl; try (left; reflexivity).
  all: destruct (decodedDuration env) as [d|]; simpl; try (left; reflexivity).
  all: destruct (Qis (nextStartTime st) 0) eqn:Ez; simpl.
  all: try (assert (Hge : Qltb (currentTime env + bufferTime) (currentTime env)
                          = false)
              by (apply Qltb_ge; unfold bufferTime; lra);
            rewrite Hge; simpl; right;
            exists (currentTime env + bufferTime)%Q, d;
            repeat split; [unfold bufferTime; lra | left; reflexivity]).
  all: destruct (Qltb (nextStartTime st) (currentTime env)) eqn:El; simpl; right.
  all: try (exists (currentTime env + bufferTime)%Q, d;
            repeat split; [unfold bufferTime; lra | left; reflexivity]).
  all: exists (nextStartTime st), d; apply Qltb_ge in El;
       repeat split; [exact El | right; reflexivity].
Qed.

(** X12. One inbound message, in any state of the element: at most one
    buffer is handed to [source.start]; its duration is that of the decoded
    buffer and its start is never before the device time read at that
    moment, being either the horizon the element had or device time plus
    [bufferTime]. *)
Theorem schedule_not_in_past
    (e : LiveMusicServerMessage) (env : Env) (st : PromptDj) :
  (length (scheduled (effectsOf (onmessage e env st))) ≤ 1)%nat ∧
  ∀ t d, (t, d) ∈ scheduled (effectsOf (onmessage e env st)) →
    (currentTime env <= t)%Q ∧
    decodedDuration env = Some d ∧
    (t = (currentTime env + bufferTime)%Q ∨ t = nextStartTime st).
Proof.
  destruct (audioChunks e) as [chunks|] eqn:Ec.
  - rewrite (onmessage_audio _ _ _ _ Ec). cbv zeta.
    change (effectsOf (?a, ?b, ?c)) with c.
    rewrite scheduled_app, scheduled_dispatchedLog. cbn [app].
    destruct (onAudioChunks_scheduled chunks env (dispatched e st))
      as [H | (t0 & d0 & H & Hle & Hd & Ht)]; rewrite H.
    + split; [simpl; lia|]. intros t d Hin. inversion Hin.
    + rewrite dispatched_nextStartTime in Ht.
      split; [simpl; lia|]. intros t d Hin.
      apply list_elem_of_In in Hin. simpl in Hin.
      destruct Hin as [[= <- <-] | []]. repeat split; assumption.
  - rewrite (onmessage_no_audio _ _ _ Ec). cbn [effectsOf snd].
    rewrite scheduled_dispatchedLog. split; [simpl; lia|].
    intros t d Hin. inversion Hin.
Qed.

Lemma schedule_not_in_past_witness :
  (currentTime (envAt 3) <= 5)%Q.
Proof.
  destruct (schedule_not_in_past audioMessage (envAt 3) samplePlaying)
    as [_ H].
  destruct (H 5%Q (1 # 2)%Q) as (Hle & _).
  - apply list_elem_of_In. left. reflexivity.
  - exact Hle.
Defined.

(** X13. A message with several audio chunks is handled as if it held the
    first one only: the other chunks are neither decoded nor scheduled. A
    message whose list of chunks is empty, on an element that wants audio,
    throws after the dispatch of its other signals, with nothing decoded
    and nothing scheduled. *)
Theorem only_first_chunk_is_played
    (e : LiveMusicServerMessage) (env : Env) (st : PromptDj)
    (chunk : AudioChunk) (rest : list AudioChunk) (ctx : AudioContextState) :
  (audioChunks e = Some (chunk :: rest) →
   onmessage e env st =
     onmessage (mkMessage (setupComplete e) (filteredPrompt e) (Some [chunk]))
       env st) ∧
  (audioChunks e = Some [] →
   playbackState st = loading ∨ playbackState st = playing →
   audioContext st = Some ctx → ctx ≠ closed →
   onmessage e env st = (Thrown "TypeError", dispatched e st, dispatchedLog e)).
Proof.
  split.
  - intros Hc. rewrite (onmessage_audio _ _ _ _ Hc).
    rewrite (onmessage_audio
               (mkMessage (setupComplete e) (filteredPrompt e) (Some [chunk]))
               env st [chunk] eq_refl).
    unfold dispatched, dispatchedLog. simpl. reflexivity.
  - intros Hc Hps Hctx Hopen. rewrite (onmessage_audio _ _ _ _ Hc).
    assert (H : onAudioChunks [] env (dispatched e st)
                = (Thrown "TypeError", dispatched e st, [])).
    { unfold onAudioChunks. run_monad.
      rewrite dispatched_playbackState.
      destruct Hps as [-> | ->]; simpl;
        rewrite dispatched_audioContext, Hctx; destruct ctx; try done. }
    rewrite H. cbn [stateOf effectsOf outcomeOf fst snd].
    rewrite app_nil_r. reflexivity.
Qed.

Lemma only_first_chunk_is_played_witness :
  onmessage (mkMessage false None
               (Some [mkAudioChunk "UklGRg=="; mkAudioChunk "AAAA"]))
    sampleEnv samplePlaying
  = onmessage audioMessage sampleEnv samplePlaying.
Proof.
  destruct (only_first_chunk_is_played
              (mkMessage false None
                 (Some [mkAudioChunk "UklGRg=="; mkAudioChunk "AAAA"]))
              sampleEnv samplePlaying (mkAudioChunk "UklGRg==")
              [mkAudioChunk "AAAA"] running) as [H _].
  exact (H eq_refl).
Defined.

(** ** More on the connection *)

Lemma connectToSession_unhealthy env st ctx :
  healthy st = None → audioContext st = Some ctx →
  connectToSession env st = reconnect env st.
Proof.
  intros Hh Hctx. destruct (reconnect env st) as [[o st'] l] eqn:E.
  unfold connectToSession, reconnect in *. run_monad.
  rewrite Hctx, Hh. simpl. rewrite E. reflexivity.
Qed.

Lemma connectToSession_probe_fails env st s ctx :
  healthy st = Some s → audioContext st = Some ctx → probeThrows env = true →
  connectToSession env st =
    (outcomeOf (reconnect env st), stateOf (reconnect env st),
     [SessionSetMusicGenerationConfig s emptyConfig;
      Console Warn "Session check failed, reconnecting."]
     ++ effectsOf (reconnect env st)).
Proof.
  intros Hh Hctx Hp. destruct (reconnect env st) as [[o st'] l] eqn:E.
  unfold connectToSession, reconnect in *. run_monad.
  rewrite Hctx, Hh. simpl. rewrite Hp. simpl. rewrite E. reflexivity.
Qed.

(** [reconnect], case by case. *)
Lemma reconnect_exact env st :
  reconnect env st =
    match connectResult env with
    | None =>
        (Done tt,
         set_playbackState stopped (set_connectionError true
           (set_playbackState loading st)),
         closeLog env st ++ Connect :: connectFailureLog)
    | Some s =>
        let r := setSessionPrompts env
                   (set_connectionError false (set_session (Some s)
                      (set_playbackState loading st))) in
        match settingsController st, setMusicGenerationConfigThrows env with
        | Some cfg, Some _ =>
            (Done tt,
             set_playbackState stopped (set_connectionError true (stateOf r)),
             closeLog env st ++ Connect :: effectsOf r ++
             SessionSetMusicGenerationConfig s cfg :: connectFailureLog)
        | Some cfg, None =>
            (Done tt, stateOf r,
             closeLog env st ++ Connect :: effectsOf r ++
             [SessionSetMusicGenerationConfig s cfg])
        | None, _ =>
            (Done tt, stateOf r, closeLog env st ++ Connect :: effectsOf r)
        end
    end.
Proof.
  unfold reconnect, closeLog, connectFailureLog. run_monad.
  destruct (session st) as [s0|] eqn:Es; [destruct (closeThrows env)|]; simpl.
  all: destruct (connectResult env) as [s|]; simpl; [|reflexivity].
  all: match goal with
       | |- context [setSessionPrompts ?e ?s1] =>
           destruct (setSessionPrompts_frame' e s1)
             as (st' & l & Heq & _ & _ & _ & Hsc & _)
       end;
       rewrite Heq; simpl in Hsc |- *; rewrite Hsc.
  all: destruct (settingsController st) as [cfg|]; simpl;
       [destruct (setMusicGenerationConfigThrows env); simpl|].
  all: rewrite ?app_nil_r, <- ?app_assoc; reflexivity.
Qed.

Lemma setSessionPrompts_pushes st env s :
  healthy st = Some s →
  250 ≤ dateNow env - setSessionPrompts_lastCall st →
  pushes (effectsOf (setSessionPrompts env st)) = [promptsToSend st].
Proof.
  intros Hh Hd. unfold setSessionPrompts.
  rewrite throttle_accepts by exact Hd.
  unfold setSessionPromptsBody. run_monad. rewrite Hh. simpl.
  destruct (setWeightedPromptsThrows env) as [msg|]; simpl; [|reflexivity].
  destruct (pauseAudio_result env st) as (l & -> & Hl & _). simpl.
  rewrite app_nil_r, Hl. reflexivity.
Qed.

Lemma pushes_closeLog env st : pushes (closeLog env st) = [].
Proof. unfold closeLog. destruct (session st), (closeThrows env); reflexivity. Qed.

(** X14. A reconnection that opens a new session sends the weighted
    prompts to it through the throttled channel: they are sent, as one
    push of the active prompts, when 250 ms have passed since the last
    accepted push, and are not sent at all otherwise. The current config
    of the settings panel is sent in both cases. *)
Theorem reconnect_repush_is_throttled
    (st : PromptDj) (env : Env) (ctx : AudioContextState) (s : LiveMusicSession) :
  healthy st = None →
  audioContext st = Some ctx →
  connectResult env = Some s →
  session (stateOf (connectToSession env st)) = Some s ∧
  (dateNow env - setSessionPrompts_lastCall st < 250 →
   pushes (effectsOf (connectToSession env st)) = []) ∧
  (250 ≤ dateNow env - setSessionPrompts_lastCall st →
   pushes (effectsOf (connectToSession env st)) = [promptsToSend st]) ∧
  (∀ cfg, settingsController st = Some cfg →
   SessionSetMusicGenerationConfig s cfg ∈ effectsOf (connectToSession env st)).
Proof.
  intros Hh Hctx Hc.
  rewrite (connectToSession_unhealthy env st ctx Hh Hctx), reconnect_exact, Hc.
  set (st1 := set_connectionError false (set_session (Some s)
                (set_playbackState loading st))).
  destruct (setSessionPrompts_frame' env st1)
    as (st2 & l & Heq & Hs & _).
  assert (Hh1 : healthy st1 = Some s) by reflexivity.
  assert (Hdrop : dateNow env - setSessionPrompts_lastCall st < 250 →
                  pushes l = []).
  { intros Hd. revert Heq. unfold setSessionPrompts.
    rewrite throttle_drops by exact Hd. intros [= <- <-]. reflexivity. }
  assert (Hacc : 250 ≤ dateNow env - setSessionPrompts_lastCall st →
                 pushes l = [promptsToSend st]).
  { intros Hd. pose proof (setSessionPrompts_pushes st1 env s Hh1 Hd) as H.
    rewrite Heq in H. exact H. }
  cbv zeta. rewrite Heq. cbn [stateOf effectsOf fst snd].
  destruct (settingsController st) as [cfg|];
    [destruct (setMusicGenerationConfigThrows env)|];
    cbn [stateOf effectsOf fst snd].
  all: split; [exact Hs|].
  all: split; [intros Hd; rewrite pushes_app, pushes_closeLog; simpl;
                 rewrite ?pushes_app, (Hdrop Hd); reflexivity|].
  all: split; [intros Hd; rewrite pushes_app, pushes_closeLog; simpl;
                 rewrite ?pushes_app, (Hacc Hd); reflexivity|].
  all: intros cfg' Hcfg; try discriminate Hcfg; injection Hcfg as <-.
  all: rewrite elem_of_app, elem_of_cons, elem_of_app, elem_of_cons; tauto.
Qed.

Lemma reconnect_repush_is_throttled_witness :
  pushes (effectsOf (connectToSession sampleEnv
                       (writeLastCall SetSessionPromptsSlot 900 samplePausedBroken)))
    = [] ∧
  pushes (effectsOf (connectToSession sampleEnv samplePausedBroken))
    = [promptsToSend samplePausedBroken].
Proof.
  split.
  - destruct (reconnect_repush_is_throttled
                (writeLastCall SetSessionPromptsSlot 900 samplePausedBroken)
                sampleEnv running (mkSession 2)) as (_ & H & _).
    + reflexivity.
    + reflexivity.
    + reflexivity.
    + apply H. reflexivity.
  - destruct (reconnect_repush_is_throttled samplePausedBroken
                sampleEnv running (mkSession 2)) as (_ & _ & H & _).
    + reflexivity.
    + reflexivity.
    + reflexivity.
    + apply H. vm_compute. discriminate.
Defined.

(** X15. [connectToSession] on an element that holds a session, when no
    error-free session is there or the liveness probe throws: the session
    held is closed once, then one connection is attempted, also when the
    close throws; nothing else is closed or opened. *)
Theorem replace_closes_first
    (st : PromptDj) (env : Env) (s : LiveMusicSession) (ctx : AudioContextState) :
  session st = Some s →
  audioContext st = Some ctx →
  healthy st = None ∨ probeThrows env = true →
  ∃ l1 l3,
    effectsOf (connectToSession env st) =
      l1 ++ SessionClose s ::
      (if closeThrows env
       then [Console Warn "Error closing existing session:"] else [])
      ++ Connect :: l3 ∧
    existsb isReconnect l1 = false ∧
    existsb isReconnect l3 = false.
Proof.
  intros Hs Hctx Hcase.
  assert (Hre : ∃ l3, effectsOf (reconnect env st) =
                  SessionClose s ::
                  (if closeThrows env
                   then [Console Warn "Error closing existing session:"] else [])
                  ++ Connect :: l3 ∧ existsb isReconnect l3 = false).
  { rewrite reconnect_exact. unfold closeLog. rewrite Hs.
    destruct (connectResult env) as [s'|]; [|eexists; split; reflexivity].
    cbv zeta.
    match goal with
    | |- context [setSessionPrompts ?e ?s1] =>
        destruct (setSessionPrompts_frame' e s1)
          as (st2 & l & Heq & _ & _ & _ & _ & _ & Hl & _)
    end.
    rewrite Heq.
    destruct (settingsController st) as [cfg|];
      [destruct (setMusicGenerationConfigThrows env)|];
      cbn [stateOf effectsOf fst snd]; eexists;
      (split; [reflexivity|]); rewrite ?existsb_app, Hl; reflexivity. }
  destruct Hre as (l3 & Hl3 & Hr3).
  destruct (healthy st) as [s0|] eqn:Hh.
  - destruct Hcase as [Hn | Hp]; [discriminate Hn|].
    rewrite (connectToSession_probe_fails env st s0 ctx Hh Hctx Hp).
    change (effectsOf (?a, ?b, ?c)) with c. rewrite Hl3.
    eexists _, l3. split; [reflexivity|]. split; [reflexivity | exact Hr3].
  - rewrite (connectToSession_unhealthy env st ctx Hh Hctx).
    exists [], l3. split; [exact Hl3|]. split; [reflexivity | exact Hr3].
Qed.

Lemma replace_closes_first_witness :
  ∃ l3,
    effectsOf (connectToSession sampleEnv samplePausedBroken) =
      SessionClose (mkSession 1) :: Connect :: l3 ∧
    existsb isReconnect l3 = false.
Proof.
  destruct (replace_closes_first samplePausedBroken sampleEnv (mkSession 1)
              running) as (l1 & l3 & H & H1 & H3).
  - reflexivity.
  - reflexivity.
  - left. reflexivity.
  - vm_compute in H. destruct l1 as [|e l1].
    + injection H as H. exists l3. split; [|exact H3].
      vm_compute. rewrite H. reflexivity.
    + exfalso. injection H as He H. subst e. discriminate H1.
Defined.

(** ** The reset button *)

(** X16. The reset button on a healthy session, the audio context being
    usable and the settings panel present: the element is [paused] with its
    horizon at 0, the filtered set is empty, the panel is back to its
    defaults, and the session receives, in this order, a pause, a context
    reset and, when the throttle of the settings channel lets it through,
    the default config; no connection is attempted, and the closing notice
    is armed for 500 ms later. A context reset that throws is reported and
    does not stop the rest. *)
Theorem reset_on_healthy_session
    (st : PromptDj) (env : Env) (s : LiveMusicSession) (ctx : AudioContextState)
    (cfg : LiveMusicGenerationConfig) :
  healthy st = Some s →
  audioContext st = Some ctx → ctx ≠ closed →
  (ctx = suspended → resumeRejects env = false) →
  settingsController st = Some cfg →
  outcomeOf (handleReset env st) = Done tt ∧
  filteredPrompts (stateOf (handleReset env st)) = ∅ ∧
  playbackState (stateOf (handleReset env st)) = paused ∧
  nextStartTime (stateOf (handleReset env st)) = 0%Q ∧
  settingsController (stateOf (handleReset env st)) = Some resetConfig ∧
  prompts (stateOf (handleReset env st)) = prompts st ∧
  List.filter isSessionCall (effectsOf (handleReset env st)) =
    SessionPause s :: SessionResetContext s ::
    (if 250 <=? dateNow env - updateSettings_lastCall st
     then [SessionSetMusicGenerationConfig s resetConfig] else []) ∧
  SetTimeout ResetToast 500 ∈ effectsOf (handleReset env st) ∧
  (∀ msg, resetContextThrows env = Some msg →
          "Could not reset music context: " +:+ msg
            ∈ toasts (effectsOf (handleReset env st))).
Proof.
  intros Hh Hctx Hopen Hres Hsc.
  unfold handleReset, initializeAudioContext, resumeIfSuspended,
    onSettingsChanged, updateSettings, throttle, updateSettingsBody.
  run_monad. rewrite Hctx.
  assert (Hs : session st = Some s ∧ connectionError st = false).
  { unfold healthy in Hh. destruct (session st), (connectionError st);
      try discriminate Hh. injection Hh as ->. split; reflexivity. }
  destruct Hs as [Hs Hce].
  destruct ctx; try done; simpl; repeat (rewrite Hctx; simpl);
    try (rewrite (Hres eq_refl); simpl).
  all: unfold healthy; simpl; rewrite Hs, Hce; simpl.
  all: rewrite pauseAudio_exact; simpl; rewrite Hs, ?Hctx; simpl.
  all: unfold healthy; simpl; rewrite Hs, Hce; simpl.
  all: destruct (resetContextThrows env) as [m|]; simpl; rewrite Hsc; simpl.
  all: destruct (250 <=? dateNow env - updateSettings_lastCall st); simpl;
       rewrite ?Hs, ?Hce; simpl.
  all: try (destruct (setMusicGenerationConfigThrows env); simpl).
  all: destruct (pauseThrows env); simpl.
  all: repeat split; try (intros ? [= <-]); try (intros ? [=]); in_log.
Qed.

Lemma reset_on_healthy_session_witness :
  filteredPrompts
    (stateOf (handleReset sampleEnv
                (stateOf (onmessage (filteredMessage "Sleepy Lullaby")
                            sampleEnv samplePlaying))))
    = ∅ ∧
  playbackState
    (stateOf (handleReset sampleEnv
                (stateOf (onmessage (filteredMessage "Sleepy Lullaby")
                            sampleEnv samplePlaying))))
    = paused.
Proof.
  destruct (reset_on_healthy_session
              (stateOf (onmessage (filteredMessage "Sleepy Lullaby")
                          sampleEnv samplePlaying))
              sampleEnv (mkSession 1) running defaultConfig)
    as (_ & Hf & Hp & _).
  - reflexivity.
  - reflexivity.
  - discriminate.
  - intros _. reflexivity.
  - reflexivity.
  - split; [exact Hf | exact Hp].
Defined.

(** ** Start-up *)

Lemma setSessionPrompts_succeeds st env s :
  healthy st = Some s →
  setWeightedPromptsThrows env = None →
  250 ≤ dateNow env - setSessionPrompts_lastCall st →
  setSessionPrompts env st =
    (Done tt, writeLastCall SetSessionPromptsSlot (dateNow env) st,
     [SessionSetWeightedPrompts s (promptsToSend st)]).
Proof.
  intros Hh Ht Hd. unfold setSessionPrompts.
  rewrite throttle_accepts by exact Hd.
  unfold setSessionPromptsBody. run_monad. rewrite Hh. simpl. rewrite Ht.
  reflexivity.
Qed.

Lemma handlePlayPause_pauses st env ctx :
  playbackState st = playing ∨ playbackState st = loading →
  audioContext st = Some ctx → ctx ≠ closed →
  (ctx = suspended → resumeRejects env = false) →
  ∃ l,
    handlePlayPause env st =
      (Done tt,
       set_nextStartTime 0%Q (set_playbackState paused
         (set_audioContext (Some running) st)), l) ∧
    List.filter isSessionCall l =
      match healthy st with Some s => [SessionPause s] | None => [] end.
Proof.
  intros Hps Hctx Hopen Hres.
  rewrite (handlePlayPause_ready st env ctx Hctx Hopen Hres). cbv zeta.
  assert (Hst : match ctx with
                | suspended => set_audioContext (Some running) st
                | _ => st
                end = set_audioContext (Some running) st).
  { destruct ctx; try done. destruct st; simpl in *; subst; reflexivity. }
  rewrite Hst.
  destruct Hps as [-> | ->]; rewrite pauseAudio_exact;
    cbn [stateOf effectsOf outcomeOf fst snd];
    (eexists; split; [reflexivity|]);
    change (healthy (set_audioContext (Some running) st)) with (healthy st);
    destruct ctx; try done; simpl;
    destruct (healthy st); simpl; try destruct (pauseThrows env); reflexivity.
Qed.

(** X17. Start-up on a newly constructed element whose connection and
    pushes all go through: [firstUpdated] opens a session, sends the
    active prompts once (its own second call of [setSessionPrompts], made
    within 250 ms, is dropped by the throttle) and the config of the
    settings panel twice, and leaves the element [loading] although no
    play was asked for. The first press on the play button then takes the
    pause path: the session receives a pause and no play, and the element
    is [paused]. *)
Theorem startup_leaves_loading
    (ps : list (string * Prompt)) (c : AudioContextState)
    (sc : option LiveMusicGenerationConfig)
    (env env2 : Env) (later : Z) (s : LiveMusicSession) :
  c ≠ closed →
  connectResult env = Some s →
  setWeightedPromptsThrows env = None →
  setMusicGenerationConfigThrows env = None →
  250 ≤ dateNow env →
  later - dateNow env < 250 →
  (c = suspended → resumeRejects env2 = false) →
  healthy (stateOf (firstUpdated later env (newPromptDj ps (Some c) sc)))
    = Some s ∧
  playbackState (stateOf (firstUpdated later env (newPromptDj ps (Some c) sc)))
    = loading ∧
  nextStartTime (stateOf (firstUpdated later env (newPromptDj ps (Some c) sc)))
    = 0%Q ∧
  List.filter isSessionCall
    (effectsOf (firstUpdated later env (newPromptDj ps (Some c) sc)))
    = Connect ::
      SessionSetWeightedPrompts s (promptsToSend (newPromptDj ps (Some c) sc)) ::
      match sc with
      | Some cfg => [SessionSetMusicGenerationConfig s cfg;
                     SessionSetMusicGenerationConfig s cfg]
      | None => []
      end ∧
  playbackState
    (stateOf (handlePlayPause env2
                (stateOf (firstUpdated later env (newPromptDj ps (Some c) sc)))))
    = paused ∧
  List.filter isSessionCall
    (effectsOf (handlePlayPause env2
                  (stateOf (firstUpdated later env (newPromptDj ps (Some c) sc)))))
    = [SessionPause s].
Proof.
  intros Hopen Hc Hw Hg Hnow Hlater Hres.
  set (st0 := newPromptDj ps (Some c) sc).
  set (st1 := writeLastCall SetSessionPromptsSlot (dateNow env)
                (set_connectionError false (set_session (Some s)
                   (set_playbackState loading st0)))).
  assert (Hconn : connectToSession env st0 =
            (Done tt, st1,
             Connect :: SessionSetWeightedPrompts s (promptsToSend st0) ::
             match sc with
             | Some cfg => [SessionSetMusicGenerationConfig s cfg]
             | None => []
             end)).
  { rewrite (connectToSession_unhealthy env st0 c eq_refl eq_refl),
      reconnect_exact, Hc. cbv zeta.
    rewrite (setSessionPrompts_succeeds
               (set_connectionError false (set_session (Some s)
                  (set_playbackState loading st0))) env s eq_refl Hw)
      by (simpl; lia).
    change (settingsController st0) with sc. rewrite Hg.
    destruct sc; reflexivity. }
  assert (Hfirst : firstUpdated later env st0 =
            (Done tt, st1,
             Connect :: SessionSetWeightedPrompts s (promptsToSend st0) ::
             match sc with
             | Some cfg => [SessionSetMusicGenerationConfig s cfg;
                            SessionSetMusicGenerationConfig s cfg]
             | None => []
             end)).
  { unfold firstUpdated, initializeAudioContext. run_monad.
    destruct c; try done; simpl; rewrite Hconn; simpl;
      rewrite throttle_drops by (simpl; lia); simpl;
      destruct sc; simpl; rewrite ?Hg; reflexivity. }
  rewrite Hfirst. cbn [stateOf effectsOf outcomeOf fst snd].
  split; [reflexivity|]. split; [reflexivity|]. split; [reflexivity|].
  split; [destruct sc; reflexivity|].
  destruct (handlePlayPause_pauses st1 env2 c) as (l & -> & Hl);
    [right; reflexivity | reflexivity | exact Hopen | exact Hres |].
  cbn [stateOf effectsOf outcomeOf fst snd]. split; [reflexivity | exact Hl].
Qed.

Lemma startup_leaves_loading_witness :
  playbackState
    (stateOf (firstUpdated 1001 sampleEnv
                (newPromptDj samplePrompts (Some running) (Some defaultConfig))))
    = loading ∧
  playbackState
    (stateOf (handlePlayPause sampleEnv
                (stateOf (firstUpdated 1001 sampleEnv
                            (newPromptDj samplePrompts (Some running)
                               (Some defaultConfig))))))
    = paused.
Proof.
  destruct (startup_leaves_loading samplePrompts running (Some defaultConfig)
              sampleEnv sampleEnv 1001 (mkSession 2))
    as (_ & H1 & _ & _ & H2 & _).
  - discriminate.
  - reflexivity.
  - reflexivity.
  - reflexivity.
  - vm_compute. discriminate.
  - reflexivity.
  - intros _. reflexivity.
  - split; [exact H1 | exact H2].
Defined.

(** ** Properties kept by a handler *)

Section Preserves.
Variable I : PromptDj → Prop.

Lemma preserves_ret {A} (a : A) : preserves I (ret a).
Proof. intros st H. exact H. Qed.

Lemma preserves_throw {A} msg : preserves I (@throw A msg).
Proof. intros st H. exact H. Qed.

Lemma preserves_gets {A} (f : PromptDj → A) : preserves I (gets f).
Proof. intros st H. exact H. Qed.

Lemma preserves_emit e : preserves I (emit e).
Proof. intros st H. exact H. Qed.

Lemma preserves_toastShow m : preserves I (toastShow m).
Proof. intros st H. exact H. Qed.

Lemma preserves_modify f : (∀ st, I st → I (f st)) → preserves I (modify f).
Proof. intros Hf st H. apply Hf. exact H. Qed.

Lemma preserves_bind {A B} (m : M A) (f : A → M B) :
  preserves I m → (∀ a, preserves I (f a)) → preserves I (m ≫= f).
Proof.
  intros Hm Hf st H. specialize (Hm st H).
  unfold mbind, M_bind, bind, stateOf in *.
  destruct (m st) as [[[a | msg] st1] l1]; [|exact Hm].
  specialize (Hf a st1 Hm). unfold stateOf in Hf.
  destruct (f a st1) as [[r st2] l2]. exact Hf.
Qed.


Lemma preserves_try_catch {A} (m : M A) (h : string → M A) :
  preserves I m → (∀ msg, preserves I (h msg)) → preserves I (try_catch m h).
Proof.
  intros Hm Hh st H. specialize (Hm st H). unfold try_catch, stateOf in *.
  destruct (m st) as [[[a | msg] st1] l1]; [exact Hm|].
  specialize (Hh msg st1 Hm). unfold stateOf in Hh.
  destruct (h msg st1) as [[r st2] l2]. exact Hh.
Qed.

Lemma preserves_when b m : preserves I m → preserves I (when b m).
Proof. intros Hm. destruct b; [exact Hm | apply preserves_ret]. Qed.

Lemma preserves_call e throws : preserves I (call e throws).
Proof.
  unfold call. apply preserves_bind; [apply preserves_emit|].
  intros _. destruct throws; [apply preserves_throw | apply preserves_ret].
Qed.

Lemma preserves_throttle {A} slot (func : A → M unit) delay now args :
  (∀ v st, I st → I (writeLastCall slot v st)) →
  (∀ a, preserves I (func a)) →
  preserves I (throttle slot func delay now args).
Proof.
  intros Hw Hf. unfold throttle. apply preserves_bind; [apply preserves_gets|].
  intros lastCall. destruct (delay <=? now - lastCall); [|apply preserves_ret].
  apply preserves_bind; [apply Hf|]. intros _. apply preserves_modify.
  apply Hw.
Qed.
End Preserves.

Create HintDb preserves_db.

#[export] Hint Resolve preserves_ret preserves_throw preserves_gets
  preserves_emit preserves_toastShow preserves_call : preserves_db.

(** One step of the proof that a handler keeps a property; [side] proves
    that a field update keeps it. *)
Ltac preserves_step side :=
  first
    [ solve [auto 1 with preserves_db]
    | apply preserves_modify; intros ? ?; solve [side]
    | apply preserves_when
    | apply preserves_throttle; [intros ? ? ?; solve [side] | intros ?]
    | apply preserves_try_catch; [|intros ?]
    | apply preserves_bind; [|intros ?]
    | match goal with
      | |- preserves _ (match ?x with _ => _ end) => destruct x
      end
    | progress cbv zeta ].

Tactic Notation "preserves_auto" tactic3(side) := repeat preserves_step side.

(** ** The horizon is 0 while the element is idle *)




(** A call of [setSessionPrompts] leaves the playback state and the horizon
    alone, or takes the pause path. *)
Lemma setSessionPrompts_phase env now st :
  ∃ st' l,
    throttle SetSessionPromptsSlot (setSessionPromptsBody env) 250 now tt st
      = (Done tt, st', l) ∧
    session st' = session st ∧
    connectionError st' = connectionError st ∧
    audioContext st' = audioContext st ∧
    prompts st' = prompts st ∧
    ((playbackState st' = playbackState st ∧
      nextStartTime st' = nextStartTime st) ∨
     (playbackState st' = paused ∧ nextStartTime st' = 0%Q)).
Proof.
  unfold throttle, setSessionPromptsBody. run_monad.
  destruct (250 <=? now - setSessionPrompts_lastCall st); simpl;
    [|eexists _, _; repeat split; left; split; reflexivity].
  destruct (healthy st) as [s|]; simpl;
    [|eexists _, _; repeat split; left; split; reflexivity].
  destruct (setWeightedPromptsThrows env) as [msg|]; simpl;
    [|eexists _, _; repeat split; left; split; reflexivity].
  rewrite pauseAudio_exact. simpl. eexists _, _. split; [reflexivity|].
  repeat split. right. split; reflexivity.
Qed.




























(** ** The prompt map *)

Lemma map_get_set_eq k v m : map_get k (map_set k v m) = Some v.
Proof.
  induction m as [|[k' v'] m IH]; simpl.
  - rewrite String.eqb_refl. reflexivity.
  - destruct (String.eqb k k') eqn:E; simpl.
    + rewrite String.eqb_refl. reflexivity.
    + rewrite E. exact IH.
Qed.

Lemma map_get_set_ne k k' v m :
  k' ≠ k → map_get k' (map_set k v m) = map_get k' m.
Proof.
  intros Hne. induction m as [|[k0 v0] m IH]; simpl.
  - destruct (String.eqb_spec k' k); [contradiction | reflexivity].
  - destruct (String.eqb_spec k k0) as [-> | Hk]; simpl.
    + destruct (String.eqb_spec k' k0); [contradiction | reflexivity].
    + destruct (String.eqb k' k0); [reflexivity | exact IH].
Qed.

Lemma map_get_None k m : map_get k m = None ↔ k ∉ map fst m.
Proof.
  induction m as [|[k' v'] m IH]; simpl.
  - split; [intros _ H; inversion H | reflexivity].
  - rewrite not_elem_of_cons.
    destruct (String.eqb_spec k k') as [-> | Hk].
    + split; [discriminate | intros [H _]; contradiction].
    + rewrite IH. tauto.
Qed.

Lemma map_set_present k v m :
  map_get k m ≠ None →
  map fst (map_set k v m) = map fst m ∧
  length (map_set k v m) = length m.
Proof.
  induction m as [|[k' v'] m IH]; simpl; [contradiction|].
  destruct (String.eqb_spec k k') as [-> | Hk]; simpl; [split; reflexivity|].
  intros H. destruct (IH H) as [-> ->]. split; reflexivity.
Qed.

Lemma map_set_fresh k v m :
  map_get k m = None → map_set k v m = m ++ [(k, v)].
Proof.
  induction m as [|[k' v'] m IH]; simpl; [reflexivity|].
  destruct (String.eqb k k'); [discriminate|].
  intros H. rewrite (IH H). reflexivity.
Qed.

Lemma map_set_length k v m : (length (map_set k v m) ≤ S (length m))%nat.
Proof.
  induction m as [|[k' v'] m IH]; simpl; [lia|].
  destruct (String.eqb k k'); simpl; lia.
Qed.

Lemma map_delete_keys k m :
  map fst (map_delete k m) ⊆ map fst m ∧
  (length (map_delete k m) ≤ length m)%nat.
Proof.
  induction m as [|[k' v'] m IH]; simpl; [split; [done | lia]|].
  destruct (String.eqb k k'); simpl.
  - split; [apply list_subseteq_cons, reflexivity | lia].
  - destruct IH as [IH1 IH2]. split; [|lia].
    intros x Hx. apply elem_of_cons in Hx as [-> | Hx];
      [left | right; apply IH1, Hx].
Qed.




Lemma map_get_In k p m : map_get k m = Some p → (k, p) ∈ m.
Proof.
  induction m as [|[k0 v0] m IH]; simpl; [discriminate|].
  destruct (String.eqb_spec k k0) as [-> | Hk].
  - intros [= ->]. left.
  - intros H. right. apply IH, H.
Qed.

Lemma map_get_elem k m : k ∈ map fst m ↔ map_get k m ≠ None.
Proof.
  pose proof (map_get_None k m) as H.
  destruct (decide (k ∈ map fst m)) as [Hin | Hin]; split; tauto.
Qed.

Lemma map_set_keys k v m x :
  x ∈ map fst (map_set k v m) ↔ x = k ∨ x ∈ map fst m.
Proof.
  rewrite !map_get_elem. destruct (decide (x = k)) as [-> | Hne].
  - rewrite map_get_set_eq. split; [left; reflexivity | discriminate].
  - rewrite (map_get_set_ne _ _ _ _ Hne). tauto.
Qed.

Lemma wellKeyed_set k v m :
  promptId v = k → wellKeyed m → wellKeyed (map_set k v m).
Proof.
  intros Hv [Hnd Hall]. induction m as [|[k0 v0] m IH]; simpl.
  - split; [apply NoDup_singleton | repeat constructor; exact Hv].
  - simpl in Hnd. apply NoDup_cons in Hnd as [Hin Hnd].
    apply Forall_cons in Hall as [H0 Hall].
    destruct (String.eqb_spec k k0) as [-> | Hk].
    + split; [simpl; apply NoDup_cons; split; assumption|].
      constructor; [exact Hv | exact Hall].
    + destruct (IH Hnd Hall) as [IH1 IH2]. split.
      * simpl. apply NoDup_cons. split; [|exact IH1].
        rewrite map_set_keys. intros [Hc | Hc]; [congruence | contradiction].
      * constructor; assumption.
Qed.

Lemma wellKeyed_delete k m : wellKeyed m → wellKeyed (map_delete k m).
Proof.
  intros [Hnd Hall]. induction m as [|[k0 v0] m IH]; simpl; [split; assumption|].
  simpl in Hnd. apply NoDup_cons in Hnd as [Hin Hnd].
  apply Forall_cons in Hall as [H0 Hall].
  destruct (String.eqb k k0); [split; assumption|].
  destruct (IH Hnd Hall) as [IH1 IH2]. split.
  - simpl. apply NoDup_cons. split; [|exact IH1].
    intros Hc. apply Hin. apply (proj1 (map_delete_keys k m)), Hc.
  - constructor; assumption.
Qed.

(** ** Editing the prompt set *)

(** A call of [setSessionPrompts] after an edit of the map to [m]. *)
Lemma edit_then_push env st m :
  ∃ st2 l,
    (setSessionPrompts env ;; dispatchPromptsChange) (set_prompts m st)
      = (Done tt, st2, l ++ [PromptsChanged m]) ∧
    setSessionPrompts env (set_prompts m st) = (Done tt, st2, l) ∧
    prompts st2 = m ∧ nextPromptId st2 = nextPromptId st ∧
    promptsToSend st2 = promptsToSend (set_prompts m st).
Proof.
  destruct (setSessionPrompts_phase env (dateNow env) (set_prompts m st))
    as (st2 & l & Heq & _ & _ & _ & Hp & _).
  assert (Hf : filteredPrompts st2 = filteredPrompts st).
  { destruct (setSessionPrompts_frame env (dateNow env) (set_prompts m st))
      as (st3 & l3 & Heq3 & _ & _ & _ & _ & Hf & _).
    rewrite Heq in Heq3. injection Heq3 as <- _. exact Hf. }
  assert (Hn : nextPromptId st2 = nextPromptId st).
  { revert Heq. unfold throttle, setSessionPromptsBody. run_monad.
    destruct (250 <=? dateNow env - setSessionPrompts_lastCall st); simpl;
      [|intros [= <- _]; reflexivity].
    destruct (healthy (set_prompts m st)); simpl;
      [|intros [= <- _]; reflexivity].
    destruct (setWeightedPromptsThrows env); simpl;
      [|intros [= <- _]; reflexivity].
    rewrite pauseAudio_exact. simpl. intros [= <- _]. reflexivity. }
  exists st2, l. unfold setSessionPrompts at 2. rewrite Heq.
  split; [|split; [reflexivity | split; [exact Hp | split; [exact Hn|]]]].
  2: { unfold promptsToSend. rewrite Hp, Hf. reflexivity. }
  rewrite (bind_done _ _ _ _ _ _ Heq).
  unfold dispatchPromptsChange. run_monad. rewrite Hp. reflexivity.
Qed.

(** X19. A [prompt-changed] event. For a prompt that is in the map: the
    entry keeps its place, its id and its color and takes the text and the
    weight of the event; no other entry changes; when the session is
    healthy and the throttle lets the call through, the list pushed is
    that of the edited map. For an id that is not in the map the element
    is left as it is and nothing is sent. *)
Theorem prompt_change_updates_one_entry
    (st : PromptDj) (env : Env) (detail : Prompt) :
  (∀ prompt,
     map_get (promptId detail) (prompts st) = Some prompt →
     map fst (prompts (stateOf (handlePromptChanged detail env st)))
       = map fst (prompts st) ∧
     map_get (promptId detail)
       (prompts (stateOf (handlePromptChanged detail env st)))
       = Some (mkPrompt (promptId prompt) (color prompt)
                 (text detail) (weight detail)) ∧
     (∀ k, k ≠ promptId detail →
        map_get k (prompts (stateOf (handlePromptChanged detail env st)))
          = map_get k (prompts st)) ∧
     (∀ s, healthy st = Some s →
        250 ≤ dateNow env - setSessionPrompts_lastCall st →
        pushes (effectsOf (handlePromptChanged detail env st))
          = [promptsToSend (stateOf (handlePromptChanged detail env st))]) ∧
     (dateNow env - setSessionPrompts_lastCall st < 250 →
        pushes (effectsOf (handlePromptChanged detail env st)) = [])) ∧
  (map_get (promptId detail) (prompts st) = None →
   handlePromptChanged detail env st =
     (Done tt, st, [Console Error "Prompt not found:"])).
Proof.
  split.
  - intros prompt Hget.
    set (p' := mkPrompt (promptId prompt) (color prompt) (text detail)
                 (weight detail)).
    set (m := map_set (promptId detail) p' (prompts st)).
    destruct (edit_then_push env st m)
      as (st2 & l & Heq & Hpush & Hp & _ & Hsend).
    assert (E : handlePromptChanged detail env st
                = (Done tt, st2, l ++ [PromptsChanged m])).
    { unfold handlePromptChanged.
      rewrite (bind_done _ _ st (prompts st) st []) by reflexivity.
      rewrite Hget. cbv zeta.
      rewrite (bind_done _ _ st tt (set_prompts m st) []) by reflexivity.
      fold p' m. rewrite Heq. reflexivity. }
    rewrite E. cbn [stateOf effectsOf fst snd]. rewrite Hp.
    assert (Hne : map_get (promptId detail) (prompts st) ≠ None) by congruence.
    split; [apply (map_set_present _ p' _ Hne)|].
    split; [apply map_get_set_eq|].
    split; [intros k Hk; apply map_get_set_ne, Hk|].
    rewrite pushes_app. simpl. rewrite app_nil_r. split.
    + intros s Hh Hd.
      pose proof (setSessionPrompts_pushes (set_prompts m st) env s Hh Hd) as H.
      rewrite Hpush in H. cbn [effectsOf snd] in H. rewrite H, Hsend.
      reflexivity.
    + intros Hd. revert Hpush. unfold setSessionPrompts.
      rewrite throttle_drops by exact Hd. intros [= _ <-]. reflexivity.
  - intros Hget. unfold handlePromptChanged. run_monad. rewrite Hget.
    reflexivity.
Qed.

Lemma prompt_change_updates_one_entry_witness :
  pushes (effectsOf (handlePromptChanged
                       (mkPrompt "prompt-0" "#FF6384" "Sleepy Lullaby" 2%Q)
                       sampleEnv samplePlaying))
  = [promptsToSend (stateOf (handlePromptChanged
                       (mkPrompt "prompt-0" "#FF6384" "Sleepy Lullaby" 2%Q)
                       sampleEnv samplePlaying))].
Proof.
  destruct (prompt_change_updates_one_entry samplePlaying sampleEnv
              (mkPrompt "prompt-0" "#FF6384" "Sleepy Lullaby" 2%Q))
    as [H _].
  destruct (H (mkPrompt "prompt-0" "#FF6384" "Sleepy Lullaby" 1%Q) eq_refl)
    as (_ & _ & _ & Hpush & _).
  apply (Hpush (mkSession 1)).
  - reflexivity.
  - simpl. lia.
Defined.



(** ** A new prompt *)




Lemma handleAddPrompt_exact env st :
  (length (prompts st) < 8)%nat →
  handleAddPrompt env st =
    (Done tt,
     set_prompts
       (map_set ("prompt-" +:+ pretty (nextPromptId st))
          (mkPrompt ("prompt-" +:+ pretty (nextPromptId st))
             (getUnusedRandomColor (map color (map_values (prompts st)))
                (random env))
             "New Song Idea!" 0%Q)
          (prompts st))
       (set_nextPromptId (S (nextPromptId st)) st),
     [PromptsChanged
        (map_set ("prompt-" +:+ pretty (nextPromptId st))
           (mkPrompt ("prompt-" +:+ pretty (nextPromptId st))
              (getUnusedRandomColor (map color (map_values (prompts st)))
                 (random env))
              "New Song Idea!" 0%Q)
           (prompts st))]).
Proof.
  intros Hlen. unfold handleAddPrompt.
  rewrite (bind_done _ _ st (prompts st) st []) by reflexivity.
  destruct (Nat.leb_spec 8 (length (prompts st))); [lia|].
  reflexivity.
Qed.




(** ** Who writes the prompt map *)

Ltac sameMap_side :=
  idtac;
  match goal with
  | H : sameMap _ _ |- sameMap _ (writeLastCall ?slot _ _) =>
      destruct slot; exact H
  | H : sameMap _ _ |- sameMap _ _ => exact H
  end.

Section SameMap.
Variable st0 : PromptDj.

Lemma sameMap_pauseAudio env : preserves (sameMap st0) (pauseAudio env).
Proof. unfold pauseAudio. preserves_auto sameMap_side. Qed.

Lemma sameMap_setSessionPrompts_at env now :
  preserves (sameMap st0)
    (throttle SetSessionPromptsSlot (setSessionPromptsBody env) 250 now tt).
Proof.
  pose proof sameMap_pauseAudio.
  unfold setSessionPromptsBody. preserves_auto sameMap_side.
Qed.

Lemma sameMap_setSessionPrompts env :
  preserves (sameMap st0) (setSessionPrompts env).
Proof. apply sameMap_setSessionPrompts_at. Qed.

Lemma sameMap_updateSettings env cfg :
  preserves (sameMap st0) (updateSettings env cfg).
Proof. unfold updateSettings, updateSettingsBody. preserves_auto sameMap_side. Qed.

Lemma sameMap_onSettingsChanged cfg env :
  preserves (sameMap st0) (onSettingsChanged cfg env).
Proof.
  pose proof sameMap_updateSettings.
  unfold onSettingsChanged. preserves_auto sameMap_side.
Qed.

Lemma sameMap_initializeAudioContext env :
  preserves (sameMap st0) (initializeAudioContext env).
Proof. unfold initializeAudioContext. preserves_auto sameMap_side. Qed.

Lemma sameMap_resumeIfSuspended env :
  preserves (sameMap st0) (resumeIfSuspended env).
Proof. unfold resumeIfSuspended. preserves_auto sameMap_side. Qed.

Lemma sameMap_connectToSession env :
  preserves (sameMap st0) (connectToSession env).
Proof.
  pose proof sameMap_setSessionPrompts.
  unfold connectToSession. preserves_auto sameMap_side.
Qed.

Lemma sameMap_fadeIn env : preserves (sameMap st0) (fadeIn env).
Proof. unfold fadeIn. preserves_auto sameMap_side. Qed.

Lemma sameMap_loadAudio env : preserves (sameMap st0) (loadAudio env).
Proof.
  pose proof sameMap_connectToSession. pose proof sameMap_fadeIn.
  pose proof sameMap_pauseAudio.
  unfold loadAudio. preserves_auto sameMap_side.
Qed.

Lemma sameMap_handlePlayPause env :
  preserves (sameMap st0) (handlePlayPause env).
Proof.
  pose proof sameMap_connectToSession. pose proof sameMap_loadAudio.
  pose proof sameMap_initializeAudioContext.
  pose proof sameMap_resumeIfSuspended. pose proof sameMap_pauseAudio.
  unfold handlePlayPause. preserves_auto sameMap_side.
Qed.

Lemma sameMap_handleReset env : preserves (sameMap st0) (handleReset env).
Proof.
  pose proof sameMap_connectToSession. pose proof sameMap_updateSettings.
  pose proof sameMap_initializeAudioContext.
  pose proof sameMap_resumeIfSuspended. pose proof sameMap_pauseAudio.
  unfold handleReset, resetConfig. preserves_auto sameMap_side.
Qed.

Lemma sameMap_onAudioChunks chunks env :
  preserves (sameMap st0) (onAudioChunks chunks env).
Proof.
  pose proof sameMap_pauseAudio.
  unfold onAudioChunks. preserves_auto sameMap_side.
Qed.

Lemma sameMap_onmessage e env : preserves (sameMap st0) (onmessage e env).
Proof.
  pose proof sameMap_onAudioChunks.
  unfold onmessage, filteredToast. preserves_auto sameMap_side.
Qed.

Lemma sameMap_promoteToPlaying : preserves (sameMap st0) promoteToPlaying.
Proof. unfold promoteToPlaying. preserves_auto sameMap_side. Qed.

Lemma sameMap_onerror env : preserves (sameMap st0) (onerror env).
Proof.
  pose proof sameMap_pauseAudio. unfold onerror. preserves_auto sameMap_side.
Qed.

Lemma sameMap_onclose wasClean env :
  preserves (sameMap st0) (onclose wasClean env).
Proof.
  pose proof sameMap_pauseAudio. unfold onclose. preserves_auto sameMap_side.
Qed.

Lemma sameMap_firstUpdated later env :
  preserves (sameMap st0) (firstUpdated later env).
Proof.
  pose proof sameMap_connectToSession.
  pose proof sameMap_initializeAudioContext.
  pose proof sameMap_setSessionPrompts_at.
  unfold firstUpdated. preserves_auto sameMap_side.
Qed.

Lemma sameMap_handler ev env :
  isEdit ev = false → preserves (sameMap st0) (handler ev env).
Proof.
  intros Hev. destruct ev as [| | | |[]| | | | | |]; simpl;
    try discriminate Hev.
  - apply sameMap_firstUpdated.
  - apply sameMap_onmessage.
  - apply sameMap_onerror.
  - apply sameMap_onclose.
  - apply sameMap_promoteToPlaying.
  - apply preserves_toastShow.
  - apply sameMap_handlePlayPause.
  - apply sameMap_onSettingsChanged.
  - apply sameMap_handleReset.
Qed.
End SameMap.

(** X22. The prompt map and the id counter are written by the add button
    and the two events of the prompt controllers only: a run of any other
    events (server messages, loss of the connection, timers, play, reset,
    settings, the first update) leaves both as they were. Of the three,
    only the add button moves the counter. *)
Theorem only_editors_write_prompts
    (evs : list (Event * Env)) (st : PromptDj) :
  (Forall notEdit evs →
   prompts (run evs st).1 = prompts st ∧
   nextPromptId (run evs st).1 = nextPromptId st) ∧
  (∀ detail env,
     nextPromptId (stateOf (handlePromptChanged detail env st))
     = nextPromptId st) ∧
  (∀ i env,
     nextPromptId (stateOf (handlePromptRemoved i env st)) = nextPromptId st).
Proof.
  split; [|split].
  - intros Hall.
    change (sameMap st (run evs st).1).
    assert (H : ∀ st1, sameMap st st1 → sameMap st (run evs st1).1).
    { induction evs as [|[ev env] evs IH]; intros st1 H1; [exact H1|].
      apply Forall_cons in Hall as [Hev Hall]. simpl.
      apply (IH Hall). apply (sameMap_handler st ev env Hev). exact H1. }
    apply H. split; reflexivity.
  - intros detail env. unfold handlePromptChanged.
    rewrite (bind_done _ _ st (prompts st) st []) by reflexivity.
    destruct (map_get (promptId detail) (prompts st)) as [prompt|];
      [|reflexivity].
    cbv zeta.
    match goal with
    | |- context [modify (set_prompts ?m)] =>
        destruct (edit_then_push env st m) as (st2 & l & Heq & _ & _ & Hn & _);
        rewrite (bind_done _ _ st tt (set_prompts m st) []) by reflexivity
    end.
    rewrite Heq. exact Hn.
  - intros i env. unfold handlePromptRemoved.
    rewrite (bind_done _ _ st (prompts st) st []) by reflexivity.
    destruct (map_get i (prompts st)); [|reflexivity].
    match goal with
    | |- context [modify (set_prompts ?m)] =>
        destruct (edit_then_push env st m) as (st2 & l & Heq & _ & _ & Hn & _);
        rewrite (bind_done _ _ st tt (set_prompts m st) []) by reflexivity
    end.
    rewrite Heq. exact Hn.
Qed.

Lemma only_editors_write_prompts_witness :
  prompts (run [(ServerMessage (filteredMessage "Sleepy Lullaby"), envAt 6);
                (ConnectionError, envAt 7);
                (PlayPauseClick, sampleEnvOffline);
                (ResetClick, sampleEnv)]
             samplePlaying).1
  = samplePrompts.
Proof.
  destruct (only_editors_write_prompts
              [(ServerMessage (filteredMessage "Sleepy Lullaby"), envAt 6);
               (ConnectionError, envAt 7);
               (PlayPauseClick, sampleEnvOffline);
               (ResetClick, sampleEnv)]
              samplePlaying) as [H _].
  destruct H as [Hp _].
  - repeat constructor.
  - exact Hp.
Defined.

(** ** The ids of the prompts *)

Lemma promptKey_inj (n m : nat) :
  "prompt-" +:+ pretty n = "prompt-" +:+ pretty m → n = m.
Proof.
  intros H. apply (inj pretty). cbv [String.append] in H. congruence.
Qed.

Lemma tidy_next_fresh st :
  tidy st →
  map_get ("prompt-" +:+ pretty (nextPromptId st)) (prompts st) = None.
Proof.
  intros (_ & _ & Hnum). apply map_get_None. intros Hin.
  rewrite Forall_forall in Hnum. destruct (Hnum _ Hin) as (n & Hlt & Heq).
  apply promptKey_inj in Heq. lia.
Qed.

Lemma tidy_sameMap st st' : sameMap st st' → tidy st → tidy st'.
Proof. intros [Hp Hn]. unfold tidy. rewrite Hp, Hn. tauto. Qed.

Lemma tidy_handleAddPrompt env : preserves tidy (handleAddPrompt env).
Proof.
  intros st Ht.
  destruct (Nat.leb_spec 8 (length (prompts st))) as [Hfull | Hlen].
  - unfold handleAddPrompt.
    rewrite (bind_done _ _ st (prompts st) st []) by reflexivity.
    destruct (Nat.leb_spec 8 (length (prompts st))); [exact Ht | lia].
  - rewrite (handleAddPrompt_exact env st Hlen). cbn [stateOf fst snd].
    pose proof (tidy_next_fresh st Ht) as Hfresh.
    destruct Ht as (Hwk & _ & Hnum). unfold tidy. simpl. split; [|split].
    + apply wellKeyed_set; [reflexivity | exact Hwk].
    + pose proof (map_set_length ("prompt-" +:+ pretty (nextPromptId st))
                    (mkPrompt ("prompt-" +:+ pretty (nextPromptId st))
                       (getUnusedRandomColor
                          (map color (map_values (prompts st))) (random env))
                       "New Song Idea!" 0%Q) (prompts st)).
      lia.
    + rewrite (map_set_fresh _ _ _ Hfresh), map_app. apply Forall_app. split.
      * eapply Forall_impl; [exact Hnum|]. intros k (n & Hlt & Hk).
        exists n. split; [lia | exact Hk].
      * repeat constructor. exists (nextPromptId st). split; [lia | reflexivity].
Qed.

Lemma tidy_edit env st m :
  wellKeyed m → (length m ≤ length (prompts st))%nat →
  map fst m ⊆ map fst (prompts st) →
  tidy st →
  tidy (stateOf ((setSessionPrompts env ;; dispatchPromptsChange)
                   (set_prompts m st))).
Proof.
  intros Hwk Hlen Hsub (_ & Hle & Hnum).
  destruct (edit_then_push env st m) as (st2 & l & Heq & _ & Hp & Hn & _).
  rewrite Heq. cbn [stateOf fst snd]. unfold tidy. rewrite Hp, Hn.
  split; [exact Hwk|]. split; [lia|].
  rewrite Forall_forall in *. intros k Hk. apply Hnum, Hsub, Hk.
Qed.

Lemma tidy_handlePromptChanged detail env :
  preserves tidy (handlePromptChanged detail env).
Proof.
  intros st Ht. unfold handlePromptChanged.
  rewrite (bind_done _ _ st (prompts st) st []) by reflexivity.
  destruct (map_get (promptId detail) (prompts st)) as [prompt|] eqn:Hget;
    [|exact Ht].
  cbv zeta.
  assert (Hne : map_get (promptId detail) (prompts st) ≠ None) by congruence.
  set (p' := mkPrompt (promptId prompt) (color prompt) (text detail)
               (weight detail)).
  destruct (map_set_present (promptId detail) p' (prompts st) Hne)
    as [Hkeys Hlen].
  rewrite (bind_done _ _ st tt
             (set_prompts (map_set (promptId detail) p' (prompts st)) st) [])
    by reflexivity.
  cbn [effectsOf snd stateOf fst].
  apply tidy_edit; [| lia | rewrite Hkeys; reflexivity | exact Ht].
  apply wellKeyed_set; [|apply Ht].
  destruct Ht as ((_ & Hall) & _). rewrite Forall_forall in Hall.
  apply (Hall (promptId detail, prompt)). apply map_get_In, Hget.
Qed.

Lemma tidy_handlePromptRemoved i env :
  preserves tidy (handlePromptRemoved i env).
Proof.
  intros st Ht. unfold handlePromptRemoved.
  rewrite (bind_done _ _ st (prompts st) st []) by reflexivity.
  destruct (map_get i (prompts st)); [|exact Ht].
  rewrite (bind_done _ _ st tt (set_prompts (map_delete i (prompts st)) st) [])
    by reflexivity.
  cbn [effectsOf snd stateOf fst].
  destruct (map_delete_keys i (prompts st)) as [Hsub Hlen].
  apply tidy_edit; [apply wellKeyed_delete, Ht | exact Hlen | exact Hsub
                   | exact Ht].
Qed.

Lemma tidy_handler ev env : preserves tidy (handler ev env).
Proof.
  destruct (isEdit ev) eqn:Hev.
  - destruct ev; try discriminate Hev; simpl.
    + apply tidy_handleAddPrompt.
    + apply tidy_handlePromptChanged.
    + apply tidy_handlePromptRemoved.
  - intros st Ht. apply (tidy_sameMap st); [|exact Ht].
    apply (sameMap_handler st ev env Hev). split; reflexivity.
Qed.

Lemma defaultKeys_NoDup n : NoDup (defaultKeys n).
Proof.
  unfold defaultKeys. apply NoDup_fmap_2; [|apply NoDup_seq].
  intros a b. apply promptKey_inj.
Qed.

(** X23. The ids of the prompts over any run of events. On an element
    whose map is well keyed, holds at most 8 prompts and has only ids
    [prompt-n] with [n] below the counter, all of this still holds after
    any run of events; so the add button, pressed below the limit after
    the run, makes the map one entry longer. An element constructed on a
    map of at most 8 prompts with the ids [prompt-0], [prompt-1], ... in a
    row, as [getStoredPrompts] builds when nothing is stored, is such an
    element. *)
Theorem prompt_ids_stay_fresh (evs : list (Event * Env)) (st : PromptDj) :
  (tidy st →
   tidy (run evs st).1 ∧
   ∀ env,
     (length (prompts (run evs st).1) < 8)%nat →
     length (prompts (stateOf (handleAddPrompt env (run evs st).1)))
     = S (length (prompts (run evs st).1))) ∧
  (∀ ps ctx sc,
     map fst ps = defaultKeys (length ps) →
     Forall (λ kv : string * Prompt, promptId kv.2 = kv.1) ps →
     (length ps ≤ 8)%nat →
     tidy (newPromptDj ps ctx sc)).
Proof.
  split.
  - intros Ht.
    assert (H : tidy (run evs st).1).
    { revert st Ht. induction evs as [|[ev env] evs IH]; intros st Ht;
        [exact Ht|].
      simpl. apply IH. apply tidy_handler. exact Ht. }
    split; [exact H|].
    intros env Hlen. rewrite (handleAddPrompt_exact env _ Hlen).
    cbn [stateOf fst snd]. simpl.
    rewrite (map_set_fresh _ _ _ (tidy_next_fresh _ H)).
    rewrite length_app. simpl. lia.
  - intros ps ctx sc Hkeys Hall Hlen. unfold tidy, wellKeyed. simpl.
    rewrite Hkeys. split; [split; [apply defaultKeys_NoDup | exact Hall]|].
    split; [exact Hlen|].
    unfold defaultKeys. rewrite Forall_forall. intros k Hk.
    apply list_elem_of_fmap in Hk as (n & -> & Hn).
    apply elem_of_seq in Hn. exists n. split; [lia | reflexivity].
Qed.

Lemma prompt_ids_stay_fresh_witness :
  tidy (run [(PromptRemoved "prompt-1", envAt 6);
             (AddPromptClick, envAt 7);
             (AddPromptClick, envAt 8)]
          (newPromptDj samplePrompts (Some running) None)).1.
Proof.
  destruct (prompt_ids_stay_fresh
              [(PromptRemoved "prompt-1", envAt 6);
               (AddPromptClick, envAt 7);
               (AddPromptClick, envAt 8)]
              (newPromptDj samplePrompts (Some running) None)) as [H Hinit].
  destruct H as [Ht _].
  - apply Hinit.
    + reflexivity.
    + repeat constructor.
    + simpl. lia.
  - exact Ht.
Defined.

(** ** PromptController *)

Lemma updateText_keeps trim pc pc0 :
  sameController pc0 pc →
  sameController pc0 (updateText trim pc).1 ∧
  Forall (fromController pc0) (updateText trim pc).2.
Proof.
  intros (Hid & Hc & Ht). unfold updateText. cbv zeta.
  destruct (String.eqb_spec (trim (textContent pc)) "") as [E | E]; simpl.
  - split; [split; [|split]; assumption | constructor].
  - split; [split; [|split]; assumption|].
    repeat constructor; assumption.
Qed.

Lemma controllerHandler_keeps trim ev pc pc0 :
  sameController pc0 pc →
  sameController pc0 (controllerHandler trim ev pc).1 ∧
  Forall (fromController pc0) (controllerHandler trim ev pc).2.
Proof.
  intros H. destruct ev as [key content focused|content|weightInput|];
    cbn [controllerHandler].
  - assert (H' : sameController pc0 (withTextContent content pc)) by exact H.
    unfold handleTextKeyDown.
    destruct (String.eqb key "Enter"); [|split; [exact H | constructor]].
    cbv zeta. destruct (updateText_keeps trim _ pc0 H') as [H1 L1].
    destruct focused; [|split; assumption].
    destruct (updateText_keeps trim _ pc0 H1) as [H2 L2].
    split; [exact H2 | apply Forall_app; split; assumption].
  - apply updateText_keeps. exact H.
  - destruct H as (Hid & Hc & Ht). unfold updateWeight; simpl.
    split; [split; [|split]; assumption|].
    repeat constructor; assumption.
  - destruct H as (Hid & Hc & Ht). unfold dispatchPromptRemoved; simpl.
    split; [split; [|split]; assumption|].
    repeat constructor; assumption.
Qed.

(** X24. A prompt controller, through any key, blur, slider and remove
    events, whatever [trim] does: a controller that has a text keeps its
    id and its color and always has a text, every [prompt-changed] event
    it dispatches carries that id, that color and a text that is not
    empty, and every [prompt-removed] event carries that id. A span left
    blank is filled again with the text of the controller and dispatches
    nothing. *)
Theorem controller_text_never_blank
    (trim : string → string) (evs : list ControllerEvent)
    (pc : PromptController) :
  (ctlText pc ≠ "" →
   sameController pc (controllerRun trim evs pc).1 ∧
   Forall (fromController pc) (controllerRun trim evs pc).2) ∧
  (trim (textContent pc) = "" →
   updateText trim pc = (withTextContent (ctlText pc) pc, [])).
Proof.
  split.
  - intros Ht.
    assert (H : ∀ pc1, sameController pc pc1 →
                sameController pc (controllerRun trim evs pc1).1 ∧
                Forall (fromController pc) (controllerRun trim evs pc1).2).
    { induction evs as [|ev evs IH]; intros pc1 H1; simpl.
      - split; [exact H1 | constructor].
      - destruct (controllerHandler_keeps trim ev pc1 pc H1) as [H2 L2].
        destruct (IH _ H2) as [H3 L3].
        split; [exact H3 | apply Forall_app; split; assumption]. }
    apply H. split; [|split]; [reflexivity | reflexivity | exact Ht].
  - intros E. unfold updateText. cbv zeta. rewrite E. reflexivity.
Qed.

Lemma controller_text_never_blank_witness :
  sameController sampleController
    (controllerRun (λ s, s)
       [TextBlur ""; WeightInput (mkWeightSlider (3 # 2) 0 0 None);
        TextKeyDown "Enter" "Dancing Robots" true; RemoveClick]
       sampleController).1.
Proof.
  destruct (controller_text_never_blank (λ s, s)
              [TextBlur ""; WeightInput (mkWeightSlider (3 # 2) 0 0 None);
               TextKeyDown "Enter" "Dancing Robots" true; RemoveClick]
              sampleController) as [H _].
  destruct H as [Hs _].
  - discriminate.
  - exact Hs.
Defined.

(** ** From a controller to the session *)

(** A [prompt-changed] event for a prompt of the map, step by step. *)
Lemma handlePromptChanged_found detail env st prompt :
  map_get (promptId detail) (prompts st) = Some prompt →
  ∃ st2 l,
    handlePromptChanged detail env st =
      (Done tt, st2,
       l ++ [PromptsChanged
               (map_set (promptId detail)
                  (mkPrompt (promptId prompt) (color prompt) (text detail)
                     (weight detail))
                  (prompts st))]) ∧
    setSessionPrompts env
      (set_prompts
         (map_set (promptId detail)
            (mkPrompt (promptId prompt) (color prompt) (text detail)
               (weight detail))
            (prompts st)) st)
      = (Done tt, st2, l) ∧
    prompts st2 =
      map_set (promptId detail)
        (mkPrompt (promptId prompt) (color prompt) (text detail)
           (weight detail))
        (prompts st) ∧
    filteredPrompts st2 = filteredPrompts st.
Proof.
  intros Hget.
  set (m := map_set (promptId detail)
              (mkPrompt (promptId prompt) (color prompt) (text detail)
                 (weight detail))
              (prompts st)).
  destruct (edit_then_push env st m) as (st2 & l & Heq & Hpush & Hp & _).
  assert (Hf : filteredPrompts st2 = filteredPrompts st).
  { destruct (setSessionPrompts_frame' env (set_prompts m st))
      as (st3 & l3 & Heq3 & _ & _ & _ & _ & Hf & _).
    rewrite Hpush in Heq3. injection Heq3 as <- _. exact Hf. }
  exists st2, l. split; [|split; [|split]; assumption].
  unfold handlePromptChanged.
  rewrite (bind_done _ _ st (prompts st) st []) by reflexivity.
  rewrite Hget. cbv zeta.
  rewrite (bind_done _ _ st tt (set_prompts m st) []) by reflexivity.
  fold m. rewrite Heq. reflexivity.
Qed.

(** An accepted call of [setSessionPrompts] stores its time, whether the
    push goes through or not, and leaves the session as healthy as it
    was. *)
Lemma setSessionPrompts_stamps env st st2 l :
  setSessionPrompts env st = (Done tt, st2, l) →
  250 ≤ dateNow env - setSessionPrompts_lastCall st →
  setSessionPrompts_lastCall st2 = dateNow env ∧ healthy st2 = healthy st.
Proof.
  intros Heq Hd.
  destruct (setSessionPrompts_frame' env st)
    as (st3 & l3 & Heq3 & Hs & Hc & _).
  rewrite Heq in Heq3. injection Heq3 as <- _.
  split; [|unfold healthy; rewrite Hs, Hc; reflexivity].
  revert Heq. unfold setSessionPrompts. rewrite throttle_accepts by exact Hd.
  unfold setSessionPromptsBody. run_monad.
  destruct (healthy st); simpl; [|intros [= <- _]; reflexivity].
  destruct (setWeightedPromptsThrows env); simpl;
    [|intros [= <- _]; reflexivity].
  rewrite pauseAudio_exact. simpl. intros [= <- _]. reflexivity.
Qed.

Lemma map_set_set k v m : map_set k v (map_set k v m) = map_set k v m.
Proof.
  induction m as [|[k' v'] m IH]; simpl.
  - rewrite String.eqb_refl. reflexivity.
  - destruct (String.eqb k k') eqn:E; simpl.
    + rewrite String.eqb_refl. reflexivity.
    + rewrite E, IH. reflexivity.
Qed.

(** X25. The Enter key in the text of a prompt, the span holding a text
    that is not blank and having the focus: [updateText] runs twice, once
    from the key handler and once from the blur it causes, and two equal
    [prompt-changed] events are dispatched. When the element handles them
    less than 250 ms apart on a healthy session with the throttle open,
    the entry of the map takes the new text and the weight of the
    controller, and the prompts are pushed once: the second push is
    dropped by the throttle. *)
Theorem enter_dispatches_twice_pushes_once
    (trim : string → string) (pc : PromptController) (st : PromptDj)
    (env1 env2 : Env) (s : LiveMusicSession) (p : Prompt) :
  trim (textContent pc) ≠ "" →
  map_get (ctlPromptId pc) (prompts st) = Some p →
  healthy st = Some s →
  250 ≤ dateNow env1 - setSessionPrompts_lastCall st →
  dateNow env2 - dateNow env1 < 250 →
  ∃ detail,
    (handleTextKeyDown trim "Enter" true pc).2
      = [PromptChanged detail; PromptChanged detail] ∧
    detail = mkPrompt (ctlPromptId pc) (ctlColor pc) (trim (textContent pc))
               (ctlWeight pc) ∧
    map_get (ctlPromptId pc)
      (prompts (run [(PromptChanged detail, env1);
                     (PromptChanged detail, env2)] st).1)
      = Some (mkPrompt (promptId p) (color p) (trim (textContent pc))
                (ctlWeight pc)) ∧
    pushes (run [(PromptChanged detail, env1);
                 (PromptChanged detail, env2)] st).2
      = [promptsToSend (run [(PromptChanged detail, env1);
                             (PromptChanged detail, env2)] st).1].
Proof.
  intros Htrim Hget Hh Hopen Hclose.
  set (detail := mkPrompt (ctlPromptId pc) (ctlColor pc)
                   (trim (textContent pc)) (ctlWeight pc)).
  exists detail. split; [|split; [reflexivity|]].
  { unfold handleTextKeyDown, updateText. cbn [String.eqb Ascii.eqb Bool.eqb].
    cbv zeta. apply String.eqb_neq in Htrim. rewrite Htrim.
    cbn [fst snd textContent]. rewrite Htrim. reflexivity. }
  set (p' := mkPrompt (promptId p) (color p) (trim (textContent pc))
               (ctlWeight pc)).
  set (m := map_set (ctlPromptId pc) p' (prompts st)).
  destruct (handlePromptChanged_found detail env1 st p Hget)
    as (st2 & l & E1 & Hpush1 & Hp1 & Hf1).
  cbn [promptId text weight detail] in E1, Hpush1, Hp1. fold p' m in E1, Hpush1, Hp1.
  assert (Hl : pushes l = [promptsToSend (set_prompts m st)]).
  { pose proof (setSessionPrompts_pushes (set_prompts m st) env1 s Hh Hopen)
      as H. rewrite Hpush1 in H. exact H. }
  destruct (setSessionPrompts_stamps env1 _ _ _ Hpush1 Hopen) as [Hstamp _].
  assert (Hget2 : map_get (promptId detail) (prompts st2) = Some p').
  { rewrite Hp1. apply map_get_set_eq. }
  destruct (handlePromptChanged_found detail env2 st2 p' Hget2)
    as (st3 & l' & E2 & Hpush2 & Hp2 & Hf2).
  cbn [promptId color text weight detail p'] in E2, Hpush2, Hp2.
  fold p' in E2, Hpush2, Hp2.
  rewrite Hp1 in E2, Hpush2, Hp2. unfold m in E2, Hpush2, Hp2.
  rewrite map_set_set in E2, Hpush2, Hp2. fold m in E2, Hpush2, Hp2.
  assert (Hl' : l' = []).
  { revert Hpush2. unfold setSessionPrompts. rewrite throttle_drops.
    - intros [= _ <-]. reflexivity.
    - cbn [readLastCall]. simpl. rewrite Hstamp. exact Hclose. }
  subst l'.
  cbn [run handler]. rewrite E1. cbn [stateOf effectsOf fst snd].
  rewrite E2. cbn [stateOf effectsOf fst snd]. split.
  - rewrite Hp2. apply map_get_set_eq.
  - rewrite !pushes_app, Hl. simpl.
    unfold promptsToSend. rewrite Hp2, Hf2, Hf1. reflexivity.
Qed.

Lemma enter_dispatches_twice_pushes_once_witness :
  length
    (pushes
       (run [(PromptChanged (mkPrompt "prompt-0" "#FF6384" "Sleepy Lullaby" 1),
              sampleEnv);
             (PromptChanged (mkPrompt "prompt-0" "#FF6384" "Sleepy Lullaby" 1),
              envAt 7)]
          samplePlaying).2)
  = 1%nat.
Proof.
  destruct (enter_dispatches_twice_pushes_once (λ s, s) sampleController
              samplePlaying sampleEnv (envAt 7) (mkSession 1)
              (mkPrompt "prompt-0" "#FF6384" "Sleepy Lullaby" 1%Q))
    as (detail & _ & -> & _ & H).
  - discriminate.
  - reflexivity.
  - reflexivity.
  - simpl. lia.
  - simpl. lia.
  - exact (f_equal length H).
Defined.

(** The detail of an [input] event is the value the slider then has. *)
Lemma sliderHandler_detail ev w v :
  (sliderHandler ev w).2 = [v] → v = sliderValue (sliderHandler ev w).1.
Proof.
  destruct ev as [clientY rect|clientY|touches| |deltaY];
    cbn [sliderHandler]; unfold handlePointerDown, handlePointerMove,
      handleTouchMove, handlePointerUp, handleWheel, updateValueFromPosition;
    simpl.
  - intros [= <-]. reflexivity.
  - destruct (containerBounds w); simpl; [|discriminate].
    intros [= <-]. reflexivity.
  - destruct touches; simpl; [discriminate|].
    destruct (containerBounds w); simpl; [|discriminate].
    intros [= <-]. reflexivity.
  - discriminate.
  - intros [= <-]. reflexivity.
Qed.

(** X26. From the slider to the map. A pointer, touch or wheel event on
    the slider of a controller that dispatches an [input] event, the track
    being of positive height: the controller takes the value of the slider
    as its weight and dispatches one [prompt-changed] event with it, the
    value is between 0 and 2, and the element files it as the weight of
    the prompt of that id, with the text of the controller, leaving the id
    and the color of the entry as they were. *)
Theorem slider_gesture_reaches_map
    (ev : SliderEvent) (w : WeightSlider) (pc : PromptController)
    (st : PromptDj) (env : Env) (p : Prompt) (v : Q) :
  tallTrack ev → measured w → inRange (sliderValue w) →
  (sliderHandler ev w).2 = [v] →
  map_get (ctlPromptId pc) (prompts st) = Some p →
  ∃ detail,
    (updateWeight (sliderHandler ev w).1 pc).2 = [PromptChanged detail] ∧
    ctlWeight (updateWeight (sliderHandler ev w).1 pc).1 = v ∧
    inRange v ∧
    map_get (ctlPromptId pc)
      (prompts (stateOf (handler (PromptChanged detail) env st)))
      = Some (mkPrompt (promptId p) (color p) (ctlText pc) v).
Proof.
  intros Hev Hm Hv Hout Hget.
  pose proof (sliderHandler_detail ev w v Hout) as Hval.
  destruct (sliderHandler_inRange ev w Hev Hm Hv) as (_ & Hr & _).
  rewrite <- Hval in Hr.
  exists (mkPrompt (ctlPromptId pc) (ctlColor pc) (ctlText pc) v).
  unfold updateWeight. cbn [fst snd ctlWeight]. unfold dispatchPromptChange.
  cbn [ctlPromptId ctlColor ctlText ctlWeight]. rewrite <- Hval.
  split; [reflexivity|]. split; [reflexivity|]. split; [exact Hr|].
  destruct (handlePromptChanged_found
              (mkPrompt (ctlPromptId pc) (ctlColor pc) (ctlText pc) v)
              env st p Hget) as (st2 & l & E & _ & Hp & _).
  cbn [handler]. rewrite E. cbn [stateOf fst snd]. rewrite Hp.
  apply map_get_set_eq.
Qed.

Lemma slider_gesture_reaches_map_witness :
  map_get "prompt-0"
    (prompts
       (stateOf
          (handler
             (PromptChanged (mkPrompt "prompt-0" "#FF6384" "Sleepy Lullaby" 2))
             sampleEnv samplePlaying)))
  = Some (mkPrompt "prompt-0" "#FF6384" "Sleepy Lullaby" 2).
Proof.
  destruct (slider_gesture_reaches_map
              (Wheel (-1000))
              (mkWeightSlider 1 0 0 None) sampleController samplePlaying
              sampleEnv (mkPrompt "prompt-0" "#FF6384" "Sleepy Lullaby" 1%Q)
              2%Q)
    as (detail & Hd & _ & _ & H).
  - exact I.
  - exact I.
  - split; discriminate.
  - reflexivity.
  - reflexivity.
  - injection Hd as <-. exact H.
Defined.
